(** * Call-lifecycle orchestration core: onboarding, dispatch, claiming, reconciliation

    A shallow embedding of the route handlers of the repository:

    - [app/api/onboarding/process/route.ts]  ([Process.POST], [Process.buildSystemPrompt],
                                              [OpenAI.getOutputText])
    - [app/api/calls/route.ts]               ([Calls.reconcileStuckCalls], [Calls.POST])
    - [app/api/future/route.ts]              ([Future.claimDueScheduled], [Future.POST])
    - the scheduled-calls route              ([Scheduling.POST], [Scheduling.GET],
                                              [Schedule.DELETE])
    - [app/api/history/route.ts]             ([History.GET])
    - the transcripts, upload-url and bootstrap routes
                                             ([Transcripts.GET], [Upload.POST], [Bootstrap.GET])
    - the dashboard page                     ([Dashboard.fetchScheduledCalls],
                                              [Dashboard.scheduleCall],
                                              [Dashboard.cancelScheduledCall])

    The record store (a PostgREST service) is a record of tables; every table
    is a list of rows, a filter selects the rows it matches and a PATCH
    rewrites every row it matches.  What the remote services answer is not
    decided by the handlers: each handler takes an environment that fixes the
    answers of one invocation (the HTTP outcome of every store request, the
    provider replies, the clock).  A store request that is answered with a
    non-2xx status leaves the store unchanged.  A [fetch] whose promise is
    rejected is modelled where the source has a [try] around it; an
    exception that the code raises itself ([toISOString] of a time value
    out of range) is modelled where it is raised, caught or not.

    Instants are milliseconds since the epoch ([Date.getTime]); the numeric
    fields of provider replies are integers.  A string is the UTF-8 bytes
    of its text, and is counted in UTF-16 code units where JavaScript
    counts ([slice]). *)

From Stdlib Require Import List String Ascii ZArith Lia Bool Arith PeanoNat.
From Stdlib Require Import Permutation.
From Stdlib Require Import Sorted.
From Stdlib Require Import DecimalString Decimal.
From Stdlib Require QArith.
Import ListNotations.
Open Scope string_scope.
Open Scope Z_scope.

Set Implicit Arguments.

(* ================================================================== *)
(** * JavaScript values *)
(* ================================================================== *)

Module Js.

(** The double quote character, for template strings that contain it. *)
Definition dq : string := String (ascii_of_nat 34) EmptyString.

Definition nonempty (s : string) : bool :=
  match s with EmptyString => false | String _ _ => true end.

(** Truthiness of a [string | null | undefined] value. *)
Definition truthy (v : option string) : bool :=
  match v with Some s => nonempty s | None => false end.

(** Truthiness of a [number | null] value ([NaN] is not represented). *)
Definition truthyZ (v : option Z) : bool :=
  match v with Some n => negb (n =? 0) | None => false end.

(** [a || b] on [string | null] values. *)
Definition orS (a b : option string) : option string :=
  if truthy a then a else b.

(** [(typeof a === "number" && a) || (typeof b === "number" && b) || null]. *)
Definition numOr (a b : option Z) : option Z :=
  if truthyZ a then a else if truthyZ b then b else None.

(** [Array.prototype.join]. *)
Fixpoint join (sep : string) (l : list string) : string :=
  match l with
  | [] => EmptyString
  | [x] => x
  | x :: rest => x ++ sep ++ join sep rest
  end.

Definition lowerAscii (c : ascii) : ascii :=
  let n := nat_of_ascii c in
  if andb (Nat.leb 65 n) (Nat.leb n 90) then ascii_of_nat (n + 32) else c.

Fixpoint toLowerCase (s : string) : string :=
  match s with
  | EmptyString => EmptyString
  | String c r => String (lowerAscii c) (toLowerCase r)
  end.

(** [String(n)] for a non-negative integer. *)
Definition ofNat (n : nat) : string := NilZero.string_of_uint (Nat.to_uint n).

(** A string is the UTF-8 bytes of the text.  JavaScript counts a string in
    UTF-16 code units: [utf8Length b] gives, for the character whose first
    byte is [b], the bytes it takes here and the code units it takes there
    (a byte that starts no character counts as one of each). *)
Definition utf8Length (lead : ascii) : nat * nat :=
  let n := nat_of_ascii lead in
  if Nat.ltb n 192 then (1, 1)%nat
  else if Nat.ltb n 224 then (2, 1)%nat
  else if Nat.ltb n 240 then (3, 1)%nat
  else if Nat.ltb n 248 then (4, 2)%nat
  else (1, 1)%nat.

(** The high surrogate of the four-byte character [b0 b1 b2 ..], written as
    the three bytes of its own code point (a slice that ends between the two
    code units of such a character keeps the high surrogate alone). *)
Definition highSurrogate (b0 : ascii) (rest : string) : string :=
  let byte := fun (i : nat) =>
    match String.get i rest with Some b => nat_of_ascii b | None => 128%nat end in
  let top := (((nat_of_ascii b0) mod 8) * 256 + ((byte 0%nat) mod 64) * 4
              + ((byte 1%nat) mod 64) / 16)%nat in
  let x := (top - 64)%nat in
  String (ascii_of_nat 237)
    (String (ascii_of_nat (160 + (x / 64) mod 16))
       (String (ascii_of_nat (128 + x mod 64)) EmptyString)).

(** The first [units] code units of [s]; [pending] bytes of a character that
    was taken are still to be copied. *)
Fixpoint sliceUnits (units pending : nat) (s : string) : string :=
  match s with
  | EmptyString => EmptyString
  | String b rest =>
      match pending with
      | S k => String b (sliceUnits units k rest)
      | O =>
          let '(bytes, u) := utf8Length b in
          if Nat.leb u units
          then String b (sliceUnits (units - u) (bytes - 1) rest)
          else if Nat.eqb units 0 then EmptyString
          else highSurrogate b rest
      end
  end.

(** [s.slice(0, n)]. *)
Definition slice0 (n : nat) (s : string) : string := sliceUnits n 0 s.

(** A decimal numeral of at least [width] digits. *)
Definition pad (width : nat) (n : Z) : string :=
  let digits := ofNat (Z.to_nat n) in
  concat EmptyString (repeat "0" (width - String.length digits)) ++ digits.

(** The year, month and day of the day that is [days] days after the first
    of January 1970, in the proleptic Gregorian calendar. *)
Definition civil (days : Z) : Z * Z * Z :=
  let z := days + 719468 in
  let era := z / 146097 in
  let doe := z mod 146097 in
  let yoe := (doe - doe / 1460 + doe / 36524 - doe / 146096) / 365 in
  let doy := doe - (365 * yoe + yoe / 4 - yoe / 100) in
  let mp := (5 * doy + 2) / 153 in
  let d := doy - (153 * mp + 2) / 5 + 1 in
  let m := if mp <? 10 then mp + 3 else mp - 9 in
  (yoe + era * 400 + (if m <=? 2 then 1 else 0), m, d).

(** The largest time value of a [Date], on either side of the epoch. *)
Definition MAX_TIME_MS : Z := 8640000000000000.

(** [new Date(ms).toISOString()]; [None] for the [RangeError] that it
    throws when [ms] is no time value of a [Date]. *)
Definition toISOString (ms : Z) : option string :=
  if Z.abs ms <=? MAX_TIME_MS then
    let '(y, m, d) := civil (ms / 86400000) in
    let t := ms mod 86400000 in
    let year := if andb (0 <=? y) (y <=? 9999) then pad 4 y
                else (if y <? 0 then "-" else "+") ++ pad 6 (Z.abs y) in
    Some (year ++ "-" ++ pad 2 m ++ "-" ++ pad 2 d ++ "T"
          ++ pad 2 (t / 3600000) ++ ":" ++ pad 2 ((t / 60000) mod 60) ++ ":"
          ++ pad 2 ((t / 1000) mod 60) ++ "." ++ pad 3 (t mod 1000) ++ "Z")
  else None.

(** A number as [Number(text)] gives it: a finite one, an infinite one or
    [NaN]. *)
Inductive Number : Type :=
| NaN
| NegInfinity
| Finite (q : QArith_base.Q)
| Infinity.

(** [a <= b]; false when one of them is [NaN]. *)
Definition numberLe (a b : Number) : bool :=
  match a, b with
  | NaN, _ | _, NaN => false
  | NegInfinity, _ => true
  | _, Infinity => true
  | Finite x, Finite y => QArith_base.Qle_bool x y
  | _, _ => false
  end.

(** [Math.min(a, b)]: [NaN] when one of them is. *)
Definition mathMin (a b : Number) : Number :=
  match a, b with
  | NaN, _ | _, NaN => NaN
  | _, _ => if numberLe a b then a else b
  end.

Definition ofZ (n : Z) : Number := Finite (QArith_base.inject_Z n).

Definition includes (l : list string) (s : string) : bool :=
  existsb (String.eqb s) l.

(** Stable insertion sort; [le a b] says that [a] may stand before [b]. *)
Section Sorting.
Variable A : Type.
Variable le : A -> A -> bool.

Fixpoint insertSorted (x : A) (l : list A) : list A :=
  match l with
  | [] => [x]
  | y :: r => if le x y then x :: l else y :: insertSorted x r
  end.

Definition sortBy (l : list A) : list A := fold_right insertSorted [] l.
End Sorting.

End Js.

(* ================================================================== *)
(** * The record store *)
(* ================================================================== *)

Module Store.

(** [SetupStatus] of the bootstrap route. *)
Inductive SetupStatus : Set :=
| st_new | voice_uploaded | voice_created | agent_created | ready | error.

Inductive CallStatus : Set :=
| queued | dialing | in_progress | completed | failed.

Inductive ScheduledStatus : Set :=
| pending | executing | executed | sc_failed | canceled.

Inductive Origin : Set := manual | scheduled_origin.

Definition SetupStatus_eqb (a b : SetupStatus) : bool :=
  match a, b with
  | st_new, st_new | voice_uploaded, voice_uploaded
  | voice_created, voice_created | agent_created, agent_created
  | ready, ready | error, error => true
  | _, _ => false
  end.

Definition CallStatus_eqb (a b : CallStatus) : bool :=
  match a, b with
  | queued, queued | dialing, dialing | in_progress, in_progress
  | completed, completed | failed, failed => true
  | _, _ => false
  end.

Definition ScheduledStatus_eqb (a b : ScheduledStatus) : bool :=
  match a, b with
  | pending, pending | executing, executing | executed, executed
  | sc_failed, sc_failed | canceled, canceled => true
  | _, _ => false
  end.

(** The filter [status=in.(queued,dialing,in_progress)]. *)
Definition isActive (s : CallStatus) : bool :=
  match s with
  | queued | dialing | in_progress => true
  | completed | failed => false
  end.

Record Profile : Type := mkProfile {
  clerk_user_id : string;
  phone_e164 : option string;
  setup_status : SetupStatus;
  eleven_voice_id : option string;
  eleven_agent_id : option string
}.

(** [ExtractedReflection] of the onboarding route. *)
Record ExtractedReflection : Type := mkReflection {
  goals : list string;
  fears : list string;
  situation : string;
  currentWork : option string;
  otherNotes : option string
}.

Record Timestamp : Type := mkTimestamp {
  ts_id : nat;
  ts_user : string;
  ts_title : option string;
  ts_snapshot_date : option string;
  ts_created_at : Z;
  ts_reflection : option (ExtractedReflection * string)
}.

Record CallRow : Type := mkCall {
  call_id : nat;
  call_user : string;
  call_timestamp_id : nat;
  call_scheduled_call_id : option nat;
  call_origin : Origin;
  call_status : CallStatus;
  call_to_number : string;
  call_created_at : option Z;
  call_started_at : option Z;
  call_ended_at : option Z;
  call_duration_seconds : option Z;
  call_failure_reason : option string;
  eleven_conversation_id : option string;
  twilio_call_sid : option string
}.

Record ScheduledRow : Type := mkScheduled {
  sc_id : nat;
  sc_user : string;
  sc_timestamp_id : nat;
  sc_scheduled_for : Z;
  sc_status : ScheduledStatus;
  sc_attempt_count : option Z;
  sc_last_attempt_at : option Z;
  sc_executed_at : option Z;
  sc_failure_reason : option string;
  sc_updated_at : option Z
}.

Record World : Type := mkWorld {
  profiles : list Profile;
  timestamps : list Timestamp;
  calls : list CallRow;
  scheduled : list ScheduledRow
}.

Definition with_profiles (w : World) (p : list Profile) : World :=
  mkWorld p (timestamps w) (calls w) (scheduled w).
Definition with_timestamps (w : World) (t : list Timestamp) : World :=
  mkWorld (profiles w) t (calls w) (scheduled w).
Definition with_calls (w : World) (c : list CallRow) : World :=
  mkWorld (profiles w) (timestamps w) c (scheduled w).
Definition with_scheduled (w : World) (s : list ScheduledRow) : World :=
  mkWorld (profiles w) (timestamps w) (calls w) s.

(** ** JSON patches: a key that is present overwrites the column, also
    with [null]. *)

Definition setField (A : Type) (upd : option A) (old : A) : A :=
  match upd with Some v => v | None => old end.

Record CallPatch : Type := mkCallPatch {
  cp_status : option CallStatus;
  cp_started_at : option (option Z);
  cp_ended_at : option (option Z);
  cp_duration_seconds : option (option Z);
  cp_failure_reason : option (option string);
  cp_conversation_id : option (option string);
  cp_call_sid : option (option string)
}.

Definition applyCallPatch (p : CallPatch) (c : CallRow) : CallRow :=
  mkCall (call_id c) (call_user c) (call_timestamp_id c)
         (call_scheduled_call_id c) (call_origin c)
         (setField (cp_status p) (call_status c))
         (call_to_number c)
         (call_created_at c)
         (setField (cp_started_at p) (call_started_at c))
         (setField (cp_ended_at p) (call_ended_at c))
         (setField (cp_duration_seconds p) (call_duration_seconds c))
         (setField (cp_failure_reason p) (call_failure_reason c))
         (setField (cp_conversation_id p) (eleven_conversation_id c))
         (setField (cp_call_sid p) (twilio_call_sid c)).

(** [PATCH /calls?id=eq.<id>]. *)
Definition patchCallsById (id : nat) (p : CallPatch) (w : World) : World :=
  with_calls w
    (map (fun c => if Nat.eqb (call_id c) id then applyCallPatch p c else c)
         (calls w)).

Record ScheduledPatch : Type := mkScheduledPatch {
  sp_status : option ScheduledStatus;
  sp_last_attempt_at : option (option Z);
  sp_attempt_count : option (option Z);
  sp_executed_at : option (option Z);
  sp_failure_reason : option (option string);
  sp_updated_at : option (option Z)
}.

Definition applyScheduledPatch (p : ScheduledPatch) (r : ScheduledRow)
  : ScheduledRow :=
  mkScheduled (sc_id r) (sc_user r) (sc_timestamp_id r) (sc_scheduled_for r)
              (setField (sp_status p) (sc_status r))
              (setField (sp_attempt_count p) (sc_attempt_count r))
              (setField (sp_last_attempt_at p) (sc_last_attempt_at r))
              (setField (sp_executed_at p) (sc_executed_at r))
              (setField (sp_failure_reason p) (sc_failure_reason r))
              (setField (sp_updated_at p) (sc_updated_at r)).

(** [PATCH /scheduled_calls?<filter>]: rewrites the rows the filter
    matches. *)
Definition patchScheduledWhere (sel : ScheduledRow -> bool)
  (p : ScheduledPatch) (w : World) : World :=
  with_scheduled w
    (map (fun r => if sel r then applyScheduledPatch p r else r)
         (scheduled w)).

(** The representation a guarded PATCH returns: the rows it matched, as
    they are after the update. *)
Definition patchedScheduled (sel : ScheduledRow -> bool)
  (p : ScheduledPatch) (w : World) : list ScheduledRow :=
  map (applyScheduledPatch p) (filter sel (scheduled w)).

(** Row ids are generated by the store (uuids); they are numbers here,
    [0] standing for the empty, falsy id.  A new row gets an id that no
    row of the table has. *)
Definition freshCallId (w : World) : nat :=
  S (list_max (map call_id (calls w))).

(** [POST /calls]: the store appends the row with a fresh id; [created_at]
    is filled by the store from its clock. *)
Definition insertCall (now : Z) (user : string) (timestampId : nat)
  (sched : option nat) (o : Origin) (toNumber : string) (w : World)
  : World * nat :=
  let id := freshCallId w in
  (with_calls w
     (calls w ++
      [mkCall id user timestampId sched o queued toNumber
              (Some now) None None None None None None]),
   id).

Definition activeCallsOf (user : string) (w : World) : list CallRow :=
  filter (fun c => andb (String.eqb (call_user c) user)
                        (isActive (call_status c)))
         (calls w).

Definition profilesOf (user : string) (w : World) : list Profile :=
  filter (fun p => String.eqb (clerk_user_id p) user) (profiles w).

(** [order=created_at.desc]; a row without [created_at] sorts first, as
    PostgreSQL puts nulls first in descending order. *)
Definition createdDesc (a b : CallRow) : bool :=
  match call_created_at a, call_created_at b with
  | None, _ => true
  | Some _, None => false
  | Some x, Some y => y <=? x
  end.

Definition tsCreatedDesc (a b : Timestamp) : bool :=
  ts_created_at b <=? ts_created_at a.

Definition latestTimestampsOf (user : string) (w : World) : list Timestamp :=
  firstn 1 (Js.sortBy tsCreatedDesc
              (filter (fun t => String.eqb (ts_user t) user) (timestamps w))).

End Store.

(* ================================================================== *)
(** * Requests to the store and replies of the provider *)
(* ================================================================== *)

Module Remote.
Import Store.

(** The store requests of the handlers.  An environment says for each of
    them whether the store answers it with a 2xx status. *)
Inductive Request : Type :=
| GetProfile (user : string)
| PatchProfileStatus (user : string) (s : SetupStatus)
| GetTimestampMeta (id : nat) (user : string)
| PatchTimestampReflection (id : nat) (user : string)
| GetLatestTimestamp (user : string)
| GetStuckCalls (user : string)
| GetActiveCall (user : string)
| CountActiveCalls
| InsertCall (user : string)
| PatchCall (id : nat) (s : CallStatus)
| RpcClaimDue
| GetDueScheduled
| ClaimScheduled (id : nat)
| PatchScheduled (id : nat) (s : ScheduledStatus)
| CancelScheduled (id : nat) (user : string).

(** The body of [GET /v1/convai/conversations/<id>], with the two naming
    conventions the handler reads. *)
Record ConversationDetails : Type := mkDetails {
  call_duration_secs : option Z;
  callDurationSecs : option Z;
  start_time_unix_secs : option Z;
  startTimeUnixSecs : option Z;
  end_time_unix_secs : option Z;
  endTimeUnixSecs : option Z;
  status : option string;
  conversation_status : option string
}.

Record ConversationReply : Type := mkConversationReply {
  http_status : nat;
  details : ConversationDetails
}.

(** [Response.ok]. *)
Definition http_ok (code : nat) : bool :=
  andb (Nat.leb 200 code) (Nat.leb code 299).

(** The outbound-dial request: the promise is rejected or the body does
    not parse ([DialThrew], with [err.message]), the provider answers with
    a non-2xx status ([DialRejected], with the status and the body), or it
    accepts. *)
Inductive DialReply : Type :=
| DialThrew (message : option string)
| DialRejected (code : nat) (text : string)
| DialAccepted (conversation_id : option string) (callSid : option string).

End Remote.

(* ================================================================== *)
(** * app/api/calls/route.ts *)
(* ================================================================== *)

Module Calls.
Import Store Remote.

Record Env : Type := mkEnv {
  now : Z;
  serves : Request -> bool;
  conversation : string -> ConversationReply;
  dial : DialReply
}.

(** 12 minutes: anything older gets force-unblocked. *)
Definition STALE_MS : Z := 12 * 60 * 1000.

(** [c.started_at || c.created_at], parsed. *)
Definition startedAtOf (c : CallRow) : option Z :=
  match call_started_at c with
  | Some t => Some t
  | None => call_created_at c
  end.

(** [startedAt ? now - startedAt > STALE_MS : true]. *)
Definition isStale (nowMs : Z) (startedAt : option Z) : bool :=
  if Js.truthyZ startedAt
  then match startedAt with
       | Some t => STALE_MS <? nowMs - t
       | None => true
       end
  else true.

Definition failedPatch (nowMs : Z) (reason : string) : CallPatch :=
  mkCallPatch (Some failed) None (Some (Some nowMs)) None
              (Some (Some reason)) None None.

Definition endedKeywords : list string :=
  ["completed"; "ended"; "done"; "finished"].

Definition isSome (A : Type) (o : option A) : bool :=
  match o with Some _ => true | None => false end.

(** [new Date(ms).toISOString()] as the store keeps it, the instant that
    the string stands for; [None] when it throws. *)
Definition toISOString (ms : Z) : option Z :=
  match Js.toISOString ms with Some _ => Some ms | None => None end.

(** What one turn of the loop of [reconcileStuckCalls] does: it sends a
    patch for the row, leaves the row untouched, or throws. *)
Inductive Turn : Type :=
| Sends (p : CallPatch)
| Leaves
| Throws.

(** The body of the loop of [reconcileStuckCalls] for one fetched row.
    The dates it builds from the numbers of the provider are not checked:
    [toISOString] throws for one that is out of range, and nothing
    catches it. *)
Definition reconcileCall (env : Env) (c : CallRow) : Turn :=
  let convoId := eleven_conversation_id c in
  let startedAt := startedAtOf c in
  let stale := isStale (now env) startedAt in
  if negb (Js.truthy convoId) then
    if stale then Sends (failedPatch (now env) "stale_no_conversation_id")
    else Leaves
  else
    let elRes := conversation env (match convoId with Some s => s | None => EmptyString end) in
    if Nat.eqb (http_status elRes) 404 then
      if stale then Sends (failedPatch (now env) "stale_conversation_not_found")
      else Leaves
    else if negb (http_ok (http_status elRes)) then
      if stale
      then Sends (failedPatch (now env)
                    ("stale_eleven_error_" ++ Js.ofNat (http_status elRes)))
      else Leaves
    else
      let d := details elRes in
      let callDuration := Js.numOr (call_duration_secs d) (callDurationSecs d) in
      let startUnix := Js.numOr (start_time_unix_secs d) (startTimeUnixSecs d) in
      let endUnix := Js.numOr (end_time_unix_secs d) (endTimeUnixSecs d) in
      let statusText :=
        Js.toLowerCase
          (match Js.orS (status d) (conversation_status d) with
           | Some s => s
           | None => EmptyString
           end) in
      let looksEnded :=
        orb (orb (andb (isSome callDuration)
                       (orb (isSome startUnix) (isSome startedAt)))
                 (isSome endUnix))
            (Js.includes endedKeywords statusText) in
      if looksEnded then
        (* [None]: the [toISOString] of the branch throws *)
        let ended : option (option Z) :=
          match endUnix, startUnix, callDuration, startedAt with
          | Some e, _, _, _ => option_map Some (toISOString (e * 1000))
          | None, Some s, Some dur, _ =>
              option_map Some (toISOString ((s + dur) * 1000))
          | None, _, Some dur, Some st =>
              option_map Some (toISOString (st + dur * 1000))
          | None, _, _, _ => Some (if stale then Some (now env) else None)
          end in
        match ended with
        | None => Throws
        | Some endedAtIso =>
            let durationSecs : option Z :=
              match callDuration, startedAt, endedAtIso with
              | Some dur, _, _ => Some (Z.max 0 dur)
              | None, Some st, Some e => Some (Z.max 0 ((e - st) / 1000))
              | None, _, _ => None
              end in
            Sends (mkCallPatch (Some completed) None (Some endedAtIso)
                               (Some durationSecs) (Some None) None None)
        end
      else if stale then Sends (failedPatch (now env) "stale_unknown_state")
      else Leaves.

(** The rows the pass reads:
    [status=in.(queued,dialing,in_progress)&order=created_at.desc&limit=3]. *)
Definition stuckCalls (userId : string) (w : World) : list CallRow :=
  firstn 3 (Js.sortBy createdDesc (activeCallsOf userId w)).

Definition patchStatus (p : CallPatch) : CallStatus :=
  match cp_status p with Some s => s | None => queued end.

(** The store after the turn for [c]; the response of the PATCH is not
    read. *)
Definition reconcileStep (env : Env) (w : World) (c : CallRow) : World :=
  match reconcileCall env c with
  | Sends p =>
      if serves env (PatchCall (call_id c) (patchStatus p))
      then patchCallsById (call_id c) p w
      else w
  | Leaves | Throws => w
  end.

(** The loop over the rows read.  It is not in a [try]: a turn that
    throws ends the loop, the rows after it are not reached, and the
    exception leaves the function ([true]). *)
Fixpoint reconcileLoop (env : Env) (rows : list CallRow) (w : World)
  : World * bool :=
  match rows with
  | [] => (w, false)
  | c :: rest =>
      match reconcileCall env c with
      | Throws => (w, true)
      | _ => reconcileLoop env rest (reconcileStep env w c)
      end
  end.

(** [reconcileStuckCalls]: the store it leaves, and whether it threw. *)
Definition reconcileStuckCalls (env : Env) (userId : string) (w : World)
  : World * bool :=
  if negb (serves env (GetStuckCalls userId)) then (w, false)
  else reconcileLoop env (stuckCalls userId w) w.

Inductive Response : Type :=
| Unauthorized
| PassThrew
| FailedToFetchProfile
| ProfileNotFound
| NotReady
| MissingPhone
| FailedToFetchTimestamp
| NoTimestamp
| FailedToCheckActiveCalls
| ActiveCallExists (activeCall : CallRow)
| FailedToCreateCallRow
| NoCallIdReturned
| OutboundCallFailed (text : string)
| CallStarted (callId : nat) (conversationId callSid : option string)
              (toNumber : string)
| CallInitiationCrashed (message : option string).

(** HTTP status of each response. *)
Definition statusCode (r : Response) : nat :=
  match r with
  | Unauthorized => 401
  | ProfileNotFound | NotReady | MissingPhone | NoTimestamp => 400
  | ActiveCallExists _ => 409
  | CallStarted _ _ _ _ => 200
  | _ => 500
  end%nat.

(** Step 5 of [POST]: dial and record the outcome on the inserted row. *)
Definition dialAndRecord (env : Env) (callId : nat) (toNumber : string)
  (w : World) : World * Response :=
  let patch (p : CallPatch) (w : World) :=
    if serves env (PatchCall callId (patchStatus p))
    then patchCallsById callId p w else w in
  match dial env with
  | DialRejected _ text =>
      (patch (mkCallPatch (Some failed) None None None (Some (Some text))
                          None None) w,
       OutboundCallFailed text)
  | DialAccepted conv sid =>
      let conversationId := Js.orS conv None in
      let callSid := Js.orS sid None in
      (patch (mkCallPatch (Some dialing) (Some (Some (now env))) None None
                          None (Some conversationId) (Some callSid)) w,
       CallStarted callId conversationId callSid toNumber)
  | DialThrew message =>
      (patch (mkCallPatch (Some failed) None None None
                (Some (Some (match Js.orS message None with
                             | Some m => m
                             | None => "unknown_error"
                             end)))
                None None) w,
       CallInitiationCrashed message)
  end.

(** [POST]: start a manual call for the authenticated user.  The pass is
    awaited outside the [try] of the handler: when it throws, the handler
    throws ([PassThrew]) and gives no answer of its own. *)
Definition POST (env : Env) (auth : option string) (w0 : World)
  : World * Response :=
  match auth with
  | None => (w0, Unauthorized)
  | Some userId =>
    if negb (Js.nonempty userId) then (w0, Unauthorized) else
    let '(w, threw) := reconcileStuckCalls env userId w0 in
    if threw then (w, PassThrew) else
    if negb (serves env (GetProfile userId)) then (w, FailedToFetchProfile) else
    match profilesOf userId w with
    | [] => (w, ProfileNotFound)
    | profile :: _ =>
      let agentId := eleven_agent_id profile in
      let toNumber := phone_e164 profile in
      if orb (negb (SetupStatus_eqb (setup_status profile) ready))
             (negb (Js.truthy agentId))
      then (w, NotReady)
      else if negb (Js.truthy toNumber) then (w, MissingPhone)
      else if negb (serves env (GetLatestTimestamp userId))
      then (w, FailedToFetchTimestamp)
      else
      match latestTimestampsOf userId w with
      | [] => (w, NoTimestamp)
      | ts :: _ =>
        if negb (serves env (GetActiveCall userId))
        then (w, FailedToCheckActiveCalls)
        else
        match firstn 1 (activeCallsOf userId w) with
        | active :: _ => (w, ActiveCallExists active)
        | [] =>
          if negb (serves env (InsertCall userId))
          then (w, FailedToCreateCallRow)
          else
            let to := match toNumber with Some n => n | None => EmptyString end in
            let '(w1, callId) :=
              insertCall (now env) userId (ts_id ts) None manual to w in
            if Nat.eqb callId 0 then (w1, NoCallIdReturned)
            else dialAndRecord env callId to w1
        end
      end
    end
  end.

End Calls.

(* ================================================================== *)
(** * app/api/future/route.ts *)
(* ================================================================== *)

Module Future.
Import Store Remote.

Record Env : Type := mkEnv {
  now : Z;
  traceId : string;
  (** [Number(process.env.MAX_CONCURRENT_CALLS || "20")] *)
  MAX_CONCURRENT_CALLS : Z;
  serves : Request -> bool;
  (** the provider's answer to the dial for a scheduled call *)
  dial : nat -> DialReply;
  (** the body of the store's answer when it refuses the insert of a call
      row for the user ([callInsert.text().catch(() => ...)], the empty
      string when it cannot be read) *)
  insertRefusal : string -> string
}.

Definition markScheduled (env : Env) (id : nat) (p : ScheduledPatch)
  (w : World) : World :=
  if serves env (PatchScheduled id
                   (match sp_status p with Some s => s | None => pending end))
  then patchScheduledWhere (fun r => Nat.eqb (sc_id r) id) p w
  else w.

Definition patchCall (env : Env) (id : nat) (p : CallPatch) (w : World)
  : World :=
  if serves env (PatchCall id (Calls.patchStatus p))
  then patchCallsById id p w
  else w.

(** [limit=200] rows at most are counted; a failed read counts as 0. *)
Definition countActiveCalls (env : Env) (w : World) : Z :=
  if serves env CountActiveCalls
  then Z.of_nat
         (List.length (firstn 200 (filter (fun c => isActive (call_status c))
                                     (calls w))))
  else 0.

Definition isDue (nowMs : Z) (r : ScheduledRow) : bool :=
  andb (ScheduledStatus_eqb (sc_status r) pending)
       (sc_scheduled_for r <=? nowMs).

Definition scheduledAsc (a b : ScheduledRow) : bool :=
  sc_scheduled_for a <=? sc_scheduled_for b.

(** [status=eq.pending&scheduled_for=lte.<now>&order=scheduled_for.asc&limit=<limit>]. *)
Definition dueScheduled (nowMs : Z) (limit : Z) (w : World)
  : list ScheduledRow :=
  firstn (Z.to_nat limit)
         (Js.sortBy scheduledAsc (filter (isDue nowMs) (scheduled w))).

(** Modelled from the spec: the remote procedure [claim_due_scheduled_calls]
    runs in the store and is missing from the sources.  The spec describes
    it as one atomic conditional update of due [pending] rows to
    [executing] that returns the updated rows; [p_limit] bounds how many
    rows it takes. *)
Definition rpcClaimDue (nowMs : Z) (p_limit : Z) (w : World)
  : World * list ScheduledRow :=
  let due := dueScheduled nowMs p_limit w in
  let sel := fun r : ScheduledRow =>
    andb (existsb (fun d => Nat.eqb (sc_id d) (sc_id r)) due)
         (isDue nowMs r) in
  let p := mkScheduledPatch (Some executing) None None None None None in
  (patchScheduledWhere sel p w, patchedScheduled sel p w).

(** The guard of the fallback's PATCH: [id=eq.<id>&status=eq.pending]. *)
Definition claimGuard (id : nat) (r : ScheduledRow) : bool :=
  andb (Nat.eqb (sc_id r) id) (ScheduledStatus_eqb (sc_status r) pending).

Definition claimPatch (nowMs : Z) (row : ScheduledRow) : ScheduledPatch :=
  mkScheduledPatch (Some executing) (Some (Some nowMs))
    (Some (Some (match sc_attempt_count row with
                 | Some n => n
                 | None => 0
                 end + 1)))
    None None None.

(** One turn of the fallback's loop: the guarded PATCH for [row] and what
    it appends to [claimed]. *)
Definition claimRow (env : Env) (st : World * list ScheduledRow)
  (row : ScheduledRow) : World * list ScheduledRow :=
  let '(w, claimed) := st in
  if negb (serves env (ClaimScheduled (sc_id row))) then (w, claimed)
  else
    let updated := patchedScheduled (claimGuard (sc_id row))
                     (claimPatch (now env) row) w in
    (patchScheduledWhere (claimGuard (sc_id row)) (claimPatch (now env) row) w,
     match updated with
     | u :: _ => (claimed ++ [u])%list
     | [] => claimed
     end).

(** [claimDueScheduled]; [None] when it throws (the read of the due rows
    failed). *)
Definition claimDueScheduled (env : Env) (limit : Z) (w : World)
  : option (World * list ScheduledRow) :=
  if serves env RpcClaimDue then Some (rpcClaimDue (now env) limit w)
  else if negb (serves env GetDueScheduled) then None
  else Some (fold_left (claimRow env) (dueScheduled (now env) limit w) (w, [])).

Inductive Response : Type :=
| Busy (trace : string)
| ClaimFailed (trace : string)
| Swept (processed : nat) (claimed : nat) (trace : string).

(** The [catch] of the per-job [try]: mark the schedule failed and, when
    the call row exists, fail it too. *)
Definition failJob (env : Env) (scheduledCallId : nat) (callId : option nat)
  (message : string) (w : World) : World :=
  let reason := Js.slice0 900 message in
  let w1 := markScheduled env scheduledCallId
              (mkScheduledPatch (Some sc_failed) None None None
                 (Some (Some ("[" ++ traceId env ++ "] " ++ reason))) None) w in
  match callId with
  | Some id =>
      patchCall env id
        (mkCallPatch (Some failed) None (Some (Some (now env))) None
                     (Some (Some reason)) None None) w1
  | None => w1
  end.

(** The body of the loop over the claimed jobs. *)
Definition processJob (env : Env) (st : World * nat) (job : ScheduledRow)
  : World * nat :=
  let '(w, processed) := st in
  let scheduledCallId := sc_id job in
  let clerkUserId := sc_user job in
  let prof :=
    if serves env (GetProfile clerkUserId)
    then hd_error (profilesOf clerkUserId w) else None in
  match prof with
  | None => (failJob env scheduledCallId None "profile_not_found" w, processed)
  | Some prof =>
    if negb (SetupStatus_eqb (setup_status prof) ready)
    then (failJob env scheduledCallId None "profile_not_ready" w, processed)
    else if negb (Js.truthy (eleven_agent_id prof))
    then (failJob env scheduledCallId None "missing_agent_id" w, processed)
    else if negb (Js.truthy (phone_e164 prof))
    then (failJob env scheduledCallId None "missing_phone" w, processed)
    else if negb (serves env (InsertCall clerkUserId))
    then (failJob env scheduledCallId None
            ("call_row_insert_failed: " ++ insertRefusal env clerkUserId) w,
          processed)
    else
      let to := match phone_e164 prof with Some n => n | None => EmptyString end in
      let '(w1, callId) :=
        insertCall (now env) clerkUserId (sc_timestamp_id job)
                   (Some scheduledCallId) scheduled_origin to w in
      if Nat.eqb callId 0
      then (failJob env scheduledCallId None "no_call_id_returned" w1,
            processed)
      else
        match dial env scheduledCallId with
        | DialThrew message =>
            (failJob env scheduledCallId (Some callId)
               (match Js.orS message None with
                | Some m => m
                | None => "unknown_error"
                end) w1,
             processed)
        | DialRejected code text =>
            (failJob env scheduledCallId (Some callId)
               ("eleven_failed_" ++ Js.ofNat code ++ ": " ++ text) w1,
             processed)
        | DialAccepted conv sid =>
            let w2 := patchCall env callId
                        (mkCallPatch (Some dialing) (Some (Some (now env)))
                                     None None None (Some conv) (Some sid)) w1 in
            let w3 := markScheduled env scheduledCallId
                        (mkScheduledPatch (Some executed) None None
                                          (Some (Some (now env)))
                                          (Some None) None) w2 in
            (w3, S processed)
        end
  end.

(** [Math.max(1, Math.min(Number(body?.limit || 5), 25))]. *)
Definition requestedLimit (bodyLimit : option Z) : Z :=
  Z.max 1 (Z.min (if Js.truthyZ bodyLimit
                  then match bodyLimit with Some n => n | None => 5 end
                  else 5) 25).

(** [POST]: the sweep over the due scheduled calls. *)
Definition POST (env : Env) (bodyLimit : option Z) (w : World)
  : World * Response :=
  let active := countActiveCalls env w in
  let available := Z.max 0 (MAX_CONCURRENT_CALLS env - active) in
  let limit := Z.min (requestedLimit bodyLimit) available in
  if limit <=? 0 then (w, Busy (traceId env))
  else
    match claimDueScheduled env limit w with
    | None => (w, ClaimFailed (traceId env))
    | Some (w1, jobs) =>
        let '(w2, processed) := fold_left (processJob env) jobs (w1, 0%nat) in
        (w2, Swept processed (List.length jobs) (traceId env))
    end.

(** ** Concurrent claim attempts

    Several invocations of [claimDueScheduled] run against one store.  The
    store executes one request at a time; an invocation is suspended at
    each request ([await]), so an execution is an interleaving of the
    requests of the invocations. *)

Inductive Phase : Type :=
| BeforeRpc
| BeforeSelect
| Claiming (due : list ScheduledRow) (claimed : list ScheduledRow)
| Returned (jobs : list ScheduledRow)
| Threw.

Record Attempt : Type := mkAttempt {
  a_env : Env;
  a_limit : Z;
  a_phase : Phase
}.

Definition setPhase (a : Attempt) (p : Phase) : Attempt :=
  mkAttempt (a_env a) (a_limit a) p.

(** The next request of an attempt, executed by the store. *)
Definition stepAttempt (w : World) (a : Attempt) : World * Attempt :=
  let env := a_env a in
  match a_phase a with
  | BeforeRpc =>
      if serves env RpcClaimDue
      then let '(w1, jobs) := rpcClaimDue (now env) (a_limit a) w in
           (w1, setPhase a (Returned jobs))
      else (w, setPhase a BeforeSelect)
  | BeforeSelect =>
      if negb (serves env GetDueScheduled) then (w, setPhase a Threw)
      else match dueScheduled (now env) (a_limit a) w with
           | [] => (w, setPhase a (Returned []))
           | due => (w, setPhase a (Claiming due []))
           end
  | Claiming [] claimed => (w, setPhase a (Returned claimed))
  | Claiming (row :: rest) claimed =>
      let '(w1, claimed1) := claimRow env (w, claimed) row in
      (w1, setPhase a (match rest with
                       | [] => Returned claimed1
                       | _ => Claiming rest claimed1
                       end))
  | Returned _ | Threw => (w, a)
  end.

Definition Config : Type := (World * list Attempt)%type.

Fixpoint stepNth (i : nat) (w : World) (l : list Attempt)
  : World * list Attempt :=
  match l, i with
  | [], _ => (w, [])
  | a :: rest, O => let '(w1, a1) := stepAttempt w a in (w1, a1 :: rest)
  | a :: rest, S j => let '(w1, rest1) := stepNth j w rest in (w1, a :: rest1)
  end.

(** One step of the interleaving: the store serves the next request of
    attempt [i]. *)
Definition stepConfig (c : Config) (i : nat) : Config :=
  stepNth i (fst c) (snd c).

(** A schedule names, step after step, the attempt whose request is
    served. *)
Definition exec (schedule : list nat) (c : Config) : Config :=
  fold_left stepConfig schedule c.

Definition finished (a : Attempt) : bool :=
  match a_phase a with Returned _ | Threw => true | _ => false end.

Definition jobsOf (a : Attempt) : list ScheduledRow :=
  match a_phase a with
  | Returned jobs => jobs
  | Claiming _ claimed => claimed
  | _ => []
  end.

(** The attempt has claimed the row with this id. *)
Definition hasClaimed (id : nat) (a : Attempt) : bool :=
  existsb (fun r => Nat.eqb (sc_id r) id) (jobsOf a).

Definition claimers (id : nat) (l : list Attempt) : nat :=
  List.length (filter (hasClaimed id) l).

Definition statusOf (id : nat) (w : World) : list ScheduledStatus :=
  map sc_status (filter (fun r => Nat.eqb (sc_id r) id) (scheduled w)).

(** How often the row [id] goes from another status to [executing] along
    the execution. *)
Fixpoint executingTransitions (id : nat) (schedule : list nat) (c : Config)
  : nat :=
  match schedule with
  | [] => 0%nat
  | i :: rest =>
      let c1 := stepConfig c i in
      ((if andb (negb (existsb (ScheduledStatus_eqb executing)
                               (statusOf id (fst c))))
                (existsb (ScheduledStatus_eqb executing)
                         (statusOf id (fst c1)))
        then 1 else 0)
       + executingTransitions id rest c1)%nat
  end.

End Future.

(* ================================================================== *)
(** * The scheduled-calls route: DELETE *)
(* ================================================================== *)

Module Schedule.
Import Store Remote.

Record Env : Type := mkEnv {
  now : Z;
  serves : Request -> bool
}.

Inductive Response : Type :=
| NotAuthenticated
| CallIdRequired
| FailedToCancel
| Success.

(** [DELETE]: cancel a scheduled call.  The PATCH is filtered by
    [id=eq.<id>&clerk_user_id=eq.<user>] only. *)
Definition DELETE (env : Env) (auth : option string) (idParam : option nat)
  (w : World) : World * Response :=
  match auth with
  | None => (w, NotAuthenticated)
  | Some userId =>
    if negb (Js.nonempty userId) then (w, NotAuthenticated) else
    match idParam with
    | None => (w, CallIdRequired)
    | Some callId =>
        if negb (serves env (CancelScheduled callId userId))
        then (w, FailedToCancel)
        else
          (patchScheduledWhere
             (fun r => andb (Nat.eqb (sc_id r) callId)
                            (String.eqb (sc_user r) userId))
             (mkScheduledPatch (Some canceled) None None None None
                               (Some (Some (now env)))) w,
           Success)
    end
  end.

End Schedule.

(* ================================================================== *)
(** * app/api/onboarding/process/route.ts *)
(* ================================================================== *)

Module Process.
Import Store Remote.

Definition newline : string := String (ascii_of_nat 10) EmptyString.

(** [list.filter(Boolean).join(sep)], the empty string when nothing is left *)
Definition joinTruthy (sep : string) (l : list string) : string :=
  Js.join sep (filter Js.nonempty l).

Definition orEmpty (v : option string) : string :=
  match Js.orS v None with Some s => s | None => EmptyString end.

(** The lines of the prompt that do not depend on the snapshot. *)
Definition framing : list string :=
  [ "You are the user, speaking across time.";
    EmptyString;
    "time_mode is: {{time_mode}}";
    "Rules:";
    "- If time_mode = " ++ Js.dq ++ "past" ++ Js.dq ++ ": you are the user at this snapshot calling your future self (the user now). Speak as if YOU are earlier in time.";
    "- If time_mode = " ++ Js.dq ++ "future" ++ Js.dq ++ ": you are the user’s future self calling the user at this snapshot (their past self). Speak as if YOU are later in time.";
    EmptyString;
    "Stay natural and personal. No “AI assistant” voice. Never mention prompts, systems, or that you are an AI.";
    "Ask 1–2 real questions and give 1–3 small, realistic next steps.";
    EmptyString;
    "Snapshot (ground truth—do not invent facts beyond this):" ].

Definition snapshotLine (title snapshotDate : option string) : string :=
  "You are the user's "
  ++ (if Js.truthy title
      then Js.dq ++ orEmpty title ++ Js.dq
      else "self")
  ++ " at "
  ++ (match snapshotDate with Some d => d | None => "this date" end)
  ++ ".".

Definition labelled (label value : string) : string :=
  if Js.nonempty value then label ++ value else EmptyString.

(** The array of [buildSystemPrompt] before [.filter(Boolean).join]. *)
Definition promptLines (title snapshotDate : option string)
  (reflection : option ExtractedReflection) : list string :=
  let goalsText :=
    match reflection with Some r => joinTruthy "; " (goals r) | None => EmptyString end in
  let fearsText :=
    match reflection with Some r => joinTruthy "; " (fears r) | None => EmptyString end in
  let situationText :=
    match reflection with Some r => situation r | None => EmptyString end in
  let currentWorkText :=
    match reflection with Some r => orEmpty (currentWork r) | None => EmptyString end in
  let otherNotesText :=
    match reflection with Some r => orEmpty (otherNotes r) | None => EmptyString end in
  (framing ++
   [ snapshotLine title snapshotDate;
     labelled "Goals: " goalsText;
     labelled "Fears: " fearsText;
     labelled "Situation: " situationText;
     labelled "Current work/school: " currentWorkText;
     labelled "Other notes: " otherNotesText ])%list.

Definition buildSystemPrompt (title snapshotDate : option string)
  (reflection : option ExtractedReflection) : string :=
  Js.join newline (filter Js.nonempty (promptLines title snapshotDate reflection)).

(** ** The environment of one invocation *)

Inductive VoiceReply : Type :=
| VoiceRejected (text : string)
| VoiceAdded (voice_id : option string).

Inductive AgentReply : Type :=
| AgentRejected (text : string)
| AgentCreated (agent_id : option string) (agentId : option string).

Record Env : Type := mkEnv {
  serves : Request -> bool;
  (** [signedRes.ok] and [audioRes.ok] *)
  signedUrlOk : bool;
  downloadOk : bool;
  (** what [transcribeWithElevenLabs] returns; [None] when it throws *)
  transcribeWithElevenLabs : option string;
  (** what [extractReflectionWithOpenAI] returns; [None] when it throws *)
  extractReflectionWithOpenAI : string -> option ExtractedReflection;
  voiceAdd : VoiceReply;
  agentCreate : AgentReply
}.

Inductive Provider : Type :=
| StorageSignUrl
| StorageDownload
| SpeechToText
| ReflectionExtract
| VoiceClone
| AgentCreate (systemPrompt : string).

(** What a run sends out, in order. *)
Inductive Effect : Type :=
| Asked (r : Request)
| Called (p : Provider).

Record State : Type := mkState {
  world : World;
  trace : list Effect
}.

Definition emit (e : Effect) (st : State) : State :=
  mkState (world st) (trace st ++ [e])%list.

Definition onWorld (f : World -> World) (st : State) : State :=
  mkState (f (world st)) (trace st).

(** [extraFields] of [updateProfileStatus]: the two keys the handler
    passes. *)
Record ExtraFields : Type := mkExtra {
  x_eleven_voice_id : option string;
  x_eleven_agent_id : option string
}.

Definition noExtra : ExtraFields := mkExtra None None.

Definition patchProfile (userId : string) (s : SetupStatus)
  (extra : ExtraFields) (w : World) : World :=
  with_profiles w
    (map (fun p =>
            if String.eqb (clerk_user_id p) userId
            then mkProfile (clerk_user_id p) (phone_e164 p) s
                   (match x_eleven_voice_id extra with
                    | Some v => Some v
                    | None => eleven_voice_id p
                    end)
                   (match x_eleven_agent_id extra with
                    | Some a => Some a
                    | None => eleven_agent_id p
                    end)
            else p)
         (profiles w)).

(** [updateProfileStatus]: the PATCH is awaited and its response is
    dropped. *)
Definition updateProfileStatus (env : Env) (userId : string)
  (s : SetupStatus) (extra : ExtraFields) (st : State) : State :=
  let st1 := emit (Asked (PatchProfileStatus userId s)) st in
  if serves env (PatchProfileStatus userId s)
  then onWorld (patchProfile userId s extra) st1
  else st1.

Record Body : Type := mkBody {
  voiceSamplePath : string;
  timestampId : option nat;
  agentName : option string
}.

Inductive Response : Type :=
| Unauthorized
| MissingVoiceSamplePath
| FailedToFetchProfile
| ProfileNotFound
| AlreadyReady (voiceId agentId : option string)
| SignedUrlFailed
| DownloadFailed
| VoiceCreateFailed (text : string)
| NoVoiceId
| AgentCreateFailed (text : string)
| NoAgentId
| Completed (voiceId agentId : string) (transcriptPreview : option string)
            (extracted : option ExtractedReflection).

Definition patchTimestampReflection (id : nat) (userId : string)
  (r : ExtractedReflection) (transcript : string) (w : World) : World :=
  with_timestamps w
    (map (fun t =>
            if andb (Nat.eqb (ts_id t) id) (String.eqb (ts_user t) userId)
            then mkTimestamp (ts_id t) (ts_user t) (ts_title t)
                   (ts_snapshot_date t) (ts_created_at t)
                   (Some (r, transcript))
            else t)
         (timestamps w)).

(** Step 3, the [try] block: transcript, extraction and the optional
    write of the reflection.  Returns the transcript, the reflection the
    prompt is built from, and the state. *)
Definition transcribeAndExtract (env : Env) (userId : string) (body : Body)
  (st : State) : string * option ExtractedReflection * State :=
  let st1 := emit (Called SpeechToText) st in
  match transcribeWithElevenLabs env with
  | None => (EmptyString, None, st1)
  | Some transcript =>
      let st2 := emit (Called ReflectionExtract) st1 in
      match extractReflectionWithOpenAI env transcript with
      | None => (transcript, None, st2)
      | Some extracted =>
          match timestampId body with
          | Some tid =>
              let st3 := emit (Asked (PatchTimestampReflection tid userId)) st2 in
              (transcript, Some extracted,
               if serves env (PatchTimestampReflection tid userId)
               then onWorld (patchTimestampReflection tid userId extracted
                               transcript) st3
               else st3)
          | None => (transcript, Some extracted, st2)
          end
      end
  end.

(** Steps 4 and 5: clone the voice, create the agent, mark [ready]. *)
Definition cloneAndCreate (env : Env) (userId : string)
  (systemPrompt transcript : string) (extracted : option ExtractedReflection)
  (st : State) : State * Response :=
  let st1 := updateProfileStatus env userId voice_created noExtra st in
  let st2 := emit (Called VoiceClone) st1 in
  match voiceAdd env with
  | VoiceRejected text =>
      (updateProfileStatus env userId error noExtra st2, VoiceCreateFailed text)
  | VoiceAdded voice_id =>
      if negb (Js.truthy voice_id)
      then (updateProfileStatus env userId error noExtra st2, NoVoiceId)
      else
        let voiceId := match voice_id with Some v => v | None => EmptyString end in
        let st3 := updateProfileStatus env userId agent_created
                     (mkExtra (Some voiceId) None) st2 in
        let st4 := emit (Called (AgentCreate systemPrompt)) st3 in
        match agentCreate env with
        | AgentRejected text =>
            (updateProfileStatus env userId error noExtra st4,
             AgentCreateFailed text)
        | AgentCreated agent_id agentId' =>
            let chosen := Js.orS agent_id agentId' in
            if negb (Js.truthy chosen)
            then (updateProfileStatus env userId error noExtra st4, NoAgentId)
            else
              let agentId := match chosen with Some a => a | None => EmptyString end in
              (updateProfileStatus env userId ready
                 (mkExtra None (Some agentId)) st4,
               Completed voiceId agentId
                 (if Js.nonempty transcript
                  then Some (Js.slice0 180 transcript) else None)
                 extracted)
        end
  end.

(** The optional read of the timestamp's title and date ([tsMeta]). *)
Definition loadTimestampMeta (env : Env) (userId : string) (body : Body)
  (w : World) (st : State) : option Timestamp * State :=
  match timestampId body with
  | Some tid =>
      let st1 := emit (Asked (GetTimestampMeta tid userId)) st in
      if serves env (GetTimestampMeta tid userId)
      then (hd_error
              (filter (fun t => andb (Nat.eqb (ts_id t) tid)
                                     (String.eqb (ts_user t) userId))
                      (timestamps w)),
            st1)
      else (None, st1)
  | None => (None, st)
  end.

(** [tsMeta?.title] and [tsMeta?.snapshot_date]. *)
Definition metaTitle (m : option Timestamp) : option string :=
  match m with Some t => ts_title t | None => None end.
Definition metaDate (m : option Timestamp) : option string :=
  match m with Some t => ts_snapshot_date t | None => None end.

(** [POST]: the onboarding pipeline for the authenticated user. *)
Definition POST (env : Env) (auth : option string) (body : option Body)
  (w : World) : State * Response :=
  let st0 := mkState w [] in
  match auth with
  | None => (st0, Unauthorized)
  | Some userId =>
    if negb (Js.nonempty userId) then (st0, Unauthorized) else
    match body with
    | None => (st0, MissingVoiceSamplePath)
    | Some body =>
      if negb (Js.nonempty (voiceSamplePath body))
      then (st0, MissingVoiceSamplePath)
      else
      let st1 := emit (Asked (GetProfile userId)) st0 in
      if negb (serves env (GetProfile userId)) then (st1, FailedToFetchProfile)
      else
      match profilesOf userId w with
      | [] => (st1, ProfileNotFound)
      | profile :: _ =>
        if andb (SetupStatus_eqb (setup_status profile) ready)
                (andb (Js.truthy (eleven_agent_id profile))
                      (Js.truthy (eleven_voice_id profile)))
        then (st1, AlreadyReady (eleven_voice_id profile)
                                (eleven_agent_id profile))
        else
        let '(tsMeta, st2) := loadTimestampMeta env userId body w st1 in
        let st3 := updateProfileStatus env userId voice_uploaded noExtra st2 in
        let st4 := emit (Called StorageSignUrl) st3 in
        if negb (signedUrlOk env)
        then (updateProfileStatus env userId error noExtra st4, SignedUrlFailed)
        else
        let st5 := emit (Called StorageDownload) st4 in
        if negb (downloadOk env)
        then (updateProfileStatus env userId error noExtra st5, DownloadFailed)
        else
        let '(transcript, extracted, st6) :=
          transcribeAndExtract env userId body st5 in
        let systemPrompt :=
          buildSystemPrompt (metaTitle tsMeta) (metaDate tsMeta) extracted in
        cloneAndCreate env userId systemPrompt transcript extracted st6
      end
    end
  end.

(** The statuses a run asked the store to write, in order. *)
Definition statusWrites (tr : list Effect) : list SetupStatus :=
  flat_map (fun e => match e with
                     | Asked (PatchProfileStatus _ s) => [s]
                     | _ => []
                     end) tr.

Definition providerCalls (tr : list Effect) : list Provider :=
  flat_map (fun e => match e with Called p => [p] | _ => [] end) tr.

End Process.

(* ================================================================== *)
(** * The operations of the core *)
(* ================================================================== *)

Module Core.
Import Store.

(** One invocation of a handler, with the environment it runs in. *)
Inductive Operation : Type :=
| ProcessOnboarding (env : Process.Env) (auth : option string)
                    (body : option Process.Body)
| StartCall (env : Calls.Env) (auth : option string)
| RunDueCalls (env : Future.Env) (bodyLimit : option Z)
| CancelScheduledCall (env : Schedule.Env) (auth : option string)
                      (idParam : option nat).

(** The store after the invocation. *)
Definition apply (w : World) (op : Operation) : World :=
  match op with
  | ProcessOnboarding env auth body =>
      Process.world (fst (Process.POST env auth body w))
  | StartCall env auth => fst (Calls.POST env auth w)
  | RunDueCalls env bodyLimit => fst (Future.POST env bodyLimit w)
  | CancelScheduledCall env auth idParam =>
      fst (Schedule.DELETE env auth idParam w)
  end.

(** Invocations that run one after the other. *)
Definition run (ops : list Operation) (w : World) : World :=
  fold_left apply ops w.

End Core.

(* ================================================================== *)
(** * Properties of the store and sample data *)
(* ================================================================== *)

Module Props.
Import Store Remote.

(** [ready] implies that both ids are set. *)
Definition readyHasIds (p : Profile) : bool :=
  implb (SetupStatus_eqb (setup_status p) ready)
        (andb (Js.truthy (eleven_voice_id p)) (Js.truthy (eleven_agent_id p))).


(** The order of the call states; the two terminal states are not
    ordered with respect to each other. *)
Definition callRank (s : CallStatus) : nat :=
  match s with
  | queued => 0
  | dialing => 1
  | in_progress => 2
  | completed | failed => 3
  end%nat.

Definition scheduledRank (s : ScheduledStatus) : nat :=
  match s with
  | pending => 0
  | executing => 1
  | executed | sc_failed | canceled => 2
  end%nat.

Definition setupRank (s : SetupStatus) : nat :=
  match s with
  | st_new => 0
  | voice_uploaded => 1
  | voice_created => 2
  | agent_created => 3
  | ready => 4
  | error => 5
  end%nat.

(** A sequence of setup statuses that only moves forward along
    [voice_uploaded < voice_created < agent_created < ready], with [error]
    allowed as its last element. *)
Fixpoint forwardThenError (prev : nat) (l : list SetupStatus) : bool :=
  match l with
  | [] => true
  | error :: rest => match rest with [] => true | _ => false end
  | s :: rest => andb (Nat.ltb prev (setupRank s))
                      (forwardThenError (setupRank s) rest)
  end.

(** Row by row, the second table is the first one with every status at
    the same or a later rank, possibly followed by new rows. *)
Definition callKeeps (a b : CallRow) : Prop :=
  call_id a = call_id b /\ call_user a = call_user b /\
  (callRank (call_status a) <= callRank (call_status b))%nat.

Definition scheduledKeeps (a b : ScheduledRow) : Prop :=
  sc_id a = sc_id b /\ sc_user a = sc_user b /\
  (scheduledRank (sc_status a) <= scheduledRank (sc_status b))%nat.

Definition callsAdvance (l l' : list CallRow) : Prop :=
  exists l1 l2, l' = (l1 ++ l2)%list /\
    Forall2 callKeeps l l1.

Definition scheduledAdvance (l l' : list ScheduledRow) : Prop :=
  Forall2 scheduledKeeps l l'.

(** No call and no scheduled call has moved backward between two stores. *)
Definition worldAdvance (w w' : World) : Prop :=
  callsAdvance (calls w) (calls w')
  /\ scheduledAdvance (scheduled w) (scheduled w').

(** A patch of the reconciliation pass ends the call. *)
Definition endsCall (p : CallPatch) : bool :=
  match cp_status p with
  | Some completed | Some failed => true
  | _ => false
  end.

Definition readyInvariant (w : World) : Prop :=
  Forall (fun p => readyHasIds p = true) (profiles w).

(** Every profile row of the user carries a voice id. *)
Definition voiceSet (u : string) (w : World) : Prop :=
  Forall (fun p => String.eqb (clerk_user_id p) u = true ->
                   Js.truthy (eleven_voice_id p) = true) (profiles w).

(** What one turn of the reconciliation loop, for the fetched row [c],
    does to a stored row [r]. *)
Definition reconcileRow (env : Calls.Env) (r c : CallRow) : CallRow :=
  match Calls.reconcileCall env c with
  | Calls.Sends p =>
      if andb (Calls.serves env (PatchCall (call_id c) (Calls.patchStatus p)))
              (Nat.eqb (call_id r) (call_id c))
      then applyCallPatch p r
      else r
  | Calls.Leaves | Calls.Throws => r
  end.

(** The turn for [c] throws. *)
Definition raises (env : Calls.Env) (c : CallRow) : bool :=
  match Calls.reconcileCall env c with
  | Calls.Throws => true
  | _ => false
  end.

(** The rows the loop gets through: the rows read that stand before the
    first one whose turn throws. *)
Fixpoint reached (env : Calls.Env) (rows : list CallRow) : list CallRow :=
  match rows with
  | [] => []
  | c :: rest => if raises env c then [] else c :: reached env rest
  end.

(** [read] are the [n] newest rows of [l], all of [l] when it has fewer:
    with the rows left out they make up [l], and each row read stands
    before each row left out in the order [created_at.desc]. *)
Definition newestOf (n : nat) (l read : list CallRow) : Prop :=
  List.length read = Nat.min n (List.length l)
  /\ exists rest,
       Permutation (read ++ rest) l
       /\ forall c d, In c read -> In d rest -> createdDesc c d = true.

(** The effect of the whole pass on a stored row, when ids are unique:
    the turn of the fetched row with the same id, or nothing. *)
Definition rowAfterPass (env : Calls.Env) (fetched : list CallRow)
  (r : CallRow) : CallRow :=
  match find (fun c => Nat.eqb (call_id c) (call_id r)) fetched with
  | Some c => reconcileRow env r c
  | None => r
  end.

Definition uniqueCallIds (w : World) : Prop := NoDup (map call_id (calls w)).

Definition uniqueScheduledIds (w : World) : Prop :=
  NoDup (map sc_id (scheduled w)).

(** ** Concurrent claim attempts on one row *)

(** The rows an attempt with clock [nowMs] sees as due. *)
Definition dueCount (nowMs : Z) (w : World) : nat :=
  List.length (filter (Future.isDue nowMs) (scheduled w)).

(** The store answers the attempt's read of the due rows and its guarded
    PATCHes; the remote procedure may or may not be there. *)
Definition servedClaims (a : Future.Attempt) : Prop :=
  Future.serves (Future.a_env a) GetDueScheduled = true
  /\ forall id, Future.serves (Future.a_env a) (ClaimScheduled id) = true.

(** The attempt's limit takes in every row that is due for it. *)
Definition covers (a : Future.Attempt) (w : World) : Prop :=
  Z.of_nat (dueCount (Future.now (Future.a_env a)) w) <= Future.a_limit a.

(** The attempt has still to send a request that can claim row [x]. *)
Definition awaits (x : nat) (a : Future.Attempt) : bool :=
  match Future.a_phase a with
  | Future.BeforeRpc | Future.BeforeSelect => true
  | Future.Claiming due _ => existsb (fun d => Nat.eqb (sc_id d) x) due
  | Future.Returned _ | Future.Threw => false
  end.

(** An invocation of [claimDueScheduled] that has not sent a request yet,
    for which the row scheduled at [sf] is due. *)
Definition freshAttempt (sf : Z) (w : World) (a : Future.Attempt) : Prop :=
  Future.a_phase a = Future.BeforeRpc
  /\ sf <= Future.now (Future.a_env a)
  /\ servedClaims a
  /\ covers a w.

(** The row [x] is in the store under this id.  It is [pending] and
    claimed by no attempt, or [executing] and claimed by one attempt. *)
Definition claimSafe (x : nat) (sf : Z) (c : Future.Config) : Prop :=
  uniqueScheduledIds (fst c)
  /\ exists rx,
       In rx (scheduled (fst c)) /\ sc_id rx = x /\ sc_scheduled_for rx = sf
       /\ ((sc_status rx = pending /\ Future.claimers x (snd c) = 0%nat)
           \/ (sc_status rx = executing /\ Future.claimers x (snd c) = 1%nat)).

Definition isExecuting (x : nat) (w : World) : bool :=
  existsb (ScheduledStatus_eqb executing) (Future.statusOf x w).

(** While the row is not [executing], every attempt still awaits it. *)
Definition claimLive (x : nat) (c : Future.Config) : Prop :=
  isExecuting x (fst c) = false ->
  Forall (fun a => awaits x a = true) (snd c).

Definition attemptsReady (sf : Z) (c : Future.Config) : Prop :=
  Forall (fun a => sf <= Future.now (Future.a_env a)
                   /\ servedClaims a /\ covers a (fst c)) (snd c).

(** What one request of attempt [a] does, seen from the stored row [rx]:
    ids, environments and limits stay, no row becomes due, the row is
    untouched or goes from [pending] to [executing] in the hands of [a],
    and an attempt that awaited the row awaits it as long as it is
    pending. *)
Definition stepFacts (w : World) (a : Future.Attempt) (rx : ScheduledRow)
  (w1 : World) (a1 : Future.Attempt) : Prop :=
  map sc_id (scheduled w1) = map sc_id (scheduled w)
  /\ Future.a_env a1 = Future.a_env a /\ Future.a_limit a1 = Future.a_limit a
  /\ (forall nowMs, (dueCount nowMs w1 <= dueCount nowMs w)%nat)
  /\ exists rx1,
       In rx1 (scheduled w1) /\ sc_id rx1 = sc_id rx
       /\ sc_scheduled_for rx1 = sc_scheduled_for rx
       /\ ((rx1 = rx
            /\ Future.hasClaimed (sc_id rx) a1 = Future.hasClaimed (sc_id rx) a)
           \/ (sc_status rx = pending /\ sc_status rx1 = executing
               /\ Future.hasClaimed (sc_id rx) a1 = true))
       /\ (sc_status rx = pending -> awaits (sc_id rx) a = true ->
           sc_scheduled_for rx <= Future.now (Future.a_env a) ->
           servedClaims a -> covers a w ->
           sc_status rx1 = pending -> awaits (sc_id rx) a1 = true).

End Props.

Module Sample.
Import Store Remote.

Definition alice : string := "user_alice".

Definition allServed : Request -> bool := fun _ => true.

Definition profileOf (s : SetupStatus) (voice agent : option string) : Profile :=
  mkProfile alice (Some "+15550100") s voice agent.

Definition aliceReady : Profile := profileOf ready (Some "voice_1") (Some "agent_1").

Definition aliceTimestamp : Timestamp :=
  mkTimestamp 1 alice (Some "My past self") (Some "2025-12-01") 1000 None.

Definition callAt (id : nat) (s : CallStatus) (created : option Z)
  (started : option Z) (conv : option string) : CallRow :=
  mkCall id alice 1 None manual s "+15550100" created started None None None
         conv None.

Definition scheduledAt (id : nat) (s : ScheduledStatus) (when : Z)
  : ScheduledRow :=
  mkScheduled id alice 1 when s (Some 0) None None None None.

Definition worldOf (p : Profile) (cs : list CallRow) (ss : list ScheduledRow)
  : World :=
  mkWorld [p] [aliceTimestamp] cs ss.

Definition noDetails : ConversationDetails :=
  mkDetails None None None None None None None None.

(** An instant and the clock twenty minutes after it. *)
Definition t0 : Z := 1000000.
Definition twentyMinutesLater : Z := t0 + 20 * 60 * 1000.

Definition callsEnv (nowMs : Z) : Calls.Env :=
  Calls.mkEnv nowMs allServed (fun _ => mkConversationReply 200 noDetails)
              (DialAccepted (Some "conv_9") (Some "CA9")).

Definition futureEnv (nowMs : Z) (rpc : bool) : Future.Env :=
  Future.mkEnv nowMs "trace-1" 20
    (fun r => match r with RpcClaimDue => rpc | _ => true end)
    (fun _ => DialAccepted (Some "conv_7") (Some "CA7"))
    (fun _ => "duplicate key").

Definition scheduleEnv : Schedule.Env := Schedule.mkEnv 5000 allServed.

Definition someReflection : ExtractedReflection :=
  mkReflection ["ship the thesis"] ["running out of time"] "final year"
               (Some "lab work") None.

Definition processEnv (served : Request -> bool)
  (stt : option string) (ext : string -> option ExtractedReflection)
  : Process.Env :=
  Process.mkEnv served true true stt ext
    (Process.VoiceAdded (Some "voice_new"))
    (Process.AgentCreated (Some "agent_new") None).

Definition body1 : Process.Body := Process.mkBody "alice/sample.webm" (Some 1%nat) None.

(** One call that started at [t0] and never got a conversation id. *)
Definition stuckCall : CallRow := callAt 1 dialing (Some t0) (Some t0) None.

Definition oneStuck : World := worldOf aliceReady [stuckCall] [].

(** Four queued calls of one user, none with a conversation id. *)
Definition fourStuck : World :=
  worldOf aliceReady
    [ callAt 1 queued (Some (t0 - 3000)) None None;
      callAt 2 queued (Some (t0 - 2000)) None None;
      callAt 3 queued (Some (t0 - 1000)) None None;
      callAt 4 queued (Some t0) None None ] [].

(** A call row without [started_at] and [created_at]. *)
Definition undatedCall : CallRow := callAt 1 queued None None (Some "conv_1").

Definition oneUndated : World := worldOf aliceReady [undatedCall] [].


(** The provider reports a conversation that ended at a second count that
    is no time value of a [Date] once it is in milliseconds. *)
Definition farEndDetails : ConversationDetails :=
  mkDetails None None None None (Some 9000000000000000) None None None.

Definition farEndEnv (nowMs : Z) : Calls.Env :=
  Calls.mkEnv nowMs allServed (fun _ => mkConversationReply 200 farEndDetails)
              (DialAccepted (Some "conv_9") (Some "CA9")).

(** Two invocations of the sweep's claim, the first without the remote
    procedure (it takes the fallback), over one due row. *)
Definition dueRow : ScheduledRow := scheduledAt 1 pending 3000.

Definition claimWorld : World := worldOf aliceReady [] [dueRow].

Definition twoAttempts : list Future.Attempt :=
  [ Future.mkAttempt (futureEnv 5000 false) 5 Future.BeforeRpc;
    Future.mkAttempt (futureEnv 5001 false) 5 Future.BeforeRpc ].

(** Both read the due rows before either sends its guarded PATCH. *)
Definition racingSchedule : list nat := [0; 1; 0; 1; 1; 0]%nat.

(** Two due rows, and two invocations that take the fallback with a limit
    of one row each. *)
Definition laterRow : ScheduledRow := scheduledAt 2 pending 4000.

Definition twoDue : World := worldOf aliceReady [] [dueRow; laterRow].

Definition narrowAttempts : list Future.Attempt :=
  [ Future.mkAttempt (futureEnv 5000 false) 1 Future.BeforeRpc;
    Future.mkAttempt (futureEnv 5001 false) 1 Future.BeforeRpc ].

End Sample.

(* ================================================================== *)
(** * The scheduled-calls route: POST and GET *)
(* ================================================================== *)

Module Scheduling.
Import Store.

(** The store requests of the two handlers. *)
Inductive Query : Type :=
| LatestTimestamp (user : string)
| InsertScheduledCall (user : string)
| ListScheduledCalls (user : string).

Record Env : Type := mkEnv {
  now : Z;
  (** [SUPABASE_URL] and [SUPABASE_SECRET_KEY] are set *)
  configured : bool;
  serves : Query -> bool;
  (** the instant that the store's [scheduled_for] column reads in a JSON
      value; [None] when the store refuses the value, and the insert with
      it *)
  timestamptz : string -> option Z
}.

(** The value of [scheduledFor], which may be any JSON value; a missing
    field is the value [undefined], which is not truthy. *)
Record Value : Type := mkValue {
  (** the value as JSON text, as the handler passes it on to the store *)
  raw : string;
  (** [!value] is false *)
  truthy : bool;
  (** [new Date(value).getTime()]; [None] for an Invalid Date *)
  date : option Z
}.

(** The body of the request. *)
Record Body : Type := mkBody {
  scheduledFor : Value
}.

(** [scheduledDate <= new Date()]: false for an Invalid Date. *)
Definition notAfter (scheduledDate : option Z) (nowMs : Z) : bool :=
  match scheduledDate with
  | Some d => d <=? nowMs
  | None => false
  end.

Inductive Response : Type :=
| NotAuthenticated
| MissingSupabaseConfig
| ScheduledForRequired
| MustBeInTheFuture
| FailedToFetchTimestamp
| NoTimestampFound
| FailedToScheduleCall
| Scheduled (id : nat) (scheduled_for : Z) (status : ScheduledStatus)
| Exception.

Definition freshScheduledId (w : World) : nat :=
  S (list_max (map sc_id (scheduled w))).

(** [POST /scheduled_calls]: the store appends the row with a fresh id;
    the columns the request does not set are left null. *)
Definition insertScheduled (user : string) (timestampId : nat) (when : Z)
  (w : World) : World * ScheduledRow :=
  let row := mkScheduled (freshScheduledId w) user timestampId when pending
                         None None None None None in
  (with_scheduled w (scheduled w ++ [row]), row).

(** [POST]: schedule a call; [body] is [None] when the request has no
    JSON body. *)
Definition POST (env : Env) (auth : option string) (body : option Body)
  (w : World) : World * Response :=
  match auth with
  | None => (w, NotAuthenticated)
  | Some userId =>
    if negb (Js.nonempty userId) then (w, NotAuthenticated)
    else if negb (configured env) then (w, MissingSupabaseConfig)
    else
    match body with
    | None => (w, Exception)
    | Some body =>
      if negb (truthy (scheduledFor body)) then (w, ScheduledForRequired)
      else if notAfter (date (scheduledFor body)) (now env)
      then (w, MustBeInTheFuture)
      else if negb (serves env (LatestTimestamp userId))
      then (w, FailedToFetchTimestamp)
      else
      match latestTimestampsOf userId w with
      | [] => (w, NoTimestampFound)
      | ts :: _ =>
        if negb (serves env (InsertScheduledCall userId))
        then (w, FailedToScheduleCall)
        else
          match timestamptz env (raw (scheduledFor body)) with
          | None => (w, FailedToScheduleCall)
          | Some when =>
              let '(w1, row) := insertScheduled userId (ts_id ts) when w in
              (w1, Scheduled (sc_id row) (sc_scheduled_for row) (sc_status row))
          end
      end
    end
  end.

Inductive Listing : Type :=
| ListNotAuthenticated
| ListMissingSupabaseConfig
| FailedToFetchScheduledCalls
| Listed (scheduledCalls : list ScheduledRow).

(** [GET]: the user's scheduled calls, [order=scheduled_for.asc]. *)
Definition GET (env : Env) (auth : option string) (w : World) : Listing :=
  match auth with
  | None => ListNotAuthenticated
  | Some userId =>
    if negb (Js.nonempty userId) then ListNotAuthenticated
    else if negb (configured env) then ListMissingSupabaseConfig
    else if negb (serves env (ListScheduledCalls userId))
    then FailedToFetchScheduledCalls
    else Listed (Js.sortBy Future.scheduledAsc
                   (filter (fun r => String.eqb (sc_user r) userId)
                           (scheduled w)))
  end.

End Scheduling.

(* ================================================================== *)
(** * The dashboard page: the list of upcoming calls *)
(* ================================================================== *)

Module Dashboard.
Import Store.

(** The filter of [fetchScheduledCalls]. *)
Definition isUpcoming (c : ScheduledRow) : bool :=
  orb (ScheduledStatus_eqb (sc_status c) pending)
      (ScheduledStatus_eqb (sc_status c) executing).

(** [fetchScheduledCalls]: the state [scheduledCalls] after the fetch; it
    is set only when the route answers with success. *)
Definition fetchScheduledCalls (shown : list ScheduledRow)
  (data : Scheduling.Listing) : list ScheduledRow :=
  match data with
  | Scheduling.Listed scheduledCalls => filter isUpcoming scheduledCalls
  | _ => shown
  end.

(** [JSON.stringify({ scheduledFor })] for the date string [iso] of the
    instant [t]: a string that is not empty, in which [new Date] reads [t]. *)
Definition requestBody (iso : string) (t : Z) : Scheduling.Body :=
  Scheduling.mkBody (Scheduling.mkValue (Js.dq ++ iso ++ Js.dq) true (Some t)).

(** [scheduleCall]: the POST and, when it succeeds, the fetch of the
    list.  [when] is the instant of the date and time selected, [None]
    when one of them is missing or they do not make a date; no request is
    sent then, nor when [toISOString] throws.  Returns the store and the
    list shown. *)
Definition scheduleCall (envPost envList : Scheduling.Env)
  (auth : option string) (when : option Z) (shown : list ScheduledRow)
  (w : World) : World * list ScheduledRow :=
  match when with
  | None => (w, shown)
  | Some t =>
    match Js.toISOString t with
    | None => (w, shown)
    | Some scheduledFor =>
      let '(w1, data) :=
        Scheduling.POST envPost auth (Some (requestBody scheduledFor t)) w in
      match data with
      | Scheduling.Scheduled _ _ _ =>
          (w1, fetchScheduledCalls shown (Scheduling.GET envList auth w1))
      | _ => (w1, shown)
      end
    end
  end.

(** [cancelScheduledCall]: the DELETE and, when it succeeds, the fetch of
    the list.  Returns the store and the list shown. *)
Definition cancelScheduledCall (envDelete : Schedule.Env)
  (envList : Scheduling.Env) (auth : option string) (callId : nat)
  (shown : list ScheduledRow) (w : World) : World * list ScheduledRow :=
  let '(w1, data) := Schedule.DELETE envDelete auth (Some callId) w in
  match data with
  | Schedule.Success =>
      (w1, fetchScheduledCalls shown (Scheduling.GET envList auth w1))
  | _ => (w1, shown)
  end.

End Dashboard.

(* ================================================================== *)
(** * app/api/history/route.ts *)
(* ================================================================== *)

Module History.
Import Store.

(** What the handler reads of a conversation body. *)
Record ConversationJson : Type := mkConversation {
  agent_id : option string;
  conversation_id : string
}.

(** The result of [elevenGet]; [json] is [None] when the body is empty or
    does not parse. *)
Record ElevenReply (J : Type) : Type := mkReply {
  ok : bool;
  status : nat;
  text : string;
  json : option J
}.

Record ListQuery : Type := mkListQuery {
  q_agent_id : string;
  q_page_size : Js.Number;
  q_cursor : option string
}.

Record Env : Type := mkEnv {
  (** [requireEnv]: the three variables are set *)
  configured : bool;
  servesProfile : bool;
  conversationDetails : string -> ElevenReply ConversationJson;
  (** the list endpoint; its body is passed through unread *)
  conversationList : ListQuery -> ElevenReply string
}.

(** The search parameters; [p_limit] is what [Number] makes of the text of
    the parameter [limit], [None] when the parameter is absent or empty. *)
Record Params : Type := mkParams {
  p_conversation_id : option string;
  p_id : option string;
  p_limit : option Js.Number;
  p_cursor : option string
}.

Inductive Response : Type :=
| Threw
| Unauthorized
| FailedToFetchProfile
| NoAgentFound
| FailedToFetchDetails (status : nat) (details : string)
| Forbidden
| Conversation (conversation : option ConversationJson)
| FailedToList (status : nat) (details : string)
| Conversations (query : ListQuery) (body : option string).

(** [Math.min(Number(limit || "20"), 100)]. *)
Definition pageSize (limit : option Js.Number) : Js.Number :=
  Js.mathMin (match limit with Some n => n | None => Js.ofZ 20 end)
             (Js.ofZ 100).

(** [GET]: one conversation of the user's agent, or the list of them. *)
Definition GET (env : Env) (auth : option string) (params : Params)
  (w : World) : Response :=
  if negb (configured env) then Threw else
  match auth with
  | None => Unauthorized
  | Some userId =>
    if negb (Js.nonempty userId) then Unauthorized
    else if negb (servesProfile env) then FailedToFetchProfile
    else
    let agentId :=
      match profilesOf userId w with
      | p :: _ => eleven_agent_id p
      | [] => None
      end in
    if negb (Js.truthy agentId) then NoAgentFound
    else
    let agent := match agentId with Some a => a | None => EmptyString end in
    let conversationId := Js.orS (p_conversation_id params) (p_id params) in
    if Js.truthy conversationId then
      let r := conversationDetails env
                 (match conversationId with Some c => c | None => EmptyString end) in
      if negb (ok r) then FailedToFetchDetails (status r) (text r)
      else
        let convAgentId :=
          match json r with Some j => agent_id j | None => None end in
        if andb (Js.truthy convAgentId)
                (negb (String.eqb
                         (match convAgentId with Some a => a | None => EmptyString end)
                         agent))
        then Forbidden
        else Conversation (json r)
    else
      let query := mkListQuery agent (pageSize (p_limit params))
                     (if Js.truthy (p_cursor params) then p_cursor params
                      else None) in
      let r := conversationList env query in
      if negb (ok r) then FailedToList (status r) (text r)
      else Conversations query (json r)
  end.

End History.

(* ================================================================== *)
(** * The transcripts route *)
(* ================================================================== *)

Module Transcripts.
Import Store.

(** A row of [call_transcripts]; the table is not one of the tables of
    the orchestration core and is passed to the handler. *)
Record TranscriptRow : Type := mkTranscript {
  tr_id : nat;
  tr_call_id : nat;
  tr_created_at : Z
}.

Inductive Query : Type :=
| CompletedCalls (user : string)
| TranscriptsOfCalls (ids : list nat).

Record Env : Type := mkEnv {
  configured : bool;
  serves : Query -> bool
}.

Inductive Response : Type :=
| NotAuthenticated
| MissingSupabaseConfig
| FailedToFetchCalls
| FailedToFetchTranscripts
| Found (transcripts : list (TranscriptRow * option CallRow)).

(** [clerk_user_id=eq.<user>&status=eq.completed&order=created_at.desc]. *)
Definition completedCallsOf (userId : string) (w : World) : list CallRow :=
  Js.sortBy createdDesc
    (filter (fun c => andb (String.eqb (call_user c) userId)
                           (CallStatus_eqb (call_status c) completed))
            (calls w)).

Definition transcriptDesc (a b : TranscriptRow) : bool :=
  tr_created_at b <=? tr_created_at a.

(** [GET]: the transcripts of the user's completed calls, each with its
    call. *)
Definition GET (env : Env) (auth : option string) (w : World)
  (call_transcripts : list TranscriptRow) : Response :=
  match auth with
  | None => NotAuthenticated
  | Some userId =>
    if negb (Js.nonempty userId) then NotAuthenticated
    else if negb (configured env) then MissingSupabaseConfig
    else if negb (serves env (CompletedCalls userId)) then FailedToFetchCalls
    else
    match completedCallsOf userId w with
    | [] => Found []
    | completedCalls =>
      let callIds := map call_id completedCalls in
      if negb (serves env (TranscriptsOfCalls callIds))
      then FailedToFetchTranscripts
      else
        let transcriptsRaw :=
          Js.sortBy transcriptDesc
            (filter (fun t => existsb (Nat.eqb (tr_call_id t)) callIds)
                    call_transcripts) in
        Found (map (fun t =>
                      (t, find (fun c => Nat.eqb (call_id c) (tr_call_id t))
                               completedCalls))
                   transcriptsRaw)
    end
  end.

End Transcripts.

(* ================================================================== *)
(** * The upload-url route and the path the onboarding form sends on *)
(* ================================================================== *)

Module Upload.

(** [s.startsWith(p)], with the rest of [s]. *)
Fixpoint dropPrefix (p s : string) : option string :=
  match p, s with
  | EmptyString, _ => Some s
  | String a p', String b s' => if Ascii.eqb a b then dropPrefix p' s' else None
  | String _ _, EmptyString => None
  end.

(** [s.replace(pattern, replacement)] for a string pattern: the first
    occurrence is replaced. *)
Fixpoint replaceFirst (pattern replacement s : string) : string :=
  match dropPrefix pattern s with
  | Some rest => replacement ++ rest
  | None =>
      match s with
      | EmptyString => EmptyString
      | String c s' => String c (replaceFirst pattern replacement s')
      end
  end.

Record Env : Type := mkEnv {
  (** [Date.now()] *)
  now : nat;
  (** [SUPABASE_URL], [None] when it or the key is not set *)
  supabaseUrl : option string;
  (** the answer of the storage service to the POST of a path: the
      relative signed URL, [None] for a non-2xx status *)
  signedUploadUrl : string -> option string
}.

Inductive Response : Type :=
| NotAuthenticated
| MissingSupabaseConfig
| FailedToCreateUploadUrl
| UploadUrl (uploadUrl storagePath : string).

(** [`${userId}/${timestamp}.webm`]. *)
Definition objectPath (userId : string) (timestamp : nat) : string :=
  userId ++ "/" ++ Js.ofNat timestamp ++ ".webm".

(** [POST]: a signed URL to upload the recording to. *)
Definition POST (env : Env) (auth : option string) : Response :=
  match auth with
  | None => NotAuthenticated
  | Some userId =>
    if negb (Js.nonempty userId) then NotAuthenticated
    else
    match supabaseUrl env with
    | None => MissingSupabaseConfig
    | Some url =>
      let storagePath := objectPath userId (now env) in
      match signedUploadUrl env
              ("/storage/v1/object/upload/sign/voice-samples/" ++ storagePath) with
      | None => FailedToCreateUploadUrl
      | Some rel =>
          UploadUrl (url ++ "/storage/v1" ++ rel)
                    ("voice-samples/" ++ storagePath)
      end
    end
  end.

(** The onboarding form: [uploadUrlData.storagePath.replace('voice-samples/', '')],
    the [voiceSamplePath] it sends to the process route. *)
Definition voiceSamplePathOf (storagePath : string) : string :=
  replaceFirst "voice-samples/" EmptyString storagePath.

(** The object the process route asks a signed download URL for:
    [/object/sign/${VOICE_BUCKET}/${body.voiceSamplePath}]. *)
Definition signedObject (VOICE_BUCKET voiceSamplePath : string) : string :=
  "/object/sign/" ++ VOICE_BUCKET ++ "/" ++ voiceSamplePath.

End Upload.

(* ================================================================== *)
(** * getOutputText of the onboarding route *)
(* ================================================================== *)

Module OpenAI.

Record ContentPart : Type := mkPart {
  part_type : option string;
  part_text : option string
}.

Record OutputItem : Type := mkItem {
  item_type : option string;
  item_content : option (list ContentPart)
}.

(** [OpenAIResponse]; a field is [None] when it is absent (or, for
    [output_text], not a string). *)
Record OpenAIResponse : Type := mkResponse {
  output_text : option string;
  output : option (list OutputItem)
}.

Definition hasType (t : string) (v : option string) : bool :=
  match v with Some s => String.eqb s t | None => false end.

Definition isMessage (o : OutputItem) : bool := hasType "message" (item_type o).

Definition isOutputText (c : ContentPart) : bool :=
  hasType "output_text" (part_type c).

Definition getOutputText (respJson : OpenAIResponse) : option string :=
  match output_text respJson with
  | Some t => Some t
  | None =>
      match output respJson with
      | None => None
      | Some items =>
          match find isMessage items with
          | None => None
          | Some msg =>
              match item_content msg with
              | None => None
              | Some parts =>
                  match find isOutputText parts with
                  | None => None
                  | Some part => part_text part
                  end
              end
          end
      end
  end.

End OpenAI.

(* ================================================================== *)
(** * The bootstrap route *)
(* ================================================================== *)

Module Bootstrap.
Import Store.

Inductive Query : Type :=
| ReadProfile (user : string)
| CreateProfile (user : string)
| SyncPhone (user : string).

Record Env : Type := mkEnv {
  configured : bool;
  (** [user?.primaryPhoneNumber?.phoneNumber ?? null] *)
  phoneE164 : option string;
  serves : Query -> bool;
  (** the columns of a new row that the request does not set, as the
      store fills them *)
  default_setup_status : SetupStatus;
  default_voice_id : option string;
  default_agent_id : option string
}.

Inductive Redirect : Set := ToDashboard | ToOnboarding.

Inductive Response : Type :=
| NotAuthenticated
| MissingSupabaseConfig
| SupabaseError
| CreateError
| Bootstrapped (profile : Profile) (redirect : Redirect).

(** [(isReady && hasAgent) ? '/dashboard' : '/onboarding']. *)
Definition redirectOf (profile : Profile) : Redirect :=
  if andb (SetupStatus_eqb (setup_status profile) ready)
          (Js.truthy (eleven_agent_id profile))
  then ToDashboard else ToOnboarding.

(** [a === b] on [string | null] values. *)
Definition sameString (a b : option string) : bool :=
  match a, b with
  | Some x, Some y => String.eqb x y
  | None, None => true
  | _, _ => false
  end.

(** [PATCH /profiles?clerk_user_id=eq.<user>] with the phone. *)
Definition syncPhone (userId : string) (phone : option string) (w : World)
  : World :=
  with_profiles w
    (map (fun p =>
            if String.eqb (clerk_user_id p) userId
            then mkProfile (clerk_user_id p) phone (setup_status p)
                           (eleven_voice_id p) (eleven_agent_id p)
            else p)
         (profiles w)).

(** [GET]: the profile of the authenticated user, created when there is
    none, and the page to go to.  The profile of the answer is the row as
    it was read. *)
Definition GET (env : Env) (auth : option string) (w : World)
  : World * Response :=
  match auth with
  | None => (w, NotAuthenticated)
  | Some userId =>
    if negb (Js.nonempty userId) then (w, NotAuthenticated)
    else if negb (configured env) then (w, MissingSupabaseConfig)
    else if negb (serves env (ReadProfile userId)) then (w, SupabaseError)
    else
    match profilesOf userId w with
    | [] =>
        if negb (serves env (CreateProfile userId)) then (w, CreateError)
        else
          let created :=
            mkProfile userId (phoneE164 env) (default_setup_status env)
                      (default_voice_id env) (default_agent_id env) in
          (with_profiles w (profiles w ++ [created]),
           Bootstrapped created (redirectOf created))
    | profile :: _ =>
        let w1 :=
          if negb (sameString (phone_e164 profile) (phoneE164 env))
          then if serves env (SyncPhone userId)
               then syncPhone userId (phoneE164 env) w
               else w
          else w in
        (w1, Bootstrapped profile (redirectOf profile))
    end
  end.

End Bootstrap.

(* ================================================================== *)
(** * Further properties of rows, runs and prompts *)
(* ================================================================== *)

Module Frames.
Import Store.

(** The scheduled call has been dialled or given up. *)
Definition settled (r : ScheduledRow) : Prop :=
  sc_status r = executed \/ sc_status r = sc_failed.

(** The row [r'] stands for [r], and is [r] itself when the id is none
    of [ids]. *)
Definition keepsOutside (ids : list nat) (r r' : ScheduledRow) : Prop :=
  sc_id r' = sc_id r /\ (~ In (sc_id r) ids -> r' = r).

(** The store applies the write of an onboarding run that carries the
    voice id; the other operations write no profile. *)
Definition voiceWriteServed (op : Core.Operation) : Prop :=
  match op with
  | Core.ProcessOnboarding env (Some u) _ =>
      Process.serves env (Remote.PatchProfileStatus u agent_created) = true
  | _ => True
  end.

(** One more line of the prompt, when there is something to say. *)
Definition promptSection (label value : string) : string :=
  if Js.nonempty value then Process.newline ++ label ++ value else EmptyString.

End Frames.

(* ================================================================== *)
(** * More sample data *)
(* ================================================================== *)

Module Cases.
Import Store Remote.

(** A ready user without calls and scheduled calls. *)
Definition idle : World := Sample.worldOf Sample.aliceReady [] [].

(** The provider refuses the dial. *)
Definition rejectingEnv : Calls.Env :=
  Calls.mkEnv Sample.t0 Sample.allServed
    (fun _ => mkConversationReply 200 Sample.noDetails)
    (DialRejected 500 "busy").

(** A call that started a minute before the clock, and a provider that
    reports its conversation as done after 42 seconds. *)
Definition recentCall : CallRow :=
  Sample.callAt 1 dialing (Some Sample.t0) (Some Sample.t0) (Some "conv_1").

Definition aMinuteLater : Z := Sample.t0 + 60 * 1000.

Definition endedDetails : ConversationDetails :=
  mkDetails (Some 42) None None None None None (Some "done") None.

Definition endedEnv : Calls.Env :=
  Calls.mkEnv aMinuteLater Sample.allServed
    (fun _ => mkConversationReply 200 endedDetails)
    (DialAccepted (Some "conv_9") (Some "CA9")).

Definition completedPatch : CallPatch :=
  mkCallPatch (Some completed) None (Some (Some (Sample.t0 + 42 * 1000)))
              (Some (Some 42)) (Some None) None None.

(** One due row, one canceled row and one row for later. *)
Definition sweepWorld : World :=
  Sample.worldOf Sample.aliceReady []
    [ Sample.scheduledAt 1 pending 3000;
      Sample.scheduledAt 2 canceled 2000;
      Sample.scheduledAt 3 pending 9000 ].

(** The due row of [Sample.claimWorld] once the fallback has claimed it
    at the clock 5000. *)
Definition claimedRow : ScheduledRow :=
  mkScheduled 1 Sample.alice 1 3000 executing (Some 1) (Some 5000)
              None None None.

(** A store that reads the instant 9000 in its ISO string, the instant
    2000 in the word yesterday, and refuses every other value. *)
Definition timestamptz (value : string) : option Z :=
  if String.eqb value (Js.dq ++ "1970-01-01T00:00:09.000Z" ++ Js.dq)
  then Some 9000
  else if String.eqb value (Js.dq ++ "yesterday" ++ Js.dq) then Some 2000
  else None.

Definition schedulingEnv : Scheduling.Env :=
  Scheduling.mkEnv 5000 true (fun _ => true) timestamptz.

(** A request for the word yesterday, in which [new Date] reads no date. *)
Definition yesterday : Scheduling.Body :=
  Scheduling.mkBody
    (Scheduling.mkValue (Js.dq ++ "yesterday" ++ Js.dq) true None).

Definition mixedSchedule : World :=
  Sample.worldOf Sample.aliceReady []
    [ Sample.scheduledAt 1 pending 9000;
      Sample.scheduledAt 2 executing 3000;
      Sample.scheduledAt 3 canceled 4000 ].

(** An onboarding in which every step succeeds, for a new profile. *)
Definition onboardingEnv : Process.Env :=
  Sample.processEnv Sample.allServed (Some "hello")
    (fun _ => Some Sample.someReflection).

Definition newcomer : World :=
  Sample.worldOf (Sample.profileOf st_new None None) [] [Sample.dueRow].

(** Onboarding, a manual call, a sweep and a cancellation. *)
Definition dayOfOperations : list Core.Operation :=
  [ Core.ProcessOnboarding onboardingEnv (Some Sample.alice)
                           (Some Sample.body1);
    Core.StartCall (Sample.callsEnv Sample.t0) (Some Sample.alice);
    Core.RunDueCalls (Sample.futureEnv 5000 false) None;
    Core.CancelScheduledCall Sample.scheduleEnv (Some Sample.alice)
                             (Some 1%nat) ].

(** A completed call with its transcript, and a transcript of a call
    that is not in the table. *)
Definition completedCall : CallRow :=
  Sample.callAt 1 completed (Some Sample.t0) (Some Sample.t0) (Some "conv_1").

Definition afterCall : World :=
  Sample.worldOf Sample.aliceReady [completedCall] [].

Definition transcriptsEnv : Transcripts.Env :=
  Transcripts.mkEnv true (fun _ => true).

Definition transcriptTable : list Transcripts.TranscriptRow :=
  [ Transcripts.mkTranscript 1 1 2000000;
    Transcripts.mkTranscript 2 7 2000001 ].

Definition uploadEnv : Upload.Env :=
  Upload.mkEnv 1700 (Some "https://project.supabase.co")
    (fun _ =>
       Some "/object/upload/sign/voice-samples/user_alice/1700.webm?token=t").

(** A user whose phone has changed with the identity provider. *)
Definition bootstrapEnv : Bootstrap.Env :=
  Bootstrap.mkEnv true (Some "+15550199") (fun _ => true) st_new None None.

(** A message without a text part, followed by one that has a text. *)
Definition silentMessage : list OpenAI.OutputItem :=
  [ OpenAI.mkItem (Some "message") None ].

Definition laterMessage : list OpenAI.OutputItem :=
  [ OpenAI.mkItem (Some "message")
      (Some [OpenAI.mkPart (Some "output_text") (Some "hi")]) ].

End Cases.

(* ================================================================== *)
(** * Proofs *)
(* ================================================================== *)

Unset Implicit Arguments.

(* ------------------------------------------------------------------ *)
(** ** Lists *)
(* ------------------------------------------------------------------ *)

Section ListFacts.
Context {A : Type}.

Lemma insertSorted_perm (le : A -> A -> bool) x l :
  Permutation (Js.insertSorted le x l) (x :: l).
Proof.
  induction l as [|y r IH]; cbn; [reflexivity|].
  destruct (le x y); [reflexivity|].
  rewrite IH. apply perm_swap.
Qed.

Lemma sortBy_perm (le : A -> A -> bool) l : Permutation (Js.sortBy le l) l.
Proof.
  induction l as [|x r IH]; cbn; [reflexivity|].
  rewrite insertSorted_perm. now constructor.
Qed.

Lemma In_firstn (n : nat) (l : list A) x : In x (firstn n l) -> In x l.
Proof.
  revert l; induction n as [|n IH]; intros [|y r]; cbn; try tauto.
  intros [H|H]; [now left | right; now apply IH].
Qed.

Lemma NoDup_firstn (n : nat) (l : list A) : NoDup l -> NoDup (firstn n l).
Proof.
  revert l; induction n as [|n IH]; intros [|y r] H; cbn; try constructor.
  - inversion H as [|? ? Hn Hr]; subst. intros Hin. apply Hn.
    now apply In_firstn in Hin.
  - inversion H; subst. now apply IH.
Qed.

Lemma NoDup_map_filter (B : Type) (f : A -> B) (p : A -> bool) l :
  NoDup (map f l) -> NoDup (map f (filter p l)).
Proof.
  induction l as [|x r IH]; cbn; intros H; [constructor|].
  inversion H as [|? ? Hn Hr]; subst.
  destruct (p x); cbn; [constructor|]; auto.
  intros Hin. apply Hn. rewrite in_map_iff in *.
  destruct Hin as [y [Hy Hin]]. exists y. split; [exact Hy|].
  now apply filter_In in Hin.
Qed.
End ListFacts.

(* ------------------------------------------------------------------ *)
(** ** Text *)
(* ------------------------------------------------------------------ *)

Section TextFacts.

(** In a text of ASCII characters a code unit is a byte, and the slice is
    the substring of the first bytes. *)
Lemma slice0_ascii (n : nat) (s : string) :
  Forall (fun b => (nat_of_ascii b < 128)%nat) (list_ascii_of_string s) ->
  Js.slice0 n s = substring 0 n s.
Proof.
  unfold Js.slice0. revert n.
  induction s as [|b r IH]; intros n H; [now destruct n|].
  cbn [list_ascii_of_string] in H. inversion H as [|? ? Hb Hr]; subst.
  cbn [Js.sliceUnits]. unfold Js.utf8Length.
  assert (Hlt : Nat.ltb (nat_of_ascii b) 192 = true) by (apply Nat.ltb_lt; lia).
  rewrite Hlt. destruct n as [|n]; cbn [Nat.leb Nat.eqb substring].
  - reflexivity.
  - replace (S n - 1)%nat with n by lia.
    replace (1 - 1)%nat with 0%nat by reflexivity. now rewrite IH.
Qed.

(** The dates of the samples. *)
Lemma toISOString_samples :
  Js.toISOString 0 = Some "1970-01-01T00:00:00.000Z"
  /\ Js.toISOString 1700000000000 = Some "2023-11-14T22:13:20.000Z"
  /\ Js.toISOString (-1) = Some "1969-12-31T23:59:59.999Z"
  /\ Js.toISOString 951782400000 = Some "2000-02-29T00:00:00.000Z"
  /\ Js.toISOString Js.MAX_TIME_MS = Some "+275760-09-13T00:00:00.000Z"
  /\ Js.toISOString (Js.MAX_TIME_MS + 1) = None.
Proof. repeat split; reflexivity. Qed.

End TextFacts.

Section CountingFacts.
Context {A : Type}.

Lemma filter_map_le (p : A -> bool) (f : A -> A) (l : list A) :
  (forall x, In x l -> p (f x) = true -> p x = true) ->
  (List.length (filter p (map f l)) <= List.length (filter p l))%nat.
Proof.
  induction l as [|x r IH]; cbn; intros H; [lia|].
  assert (IH' := IH (fun y Hy => H y (or_intror Hy))).
  destruct (p (f x)) eqn:E.
  - rewrite (H x (or_introl eq_refl) E). cbn. lia.
  - destruct (p x); cbn; lia.
Qed.

Lemma Forall2_map_same (R : A -> A -> Prop) (f : A -> A) (l : list A) :
  (forall x, In x l -> R x (f x)) -> Forall2 R l (map f l).
Proof.
  induction l as [|x r IH]; cbn; intros H; constructor.
  - apply H. now left.
  - apply IH. intros y Hy. apply H. now right.
Qed.

Lemma Forall2_refl_rel (R : A -> A -> Prop) (l : list A) :
  (forall x, R x x) -> Forall2 R l l.
Proof. intros H. induction l; constructor; auto. Qed.

Lemma Forall2_trans_rel (R : A -> A -> Prop) :
  (forall x y z, R x y -> R y z -> R x z) ->
  forall l1 l2 l3, Forall2 R l1 l2 -> Forall2 R l2 l3 -> Forall2 R l1 l3.
Proof.
  intros HR l1 l2 l3 H12. revert l3.
  induction H12 as [|x y l1 l2 Hxy _ IH]; intros l3 H23;
    inversion H23; subst; constructor; eauto.
Qed.
End CountingFacts.

(* ------------------------------------------------------------------ *)
(** ** Onboarding: what a run sends out *)
(* ------------------------------------------------------------------ *)

Section OnboardingProofs.
Import Store Remote Process Props.

Lemma statusWrites_app (a b : list Effect) :
  statusWrites (a ++ b) = (statusWrites a ++ statusWrites b)%list.
Proof. unfold statusWrites. now rewrite flat_map_app. Qed.

Lemma providerCalls_app (a b : list Effect) :
  providerCalls (a ++ b) = (providerCalls a ++ providerCalls b)%list.
Proof. unfold providerCalls. now rewrite flat_map_app. Qed.

Lemma trace_updateProfileStatus env u s x st :
  trace (updateProfileStatus env u s x st)
  = (trace st ++ [Asked (PatchProfileStatus u s)])%list.
Proof.
  unfold updateProfileStatus.
  destruct (serves env (PatchProfileStatus u s)); reflexivity.
Qed.

Lemma profilesOf_patchProfile u s x w p :
  In p (profilesOf u (patchProfile u s x w)) -> setup_status p = s.
Proof.
  unfold profilesOf, patchProfile. simpl.
  rewrite filter_In, in_map_iff.
  intros [[q [Hq _]] Hu]. subst p.
  destruct (String.eqb (clerk_user_id q) u) eqn:E; [reflexivity|].
  congruence.
Qed.

(** C4.  When the user's profile is [ready] with a voice id and an agent
    id, [POST] answers with these two ids and does nothing else: the store
    is unchanged, the only request is the read of the profile, no provider
    (storage, transcription, extraction, voice clone, agent creation) is
    called and no status is written.  A second invocation, in any
    environment that serves the read, answers with the same ids and again
    does nothing. *)
Theorem already_ready_returns_ids_without_work :
  forall (env env2 : Process.Env) (userId : string) (body : Body) (w : World)
         (profile : Profile) (rest : list Profile),
    Js.nonempty userId = true ->
    Js.nonempty (voiceSamplePath body) = true ->
    serves env (GetProfile userId) = true ->
    serves env2 (GetProfile userId) = true ->
    profilesOf userId w = profile :: rest ->
    setup_status profile = ready ->
    Js.truthy (eleven_voice_id profile) = true ->
    Js.truthy (eleven_agent_id profile) = true ->
    let run1 := Process.POST env (Some userId) (Some body) w in
    let run2 := Process.POST env2 (Some userId) (Some body) (world (fst run1)) in
    snd run1 = AlreadyReady (eleven_voice_id profile) (eleven_agent_id profile)
    /\ world (fst run1) = w
    /\ trace (fst run1) = [Asked (GetProfile userId)]
    /\ providerCalls (trace (fst run1)) = []
    /\ statusWrites (trace (fst run1)) = []
    /\ snd run2 = snd run1
    /\ providerCalls (trace (fst run2)) = []
    /\ statusWrites (trace (fst run2)) = []
    /\ world (fst run2) = w.
Proof.
  intros env env2 userId body w profile rest Hu Hb Hs Hs2 Hp Hr Hv Ha.
  assert (H1 : forall e, serves e (GetProfile userId) = true ->
             Process.POST e (Some userId) (Some body) w
             = (mkState w [Asked (GetProfile userId)],
                AlreadyReady (eleven_voice_id profile) (eleven_agent_id profile))).
  { intros e He. unfold Process.POST.
    rewrite Hu, Hb, He, Hp, Hr, Hv, Ha. reflexivity. }
  cbv zeta. rewrite (H1 env Hs). cbn [fst snd world trace].
  rewrite (H1 env2 Hs2). cbn [fst snd world trace].
  repeat split; reflexivity.
Qed.

Lemma already_ready_returns_ids_without_work_witness :
  let run1 := Process.POST (Sample.processEnv Sample.allServed None (fun _ => None))
                (Some Sample.alice) (Some Sample.body1)
                (Sample.worldOf Sample.aliceReady [] []) in
  snd run1 = AlreadyReady (Some "voice_1") (Some "agent_1")
  /\ providerCalls (trace (fst run1)) = [].
Proof.
  pose proof (already_ready_returns_ids_without_work
    (Sample.processEnv Sample.allServed None (fun _ => None))
    (Sample.processEnv Sample.allServed None (fun _ => None))
    Sample.alice Sample.body1 (Sample.worldOf Sample.aliceReady [] [])
    Sample.aliceReady []
    eq_refl eq_refl eq_refl eq_refl eq_refl eq_refl eq_refl eq_refl) as H.
  cbv zeta in H. destruct H as (H1 & _ & _ & H4 & _).
  split; [exact H1 | exact H4].
Defined.
Lemma profilesOf_patched u s x w :
  profilesOf u (patchProfile u s x w)
  = map (fun p => mkProfile (clerk_user_id p) (phone_e164 p) s
                    (match x_eleven_voice_id x with
                     | Some v => Some v
                     | None => eleven_voice_id p
                     end)
                    (match x_eleven_agent_id x with
                     | Some a => Some a
                     | None => eleven_agent_id p
                     end))
        (profilesOf u w).
Proof.
  unfold profilesOf, patchProfile. cbn [profiles with_profiles].
  induction (profiles w) as [|p l IH]; cbn; [reflexivity|].
  destruct (String.eqb (clerk_user_id p) u) eqn:E; cbn; rewrite E; cbn;
    now rewrite IH.
Qed.

Lemma has_profile_update env u s x st :
  profilesOf u (world st) <> [] ->
  profilesOf u (world (updateProfileStatus env u s x st)) <> [].
Proof.
  unfold updateProfileStatus.
  destruct (serves env _); cbn [world onWorld emit]; [|auto].
  rewrite profilesOf_patched. destruct (profilesOf u (world st)); cbn; congruence.
Qed.

End OnboardingProofs.

Section PromptProofs.
Import Store Remote Process Props.

Lemma snapshotLine_nonempty title date :
  Js.nonempty (snapshotLine title date) = true.
Proof. reflexivity. Qed.

Lemma buildSystemPrompt_generic title date :
  buildSystemPrompt title date None
  = Js.join newline (filter Js.nonempty framing ++ [snapshotLine title date]).
Proof.
  unfold buildSystemPrompt, promptLines, labelled.
  rewrite filter_app. cbn [filter Js.nonempty].
  rewrite snapshotLine_nonempty. reflexivity.
Qed.

Lemma generic_prompt_lines title date line :
  In line (filter Js.nonempty (promptLines title date None)) ->
  String.prefix "Goals: " line = false /\ String.prefix "Fears: " line = false.
Proof.
  unfold promptLines, labelled. rewrite filter_app.
  cbn [filter Js.nonempty]. rewrite snapshotLine_nonempty.
  rewrite in_app_iff. intros [H|H].
  - cbn in H. repeat (destruct H as [H|H]; [subst line; split; reflexivity|]).
    contradiction.
  - cbn in H. destruct H as [H|[]]. subst line. split; reflexivity.
Qed.
End PromptProofs.

Section PipelineProofs.
Import Store Remote Process Props.

Lemma trace_emit e st : trace (emit e st) = (trace st ++ [e])%list.
Proof. reflexivity. Qed.

Lemma trace_onWorld f st : trace (onWorld f st) = trace st.
Proof. reflexivity. Qed.

Lemma trace_loadTimestampMeta env u body w st :
  statusWrites (trace (snd (loadTimestampMeta env u body w st)))
  = statusWrites (trace st)
  /\ providerCalls (trace (snd (loadTimestampMeta env u body w st)))
     = providerCalls (trace st).
Proof.
  unfold loadTimestampMeta. destruct (timestampId body); [|split; reflexivity].
  destruct (serves env _); cbn [snd]; rewrite trace_emit,
    statusWrites_app, providerCalls_app; cbn; rewrite !app_nil_r; split; reflexivity.
Qed.

Lemma fst_loadTimestampMeta env u body w st st' :
  fst (loadTimestampMeta env u body w st) = fst (loadTimestampMeta env u body w st').
Proof.
  unfold loadTimestampMeta. destruct (timestampId body); [|reflexivity].
  destruct (serves env _); reflexivity.
Qed.

(** What the [try] block leaves when the transcript or the extraction
    fails: no reflection, and a trace without status writes, voice clone
    or agent creation. *)
Lemma transcribeAndExtract_failure env u body st :
  (transcribeWithElevenLabs env = None \/
   exists t, transcribeWithElevenLabs env = Some t
             /\ extractReflectionWithOpenAI env t = None) ->
  exists transcript st',
    transcribeAndExtract env u body st = (transcript, None, st')
    /\ world st' = world st
    /\ statusWrites (trace st') = statusWrites (trace st)
    /\ (forall e, In e (trace st') ->
          In e (trace st) \/ e = Called SpeechToText \/ e = Called ReflectionExtract).
Proof.
  intros [H | [t [H1 H2]]]; unfold transcribeAndExtract.
  - rewrite H. exists EmptyString, (emit (Called SpeechToText) st).
    repeat split.
    + rewrite trace_emit, statusWrites_app. cbn. now rewrite app_nil_r.
    + intros e. rewrite trace_emit, in_app_iff. cbn. intuition.
  - rewrite H1, H2.
    exists t, (emit (Called ReflectionExtract) (emit (Called SpeechToText) st)).
    repeat split.
    + rewrite !trace_emit, !statusWrites_app. cbn. now rewrite !app_nil_r.
    + intros e. rewrite !trace_emit, !in_app_iff. cbn. intuition.
Qed.

Lemma POST_reaches_clone env userId body w profile rest :
  Js.nonempty userId = true ->
  Js.nonempty (voiceSamplePath body) = true ->
  serves env (GetProfile userId) = true ->
  profilesOf userId w = profile :: rest ->
  andb (SetupStatus_eqb (setup_status profile) ready)
       (andb (Js.truthy (eleven_agent_id profile))
             (Js.truthy (eleven_voice_id profile))) = false ->
  signedUrlOk env = true ->
  downloadOk env = true ->
  exists st5 tsMeta,
    tsMeta = fst (loadTimestampMeta env userId body w (mkState w []))
    /\ statusWrites (trace st5) = [voice_uploaded]
    /\ (forall e, In e (trace st5) ->
          e <> Called VoiceClone /\ forall p, e <> Called (AgentCreate p))
    /\ Process.POST env (Some userId) (Some body) w
       = (let '(transcript, extracted, st6) :=
            transcribeAndExtract env userId body st5 in
          cloneAndCreate env userId
            (buildSystemPrompt (metaTitle tsMeta) (metaDate tsMeta) extracted)
            transcript extracted st6)
    /\ profilesOf userId (world st5) <> [].
Proof.
  intros Hu Hb Hs Hp Hn Hsig Hdl.
  unfold Process.POST. rewrite Hu, Hb, Hs, Hp, Hn, Hsig, Hdl. cbn [negb].
  destruct (loadTimestampMeta env userId body w
              (emit (Asked (GetProfile userId)) (mkState w []))) as [tsMeta st2] eqn:E.
  exists (emit (Called StorageDownload)
            (emit (Called StorageSignUrl)
               (updateProfileStatus env userId voice_uploaded noExtra st2))),
         tsMeta.
  assert (Hst2 : st2 = snd (loadTimestampMeta env userId body w
              (emit (Asked (GetProfile userId)) (mkState w [])))) by now rewrite E.
  repeat split.
  - rewrite (fst_loadTimestampMeta env userId body w (mkState w [])
               (emit (Asked (GetProfile userId)) (mkState w []))), E. reflexivity.
  - rewrite !trace_emit, trace_updateProfileStatus, !statusWrites_app.
    rewrite Hst2.
    rewrite (proj1 (trace_loadTimestampMeta env userId body w _)).
    reflexivity.
  - rewrite !trace_emit, trace_updateProfileStatus, !in_app_iff in H.
    rewrite Hst2 in H. unfold loadTimestampMeta in H.
    destruct (timestampId body); [destruct (serves env (GetTimestampMeta _ _))|];
      cbn in H; intuition; subst; discriminate.
  - intros p.
    rewrite !trace_emit, trace_updateProfileStatus, !in_app_iff in H.
    rewrite Hst2 in H. unfold loadTimestampMeta in H.
    destruct (timestampId body); [destruct (serves env (GetTimestampMeta _ _))|];
      cbn in H; intuition; subst; discriminate.
  - cbn [world emit]. apply has_profile_update. rewrite Hst2.
    unfold loadTimestampMeta.
    destruct (timestampId body); [destruct (serves env (GetTimestampMeta _ _))|];
      cbn [snd world emit]; rewrite Hp; discriminate.
Qed.
End PipelineProofs.

Section CloneProofs.
Import Store Remote Process Props.

(** The three shapes of what [cloneAndCreate] sends out. *)
Lemma cloneAndCreate_trace env u prompt transcript extracted st :
  exists tail,
    trace (fst (cloneAndCreate env u prompt transcript extracted st))
    = (trace st ++ Asked (PatchProfileStatus u voice_created)
                   :: Called VoiceClone :: tail)%list
    /\ (tail = [Asked (PatchProfileStatus u error)]
        \/ tail = [Asked (PatchProfileStatus u agent_created);
                   Called (AgentCreate prompt);
                   Asked (PatchProfileStatus u error)]
        \/ tail = [Asked (PatchProfileStatus u agent_created);
                   Called (AgentCreate prompt);
                   Asked (PatchProfileStatus u ready)]).
Proof.
  unfold cloneAndCreate.
  destruct (voiceAdd env) as [text | vid].
  { eexists; split; [|left; reflexivity]. cbn [fst].
    rewrite !trace_updateProfileStatus, trace_emit, trace_updateProfileStatus.
    now rewrite <- !app_assoc. }
  destruct (Js.truthy vid); cbn [negb].
  2:{ eexists; split; [|left; reflexivity]. cbn [fst].
      rewrite !trace_updateProfileStatus, trace_emit, trace_updateProfileStatus.
      now rewrite <- !app_assoc. }
  destruct (agentCreate env) as [text | a b].
  { eexists; split; [|right; left; reflexivity]. cbn [fst].
    rewrite !trace_updateProfileStatus, !trace_emit, !trace_updateProfileStatus,
      trace_emit, trace_updateProfileStatus.
    now rewrite <- !app_assoc. }
  destruct (Js.truthy (Js.orS a b)); cbn [negb].
  - eexists; split; [|right; right; reflexivity]. cbn [fst].
    rewrite !trace_updateProfileStatus, !trace_emit, !trace_updateProfileStatus,
      trace_emit, trace_updateProfileStatus.
    now rewrite <- !app_assoc.
  - eexists; split; [|right; left; reflexivity]. cbn [fst].
    rewrite !trace_updateProfileStatus, !trace_emit, !trace_updateProfileStatus,
      trace_emit, trace_updateProfileStatus.
    now rewrite <- !app_assoc.
Qed.

Lemma cloneAndCreate_success env u prompt transcript extracted st v a b ag :
  voiceAdd env = VoiceAdded (Some v) ->
  Js.nonempty v = true ->
  agentCreate env = AgentCreated a b ->
  Js.orS a b = Some ag ->
  Js.nonempty ag = true ->
  serves env (PatchProfileStatus u ready) = true ->
  profilesOf u (world st) <> [] ->
  let r := cloneAndCreate env u prompt transcript extracted st in
  snd r = Completed v ag (if Js.nonempty transcript
                          then Some (Js.slice0 180 transcript) else None)
                    extracted
  /\ trace (fst r)
     = (trace st ++ [Asked (PatchProfileStatus u voice_created);
                     Called VoiceClone;
                     Asked (PatchProfileStatus u agent_created);
                     Called (AgentCreate prompt);
                     Asked (PatchProfileStatus u ready)])%list
  /\ (exists p rest, profilesOf u (world (fst r)) = p :: rest)
  /\ forall p, In p (profilesOf u (world (fst r))) ->
       setup_status p = ready /\ eleven_agent_id p = Some ag.
Proof.
  intros Hv Hnv Ha Hor Hna Hs Hp. cbv zeta. unfold cloneAndCreate.
  rewrite Hv. cbn [Js.truthy]. rewrite Hnv. cbn [negb].
  rewrite Ha, Hor. cbn [Js.truthy]. rewrite Hna. cbn [negb fst snd].
  split; [reflexivity|]. split; [|split].
  - rewrite !trace_updateProfileStatus, !trace_emit, !trace_updateProfileStatus,
      trace_emit, trace_updateProfileStatus.
    now rewrite <- !app_assoc.
  - match goal with |- exists p rest, ?l = _ =>
      assert (Hne : l <> []); [|destruct l as [|p rest]; [congruence|]] end.
    + apply has_profile_update. cbn [world emit].
      apply has_profile_update. cbn [world emit].
      apply has_profile_update. exact Hp.
    + now exists p, rest.
  - intros p. unfold updateProfileStatus at 1. rewrite Hs. cbn [onWorld world emit].
    unfold profilesOf, patchProfile. cbn [profiles with_profiles].
    rewrite filter_In, in_map_iff. intros [[q [Hq _]] Hu]. subst p.
    destruct (String.eqb (clerk_user_id q) u) eqn:E; [split; reflexivity|].
    cbn in Hu. congruence.
Qed.

(** C8.  In a run that gets as far as the transcription step and in which
    the transcript or the extraction fails, the pipeline goes on: the
    status writes start with [voice_uploaded; voice_created], with no
    [error] between them, the voice clone is called, and the only prompt an
    agent is created with is the generic one, the framing followed by the
    snapshot line, none of whose lines starts with [Goals: ] or [Fears: ].
    When the voice clone and the agent creation then succeed, the run
    answers [Completed] without a reflection, has written
    [voice_uploaded; voice_created; agent_created; ready], and once the
    store applies the last write it still has a profile of the user, at
    [ready] and with the id of the new agent. *)
Theorem transcription_failure_is_not_fatal :
  forall (env : Process.Env) (userId : string) (body : Body) (w : World)
         (profile : Profile) (rest : list Profile),
    Js.nonempty userId = true ->
    Js.nonempty (voiceSamplePath body) = true ->
    serves env (GetProfile userId) = true ->
    profilesOf userId w = profile :: rest ->
    andb (SetupStatus_eqb (setup_status profile) ready)
         (andb (Js.truthy (eleven_agent_id profile))
               (Js.truthy (eleven_voice_id profile))) = false ->
    signedUrlOk env = true ->
    downloadOk env = true ->
    (transcribeWithElevenLabs env = None \/
     exists t, transcribeWithElevenLabs env = Some t
               /\ extractReflectionWithOpenAI env t = None) ->
    let run := Process.POST env (Some userId) (Some body) w in
    let tsMeta := fst (loadTimestampMeta env userId body w (mkState w [])) in
    let generic := buildSystemPrompt (metaTitle tsMeta) (metaDate tsMeta) None in
    (exists later,
        statusWrites (trace (fst run)) = voice_uploaded :: voice_created :: later)
    /\ In (Called VoiceClone) (trace (fst run))
    /\ (forall p, In (Called (AgentCreate p)) (trace (fst run)) -> p = generic)
    /\ generic = Js.join newline
                   (filter Js.nonempty framing
                    ++ [snapshotLine (metaTitle tsMeta) (metaDate tsMeta)])
    /\ (forall line,
          In line (filter Js.nonempty
                     (promptLines (metaTitle tsMeta) (metaDate tsMeta) None)) ->
          String.prefix "Goals: " line = false
          /\ String.prefix "Fears: " line = false)
    /\ (forall v a b ag,
          voiceAdd env = VoiceAdded (Some v) ->
          Js.nonempty v = true ->
          agentCreate env = AgentCreated a b ->
          Js.orS a b = Some ag ->
          Js.nonempty ag = true ->
          serves env (PatchProfileStatus userId ready) = true ->
          (exists preview, snd run = Completed v ag preview None)
          /\ statusWrites (trace (fst run))
             = [voice_uploaded; voice_created; agent_created; ready]
          /\ In (Called (AgentCreate generic)) (trace (fst run))
          /\ (exists p others,
                profilesOf userId (world (fst run)) = p :: others
                /\ setup_status p = ready /\ eleven_agent_id p = Some ag)
          /\ forall p, In p (profilesOf userId (world (fst run))) ->
               setup_status p = ready /\ eleven_agent_id p = Some ag).
Proof.
  intros env userId body w profile rest Hu Hb Hs Hp Hn Hsig Hdl Hfail.
  destruct (POST_reaches_clone env userId body w profile rest
              Hu Hb Hs Hp Hn Hsig Hdl)
    as (st5 & tsMeta' & Hmeta & Hw5 & Hno5 & Hpost & Hp5).
  destruct (transcribeAndExtract_failure env userId body st5 Hfail)
    as (transcript & st6 & Hte & Hwd6 & Hw6 & Hin6).
  rewrite <- Hwd6 in Hp5.
  rewrite Hte in Hpost. subst tsMeta'.
  cbv zeta. rewrite Hpost.
  set (tsMeta := fst (loadTimestampMeta env userId body w (mkState w []))).
  set (generic := buildSystemPrompt (metaTitle tsMeta) (metaDate tsMeta) None).
  assert (Hno6 : forall e, In e (trace st6) ->
             e <> Called VoiceClone /\ forall p, e <> Called (AgentCreate p)).
  { intros e He. destruct (Hin6 e He) as [H|[H|H]].
    - now apply Hno5.
    - subst e. split; [discriminate | intros p; discriminate].
    - subst e. split; [discriminate | intros p; discriminate]. }
  destruct (cloneAndCreate_trace env userId generic transcript None st6)
    as (tail & Htr & Htail).
  split; [|split; [|split; [|split; [|split]]]].
  - rewrite Htr, statusWrites_app, Hw6, Hw5.
    destruct Htail as [->|[->| ->]]; cbn; eexists; reflexivity.
  - rewrite Htr, in_app_iff. right. cbn. auto.
  - intros p Hin. rewrite Htr, in_app_iff in Hin. destruct Hin as [Hin|Hin].
    + exfalso. exact (proj2 (Hno6 _ Hin) p eq_refl).
    + destruct Htail as [->|[->| ->]]; cbn in Hin;
        repeat (destruct Hin as [Hin|Hin];
                [try discriminate; try (injection Hin as Hin; exact (eq_sym Hin))|]);
        try contradiction.
  - apply buildSystemPrompt_generic.
  - intros line Hline. exact (generic_prompt_lines _ _ _ Hline).
  - intros v a b ag Hv Hnv Ha Hor Hna Hsr.
    destruct (cloneAndCreate_success env userId generic transcript None st6
                v a b ag Hv Hnv Ha Hor Hna Hsr Hp5)
      as (Hr & Ht & (p & others & Hex) & Hpr).
    split; [|split; [|split; [|split]]].
    + rewrite Hr. eexists; reflexivity.
    + rewrite Ht, statusWrites_app, Hw6, Hw5. reflexivity.
    + rewrite Ht, in_app_iff. right. cbn. auto.
    + exists p, others. split; [exact Hex|].
      apply Hpr. rewrite Hex. now left.
    + exact Hpr.
Qed.

Lemma transcription_failure_is_not_fatal_witness :
  Process.statusWrites
    (Process.trace
       (fst (Process.POST
               (Sample.processEnv Sample.allServed None (fun _ => None))
               (Some Sample.alice) (Some Sample.body1)
               (Sample.worldOf (Sample.profileOf st_new None None) [] []))))
  = [voice_uploaded; voice_created; agent_created; ready].
Proof.
  pose proof (transcription_failure_is_not_fatal
    (Sample.processEnv Sample.allServed None (fun _ => None))
    Sample.alice Sample.body1
    (Sample.worldOf (Sample.profileOf st_new None None) [] [])
    (Sample.profileOf st_new None None) []
    eq_refl eq_refl eq_refl eq_refl eq_refl eq_refl eq_refl
    (or_introl eq_refl)) as H.
  cbv zeta in H. destruct H as (_ & _ & _ & _ & _ & H).
  destruct (H "voice_new" (Some "agent_new") None "agent_new"
              eq_refl eq_refl eq_refl eq_refl eq_refl eq_refl) as (_ & Hw & _).
  exact Hw.
Defined.
End CloneProofs.

Section OnboardingInvariant.
Import Store Remote Process Props.

Lemma transcribeAndExtract_keeps env u body st :
  let '(_, _, st') := transcribeAndExtract env u body st in
  statusWrites (trace st') = statusWrites (trace st)
  /\ profiles (world st') = profiles (world st).
Proof.
  unfold transcribeAndExtract.
  destruct (transcribeWithElevenLabs env) as [t|].
  2:{ rewrite trace_emit, statusWrites_app. cbn. now rewrite app_nil_r. }
  destruct (extractReflectionWithOpenAI env t) as [x|].
  2:{ rewrite !trace_emit, !statusWrites_app. cbn. now rewrite !app_nil_r. }
  destruct (timestampId body) as [tid|].
  2:{ rewrite !trace_emit, !statusWrites_app. cbn. now rewrite !app_nil_r. }
  destruct (serves env (PatchTimestampReflection tid u));
    rewrite ?trace_onWorld, !trace_emit, !statusWrites_app; cbn;
    now rewrite !app_nil_r.
Qed.

Lemma loadTimestampMeta_world env u body w st :
  world (snd (loadTimestampMeta env u body w st)) = world st.
Proof.
  unfold loadTimestampMeta. destruct (timestampId body); [|reflexivity].
  destruct (serves env _); reflexivity.
Qed.

(** The status writes of any run: nothing, or [voice_uploaded] followed
    by a forward run that may end in [error]. *)
Lemma POST_statusWrites env auth body w :
  let ws := statusWrites (trace (fst (Process.POST env auth body w))) in
  ws = [] \/ ws = [voice_uploaded; error]
  \/ ws = [voice_uploaded; voice_created; error]
  \/ ws = [voice_uploaded; voice_created; agent_created; error]
  \/ ws = [voice_uploaded; voice_created; agent_created; ready].
Proof.
  cbv zeta. unfold Process.POST.
  destruct auth as [userId|]; [|left; reflexivity].
  destruct (Js.nonempty userId); [|left; reflexivity]. cbn [negb].
  destruct body as [body|]; [|left; reflexivity].
  destruct (Js.nonempty (voiceSamplePath body)); [|left; reflexivity]. cbn [negb].
  destruct (serves env (GetProfile userId)); [|left; reflexivity]. cbn [negb].
  destruct (profilesOf userId w) as [|profile rest]; [left; reflexivity|].
  destruct (andb _ _); [left; reflexivity|].
  destruct (loadTimestampMeta env userId body w
              (emit (Asked (GetProfile userId)) (mkState w []))) as [tsMeta st2] eqn:E.
  assert (H2 : statusWrites (trace st2) = []).
  { replace st2 with (snd (loadTimestampMeta env userId body w
              (emit (Asked (GetProfile userId)) (mkState w [])))) by now rewrite E.
    now rewrite (proj1 (trace_loadTimestampMeta env userId body w _)). }
  destruct (signedUrlOk env); cbn [negb].
  2:{ right; left. cbn [fst].
      rewrite trace_updateProfileStatus, trace_emit, trace_updateProfileStatus,
        !statusWrites_app, H2. reflexivity. }
  destruct (downloadOk env); cbn [negb].
  2:{ right; left. cbn [fst].
      rewrite trace_updateProfileStatus, !trace_emit, trace_updateProfileStatus,
        !statusWrites_app, H2. reflexivity. }
  pose proof (transcribeAndExtract_keeps env userId body
    (emit (Called StorageDownload)
       (emit (Called StorageSignUrl)
          (updateProfileStatus env userId voice_uploaded noExtra st2)))) as Hk.
  destruct (transcribeAndExtract env userId body _) as [[transcript extracted] st6].
  destruct Hk as [Hk _].
  rewrite !trace_emit, trace_updateProfileStatus, !statusWrites_app, H2 in Hk.
  cbn in Hk.
  destruct (cloneAndCreate_trace env userId
              (buildSystemPrompt (metaTitle tsMeta) (metaDate tsMeta) extracted)
              transcript extracted st6) as (tail & Htr & Htail).
  rewrite Htr, statusWrites_app, Hk.
  destruct Htail as [->|[->| ->]]; cbn; auto.
Qed.

Lemma patchProfile_not_ready u s x w :
  s <> ready -> readyInvariant w -> readyInvariant (patchProfile u s x w).
Proof.
  unfold readyInvariant, patchProfile. cbn [profiles with_profiles].
  intros Hs H. rewrite Forall_map. revert H. apply Forall_impl.
  intros p Hp. destruct (String.eqb (clerk_user_id p) u); [|exact Hp].
  unfold readyHasIds. cbn. destruct s; try reflexivity. congruence.
Qed.

Lemma patchProfile_voiceSet_keep u s w :
  voiceSet u w -> voiceSet u (patchProfile u s noExtra w).
Proof.
  unfold voiceSet, patchProfile. cbn [profiles with_profiles].
  intros H. rewrite Forall_map. revert H. apply Forall_impl.
  intros p Hp. destruct (String.eqb (clerk_user_id p) u) eqn:E; cbn; auto.
  rewrite E. auto.
Qed.

Lemma patchProfile_voiceSet_set u s v w :
  Js.nonempty v = true -> voiceSet u (patchProfile u s (mkExtra (Some v) None) w).
Proof.
  unfold voiceSet, patchProfile. cbn [profiles with_profiles].
  intros Hv. rewrite Forall_map. apply Forall_forall. intros p _.
  destruct (String.eqb (clerk_user_id p) u) eqn:E; cbn; auto.
  rewrite E. discriminate.
Qed.

Lemma patchProfile_ready u ag w :
  Js.nonempty ag = true -> voiceSet u w -> readyInvariant w ->
  readyInvariant (patchProfile u ready (mkExtra None (Some ag)) w).
Proof.
  unfold readyInvariant, voiceSet, patchProfile. cbn [profiles with_profiles].
  intros Ha Hv H. rewrite Forall_map.
  rewrite Forall_forall in *. intros p Hp.
  destruct (String.eqb (clerk_user_id p) u) eqn:E; [|now apply H].
  unfold readyHasIds. cbn. rewrite (Hv p Hp E), Ha. reflexivity.
Qed.

Lemma updateProfileStatus_not_ready env u s x st :
  s <> ready -> readyInvariant (world st) ->
  readyInvariant (world (updateProfileStatus env u s x st)).
Proof.
  intros Hs H. unfold updateProfileStatus.
  destruct (serves env _); cbn; [now apply patchProfile_not_ready | exact H].
Qed.

Lemma updateProfileStatus_voiceSet env u s st :
  voiceSet u (world st) ->
  voiceSet u (world (updateProfileStatus env u s noExtra st)).
Proof.
  intros H. unfold updateProfileStatus.
  destruct (serves env _); cbn; [now apply patchProfile_voiceSet_keep | exact H].
Qed.

Lemma cloneAndCreate_invariant env u prompt transcript extracted st :
  serves env (PatchProfileStatus u agent_created) = true ->
  readyInvariant (world st) ->
  readyInvariant (world (fst (cloneAndCreate env u prompt transcript extracted st))).
Proof.
  intros Hs H. unfold cloneAndCreate.
  assert (H1 : readyInvariant
                 (world (emit (Called VoiceClone)
                           (updateProfileStatus env u voice_created noExtra st)))).
  { cbn. apply updateProfileStatus_not_ready; [discriminate | exact H]. }
  destruct (voiceAdd env) as [text|vid].
  { cbn [fst]. apply updateProfileStatus_not_ready; [discriminate | exact H1]. }
  destruct (Js.truthy vid) eqn:Hv; cbn [negb].
  2:{ cbn [fst]. apply updateProfileStatus_not_ready; [discriminate | exact H1]. }
  destruct vid as [v|]; [|discriminate]. cbn in Hv.
  set (st3 := updateProfileStatus env u agent_created (mkExtra (Some v) None) _).
  assert (H3 : readyInvariant (world st3)).
  { apply updateProfileStatus_not_ready; [discriminate | exact H1]. }
  assert (V3 : voiceSet u (world st3)).
  { unfold st3, updateProfileStatus. rewrite Hs. cbn.
    now apply patchProfile_voiceSet_set. }
  destruct (agentCreate env) as [text|a b].
  { cbn [fst]. apply updateProfileStatus_not_ready; [discriminate | exact H3]. }
  destruct (Js.truthy (Js.orS a b)) eqn:Ha; cbn [negb fst].
  2:{ apply updateProfileStatus_not_ready; [discriminate | exact H3]. }
  destruct (Js.orS a b) as [ag|]; [|discriminate]. cbn in Ha.
  unfold updateProfileStatus at 1.
  destruct (serves env (PatchProfileStatus u ready)); cbn; [|exact H3].
  now apply patchProfile_ready.
Qed.

(** Where the store applies the write that carries the voice id, every
    run keeps [ready] rows with both ids, whichever provider step fails. *)
Lemma ready_invariant_when_voice_write_applied env auth body w :
  (forall u, auth = Some u ->
             serves env (PatchProfileStatus u agent_created) = true) ->
  readyInvariant w ->
  readyInvariant (world (fst (Process.POST env auth body w))).
Proof.
  intros Hs H. unfold Process.POST.
  destruct auth as [userId|]; [|exact H].
  specialize (Hs userId eq_refl).
  destruct (Js.nonempty userId); [|exact H]. cbn [negb].
  destruct body as [body|]; [|exact H].
  destruct (Js.nonempty (voiceSamplePath body)); [|exact H]. cbn [negb].
  destruct (serves env (GetProfile userId)); [|exact H]. cbn [negb].
  destruct (profilesOf userId w) as [|profile rest]; [exact H|].
  destruct (andb _ _); [exact H|].
  destruct (loadTimestampMeta env userId body w
              (emit (Asked (GetProfile userId)) (mkState w []))) as [tsMeta st2] eqn:E.
  assert (H2 : readyInvariant (world st2)).
  { replace st2 with (snd (loadTimestampMeta env userId body w
              (emit (Asked (GetProfile userId)) (mkState w [])))) by now rewrite E.
    rewrite loadTimestampMeta_world. exact H. }
  assert (H3 : readyInvariant
                 (world (updateProfileStatus env userId voice_uploaded noExtra st2))).
  { apply updateProfileStatus_not_ready; [discriminate | exact H2]. }
  destruct (signedUrlOk env); cbn [negb].
  2:{ cbn [fst]. apply updateProfileStatus_not_ready; [discriminate | exact H3]. }
  destruct (downloadOk env); cbn [negb].
  2:{ cbn [fst]. apply updateProfileStatus_not_ready; [discriminate | exact H3]. }
  pose proof (transcribeAndExtract_keeps env userId body
    (emit (Called StorageDownload)
       (emit (Called StorageSignUrl)
          (updateProfileStatus env userId voice_uploaded noExtra st2)))) as Hk.
  destruct (transcribeAndExtract env userId body _) as [[transcript extracted] st6].
  destruct Hk as [_ Hk].
  apply cloneAndCreate_invariant; [exact Hs|].
  unfold readyInvariant. rewrite Hk. exact H3.
Qed.

(** C1.  The code at the failing input: a new profile without ids, every
    provider step succeeds, and the store answers the PATCH that carries
    the voice id (the write of [agent_created]) with a non-2xx status.
    [updateProfileStatus] drops the response, the run goes on, and its last
    PATCH marks the profile [ready] with the agent id.  The store satisfied
    the invariant before the run and has a [ready] profile without a voice
    id after it. *)
Theorem ready_without_voice_id_after_dropped_write :
  let env := Sample.processEnv
               (fun r => match r with
                         | PatchProfileStatus _ agent_created => false
                         | _ => true
                         end)
               (Some "hello") (fun _ => Some Sample.someReflection) in
  let w := Sample.worldOf (Sample.profileOf st_new None None) [] [] in
  let run := Process.POST env (Some Sample.alice) (Some Sample.body1) w in
  snd run = Completed "voice_new" "agent_new" (Some "hello")
                      (Some Sample.someReflection)
  /\ profiles (world (fst run))
     = [mkProfile Sample.alice (Some "+15550100") ready None (Some "agent_new")]
  /\ Forall (fun p => readyHasIds p = true) (profiles w)
  /\ ~ Forall (fun p => readyHasIds p = true) (profiles (world (fst run))).
Proof.
  cbv zeta. split; [reflexivity|]. split; [reflexivity|]. split.
  - repeat constructor.
  - intros H. inversion H as [|p l Hp _]. discriminate Hp.
Qed.
End OnboardingInvariant.

(* ------------------------------------------------------------------ *)
(** ** Sorted reads *)
(* ------------------------------------------------------------------ *)

Section SortFacts.
Context {A : Type}.
Variable le : A -> A -> bool.
Hypothesis le_total : forall a b, le a b = true \/ le b a = true.
Hypothesis le_trans :
  forall a b c, le a b = true -> le b c = true -> le a c = true.

Lemma insertSorted_In x y l : In y (Js.insertSorted le x l) -> y = x \/ In y l.
Proof.
  induction l as [|z l IH]; cbn.
  - intros [<-|[]]. now left.
  - destruct (le x z); cbn.
    + intros [<-|H]; [now left|now right].
    + intros [<-|H]; [right; now left|].
      destruct (IH H) as [->|H']; [now left|right; now right].
Qed.

Lemma insertSorted_sorted x l :
  StronglySorted (fun a b => le a b = true) l -> StronglySorted (fun a b => le a b = true) (Js.insertSorted le x l).
Proof.
  induction 1 as [|z l Hs IH Hz]; cbn.
  - constructor; constructor.
  - destruct (le x z) eqn:E.
    + constructor; [now constructor|].
      constructor; [exact E|].
      rewrite Forall_forall in *. intros y Hy.
      apply (le_trans x z y E). now apply Hz.
    + constructor; [exact IH|].
      rewrite Forall_forall in *. intros y Hy.
      destruct (insertSorted_In _ _ _ Hy) as [->|Hy'].
      * destruct (le_total x z) as [H|H]; [congruence|exact H].
      * now apply Hz.
Qed.

Lemma sortBy_sorted l : StronglySorted (fun a b => le a b = true) (Js.sortBy le l).
Proof.
  induction l as [|x l IH]; cbn.
  - constructor.
  - now apply insertSorted_sorted.
Qed.

Lemma sorted_firstn_skipn n l a b :
  StronglySorted (fun a b => le a b = true) l -> In a (firstn n l) -> In b (skipn n l) -> le a b = true.
Proof.
  intros Hs. revert n. induction Hs as [|z l Hs IH Hz]; intros n Ha Hb.
  - destruct n; cbn in Ha; contradiction.
  - destruct n as [|n]; cbn in Ha, Hb; [contradiction|].
    destruct Ha as [<-|Ha].
    + rewrite Forall_forall in Hz. apply Hz.
      rewrite <- (firstn_skipn n l). apply in_or_app. now right.
    + now apply (IH n).
Qed.

(** The first [n] elements of a sorted list stand before all the others. *)
Lemma sortBy_firstn_first n l :
  exists rest,
    Permutation (firstn n (Js.sortBy le l) ++ rest) l
    /\ forall a b, In a (firstn n (Js.sortBy le l)) -> In b rest -> le a b = true.
Proof.
  exists (skipn n (Js.sortBy le l)). split.
  - rewrite firstn_skipn. apply sortBy_perm.
  - intros a b. apply sorted_firstn_skipn. apply sortBy_sorted.
Qed.

End SortFacts.

Section OrderFacts.
Import Store.

Lemma createdDesc_total a b : createdDesc a b = true \/ createdDesc b a = true.
Proof.
  unfold createdDesc.
  destruct (call_created_at a), (call_created_at b); auto.
  rewrite !Z.leb_le. lia.
Qed.

Lemma createdDesc_trans a b c :
  createdDesc a b = true -> createdDesc b c = true -> createdDesc a c = true.
Proof.
  unfold createdDesc.
  destruct (call_created_at a), (call_created_at b), (call_created_at c);
    auto; try discriminate.
  rewrite !Z.leb_le. lia.
Qed.

Lemma scheduledAsc_total a b :
  Future.scheduledAsc a b = true \/ Future.scheduledAsc b a = true.
Proof. unfold Future.scheduledAsc. rewrite !Z.leb_le. lia. Qed.

Lemma scheduledAsc_trans a b c :
  Future.scheduledAsc a b = true -> Future.scheduledAsc b c = true ->
  Future.scheduledAsc a c = true.
Proof. unfold Future.scheduledAsc. rewrite !Z.leb_le. lia. Qed.

End OrderFacts.

(* ------------------------------------------------------------------ *)
(** ** Reconciliation of stuck calls *)
(* ------------------------------------------------------------------ *)

Section ReconcileProofs.
Import Store Remote Calls Props.

Lemma stuckCalls_incl u w c :
  In c (stuckCalls u w) ->
  In c (calls w) /\ call_user c = u /\ isActive (call_status c) = true.
Proof.
  unfold stuckCalls, activeCallsOf. intros H.
  apply In_firstn in H.
  apply (Permutation_in _ (sortBy_perm createdDesc _)) in H.
  apply filter_In in H. destruct H as [H1 H2].
  apply andb_prop in H2. destruct H2 as [H2 H3].
  apply String.eqb_eq in H2. auto.
Qed.

Lemma stuckCalls_unique u w :
  uniqueCallIds w -> NoDup (map call_id (stuckCalls u w)).
Proof.
  unfold uniqueCallIds, stuckCalls, activeCallsOf. intros H.
  rewrite <- firstn_map. apply NoDup_firstn.
  eapply Permutation_NoDup.
  - apply Permutation_map. symmetry. apply sortBy_perm.
  - now apply NoDup_map_filter.
Qed.

Lemma stuckCalls_length u w : (List.length (stuckCalls u w) <= 3)%nat.
Proof. unfold stuckCalls. apply firstn_le_length. Qed.

(** The read of the pass takes the three newest active calls of the
    user. *)
Lemma stuckCalls_newest u w :
  newestOf 3 (activeCallsOf u w) (stuckCalls u w).
Proof.
  unfold newestOf, stuckCalls. split.
  - rewrite length_firstn.
    now rewrite (Permutation_length (sortBy_perm createdDesc _)).
  - apply (sortBy_firstn_first createdDesc createdDesc_total createdDesc_trans).
Qed.

(** A row that the read leaves out has the id of no row read. *)
Lemma left_out_of_the_read u w rest d :
  uniqueCallIds w ->
  Permutation (stuckCalls u w ++ rest) (activeCallsOf u w) ->
  In d rest ->
  In d (calls w) /\ forall c, In c (stuckCalls u w) -> call_id c <> call_id d.
Proof.
  intros Hu Hp Hd. split.
  - assert (H : In d (activeCallsOf u w)).
    { apply (Permutation_in _ Hp). apply in_or_app. now right. }
    unfold activeCallsOf in H. now apply filter_In in H.
  - assert (Hn : NoDup (map call_id (stuckCalls u w ++ rest))).
    { eapply Permutation_NoDup.
      - apply Permutation_map. symmetry. exact Hp.
      - unfold activeCallsOf. now apply NoDup_map_filter. }
    rewrite map_app in Hn. revert Hn Hd.
    generalize (stuckCalls u w). intros l Hn Hd c Hc E.
    induction l as [|a l IH]; [contradiction|].
    cbn in Hn. inversion Hn as [|? ? Ha Hl]; subst.
    destruct Hc as [->|Hc]; [|now apply IH].
    apply Ha. apply in_or_app. right. rewrite E. now apply in_map.
Qed.

(** Every patch of the loop ends the call. *)
Lemma reconcileCall_ends env c p :
  reconcileCall env c = Sends p -> endsCall p = true.
Proof.
  unfold reconcileCall.
  repeat match goal with
         | |- context [if ?b then _ else _] => destruct b
         end;
    try (match goal with
         | |- match ?o with Some _ => _ | None => _ end = _ -> _ => destruct o
         end);
    intros H; try discriminate; injection H as <-; reflexivity.
Qed.

Lemma reconcileRow_id env r c : call_id (reconcileRow env r c) = call_id r.
Proof.
  unfold reconcileRow. destruct (reconcileCall env c); try reflexivity.
  destruct (andb _ _); reflexivity.
Qed.

Lemma reconcileRow_other env r c :
  call_id r <> call_id c -> reconcileRow env r c = r.
Proof.
  intros H. unfold reconcileRow. destruct (reconcileCall env c); try reflexivity.
  apply Nat.eqb_neq in H. rewrite H, andb_false_r. reflexivity.
Qed.

Lemma reconcileStep_calls env w c :
  calls (reconcileStep env w c) = map (fun r => reconcileRow env r c) (calls w)
  /\ profiles (reconcileStep env w c) = profiles w
  /\ timestamps (reconcileStep env w c) = timestamps w
  /\ scheduled (reconcileStep env w c) = scheduled w.
Proof.
  unfold reconcileStep, reconcileRow.
  destruct (reconcileCall env c) as [p| |].
  - destruct (serves env _); cbn.
    + repeat split; reflexivity.
    + repeat split; try reflexivity. now rewrite map_id.
  - repeat split; try reflexivity. now rewrite map_id.
  - repeat split; try reflexivity. now rewrite map_id.
Qed.

Lemma reconcile_fold env l w :
  calls (fold_left (reconcileStep env) l w)
  = map (fun r => fold_left (reconcileRow env) l r) (calls w)
  /\ profiles (fold_left (reconcileStep env) l w) = profiles w
  /\ timestamps (fold_left (reconcileStep env) l w) = timestamps w
  /\ scheduled (fold_left (reconcileStep env) l w) = scheduled w.
Proof.
  revert w; induction l as [|c l IH]; intros w; cbn.
  - repeat split; try reflexivity. now rewrite map_id.
  - destruct (IH (reconcileStep env w c)) as (H1 & H2 & H3 & H4).
    destruct (reconcileStep_calls env w c) as (G1 & G2 & G3 & G4).
    rewrite H1, H2, H3, H4, G1, G2, G3, G4, map_map. repeat split; reflexivity.
Qed.

Lemma fold_reconcileRow_id env l r :
  call_id (fold_left (reconcileRow env) l r) = call_id r.
Proof.
  revert r; induction l as [|c l IH]; intros r; cbn; [reflexivity|].
  now rewrite IH, reconcileRow_id.
Qed.

Lemma fold_reconcileRow_unique env l r :
  NoDup (map call_id l) ->
  fold_left (reconcileRow env) l r = rowAfterPass env l r.
Proof.
  unfold rowAfterPass.
  revert r; induction l as [|c l IH]; intros r H; cbn; [reflexivity|].
  inversion H as [|? ? Hn Hr]; subst.
  destruct (Nat.eqb (call_id c) (call_id r)) eqn:E.
  - apply Nat.eqb_eq in E.
    rewrite (IH _ Hr), reconcileRow_id.
    destruct (find _ l) as [c'|] eqn:F; [|reflexivity].
    exfalso. apply find_some in F. destruct F as [F1 F2].
    apply Nat.eqb_eq in F2. apply Hn. rewrite E, <- F2. now apply in_map.
  - apply Nat.eqb_neq in E.
    rewrite reconcileRow_other by congruence. now apply IH.
Qed.

(** The rows the loop gets through are rows read, none of them with a
    turn that throws; they are all the rows read when no turn throws. *)
Lemma reached_incl env rows c :
  In c (reached env rows) -> In c rows /\ raises env c = false.
Proof.
  induction rows as [|a l IH]; cbn; [tauto|].
  destruct (raises env a) eqn:E; cbn; [tauto|].
  intros [<-|H]; [auto|]. destruct (IH H). auto.
Qed.

Lemma reached_all env rows :
  existsb (raises env) rows = false -> reached env rows = rows.
Proof.
  induction rows as [|a l IH]; cbn; [reflexivity|].
  destruct (raises env a); cbn; [discriminate|].
  intros H. now rewrite IH.
Qed.

Lemma reached_unique env rows :
  NoDup (map call_id rows) -> NoDup (map call_id (reached env rows)).
Proof.
  induction rows as [|a l IH]; cbn; [auto|].
  intros H. inversion H as [|? ? Ha Hl]; subst.
  destruct (raises env a); cbn; [constructor|].
  constructor; [|now apply IH].
  intros Hin. apply Ha. apply in_map_iff in Hin.
  destruct Hin as (x & Hx & Hin). apply in_map_iff. exists x.
  split; [exact Hx|]. now apply reached_incl in Hin.
Qed.

(** The loop is the fold of its turns over the rows it gets through, and
    it throws when the turn of a row read does. *)
Lemma reconcileLoop_reached env rows w :
  reconcileLoop env rows w
  = (fold_left (reconcileStep env) (reached env rows) w,
     existsb (raises env) rows).
Proof.
  revert w. induction rows as [|c l IH]; intros w; [reflexivity|].
  cbn [reconcileLoop reached existsb].
  assert (Hr : raises env c
               = match reconcileCall env c with Throws => true | _ => false end)
    by reflexivity.
  destruct (reconcileCall env c); rewrite Hr; cbn [orb fold_left];
    try reflexivity; now rewrite IH.
Qed.

Lemma reconcileStuckCalls_threw env u w :
  serves env (GetStuckCalls u) = true ->
  snd (reconcileStuckCalls env u w) = existsb (raises env) (stuckCalls u w).
Proof.
  intros Hs. unfold reconcileStuckCalls. rewrite Hs. cbn [negb].
  now rewrite reconcileLoop_reached.
Qed.

(** The pass, row by row. *)
Lemma reconcileStuckCalls_rows env u w :
  uniqueCallIds w ->
  serves env (GetStuckCalls u) = true ->
  calls (fst (reconcileStuckCalls env u w))
  = map (rowAfterPass env (reached env (stuckCalls u w))) (calls w).
Proof.
  intros Hu Hs. unfold reconcileStuckCalls. rewrite Hs. cbn [negb].
  rewrite reconcileLoop_reached. cbn [fst].
  rewrite (proj1 (reconcile_fold env _ w)).
  apply map_ext. intros r. apply fold_reconcileRow_unique.
  apply reached_unique. now apply stuckCalls_unique.
Qed.

Lemma find_fetched l c :
  NoDup (map call_id l) -> In c l ->
  find (fun c' => Nat.eqb (call_id c') (call_id c)) l = Some c.
Proof.
  induction l as [|a l IH]; cbn; [tauto|].
  intros H Hin. inversion H as [|? ? Hn Hr]; subst.
  destruct Hin as [->|Hin]; [now rewrite Nat.eqb_refl|].
  destruct (Nat.eqb (call_id a) (call_id c)) eqn:E; [|now apply IH].
  apply Nat.eqb_eq in E. exfalso. apply Hn. rewrite E. now apply in_map.
Qed.

Lemma stored_row_of_id w c r :
  uniqueCallIds w -> In c (calls w) -> In r (calls w) ->
  call_id r = call_id c -> r = c.
Proof.
  unfold uniqueCallIds. induction (calls w) as [|a l IH]; cbn; [tauto|].
  intros H Hc Hr E. inversion H as [|? ? Hn Hl]; subst.
  destruct Hc as [->|Hc], Hr as [->|Hr]; auto.
  - exfalso. apply Hn. rewrite <- E. now apply in_map.
  - exfalso. apply Hn. rewrite E. now apply in_map.
Qed.

(** What the pass leaves of a row that the loop gets to, and of every row
    with its id. *)
Lemma reached_row_after_pass env u w c :
  uniqueCallIds w ->
  serves env (GetStuckCalls u) = true ->
  In c (reached env (stuckCalls u w)) ->
  In (reconcileRow env c c) (calls (fst (reconcileStuckCalls env u w)))
  /\ forall r, In r (calls (fst (reconcileStuckCalls env u w))) ->
               call_id r = call_id c -> r = reconcileRow env c c.
Proof.
  intros Hu Hs Hin.
  assert (Hrow : rowAfterPass env (reached env (stuckCalls u w)) c
                 = reconcileRow env c c).
  { unfold rowAfterPass.
    now rewrite (find_fetched _ _
                   (reached_unique env _ (stuckCalls_unique u w Hu)) Hin). }
  destruct (stuckCalls_incl _ _ _ (proj1 (reached_incl _ _ _ Hin)))
    as (Hcw & _ & _).
  rewrite (reconcileStuckCalls_rows env u w Hu Hs). split.
  - rewrite <- Hrow. now apply in_map.
  - intros r Hr E. apply in_map_iff in Hr. destruct Hr as [r0 [Hr0 Hin0]].
    assert (E0 : call_id r0 = call_id c).
    { rewrite <- E, <- Hr0. unfold rowAfterPass.
      destruct (find _ _); [now rewrite reconcileRow_id | reflexivity]. }
    rewrite (stored_row_of_id w c r0 Hu Hcw Hin0 E0) in Hr0.
    now rewrite Hrow in Hr0.
Qed.

Lemma isStale_old nowMs t :
  STALE_MS < nowMs - t -> isStale nowMs (Some t) = true.
Proof.
  intros H. unfold isStale, Js.truthyZ.
  destruct (t =? 0); cbn; [reflexivity|]. now apply Z.ltb_lt.
Qed.

(** C6.  The pass reads the three most recently created non-terminal
    calls of the user ([order=created_at.desc&limit=3]).  For a call
    among them that the loop gets to, that has no conversation id, and
    whose start, or creation when it has no start, lies more than 12
    minutes before the clock of the pass, the loop decides the patch
    [failed] with reason [stale_no_conversation_id], and after the pass
    the store has the row with status [failed] and exactly this reason.
    Ids are unique in the table and the store serves the read of the pass
    and the PATCH of the row. *)
Theorem stale_call_without_conversation_is_failed :
  forall (env : Calls.Env) (userId : string) (w : World) (c : CallRow) (t : Z),
    uniqueCallIds w ->
    serves env (GetStuckCalls userId) = true ->
    In c (reached env (stuckCalls userId w)) ->
    Js.truthy (eleven_conversation_id c) = false ->
    startedAtOf c = Some t ->
    STALE_MS < now env - t ->
    serves env (PatchCall (call_id c) failed) = true ->
    newestOf 3 (activeCallsOf userId w) (stuckCalls userId w)
    /\ reconcileCall env c
       = Sends (failedPatch (now env) "stale_no_conversation_id")
    /\ In (applyCallPatch (failedPatch (now env) "stale_no_conversation_id") c)
          (calls (fst (reconcileStuckCalls env userId w)))
    /\ forall r, In r (calls (fst (reconcileStuckCalls env userId w))) ->
                 call_id r = call_id c ->
                 call_status r = failed
                 /\ call_failure_reason r = Some "stale_no_conversation_id".
Proof.
  intros env userId w c t Hu Hs Hin Hconv Hst Hold Hp.
  assert (Hd : reconcileCall env c
               = Sends (failedPatch (now env) "stale_no_conversation_id")).
  { unfold reconcileCall. rewrite Hconv, Hst, (isStale_old _ _ Hold). reflexivity. }
  assert (Hrow : reconcileRow env c c
                 = applyCallPatch (failedPatch (now env) "stale_no_conversation_id") c).
  { unfold reconcileRow. rewrite Hd. cbn [patchStatus failedPatch cp_status].
    rewrite Hp, Nat.eqb_refl. reflexivity. }
  destruct (reached_row_after_pass env userId w c Hu Hs Hin) as [H1 H2].
  rewrite Hrow in H1, H2.
  split; [apply stuckCalls_newest|]. split; [exact Hd|]. split; [exact H1|].
  intros r Hr E. rewrite (H2 r Hr E). split; reflexivity.
Qed.

Lemma stale_call_without_conversation_is_failed_witness :
  In (applyCallPatch
        (failedPatch Sample.twentyMinutesLater "stale_no_conversation_id")
        Sample.stuckCall)
     (calls (fst (reconcileStuckCalls (Sample.callsEnv Sample.twentyMinutesLater)
                                      Sample.alice Sample.oneStuck))).
Proof.
  refine (proj1 (proj2 (proj2 (stale_call_without_conversation_is_failed
    (Sample.callsEnv Sample.twentyMinutesLater) Sample.alice Sample.oneStuck
    Sample.stuckCall Sample.t0 _ eq_refl _ eq_refl eq_refl _ eq_refl)))).
  - unfold uniqueCallIds. cbn. repeat constructor. cbn. tauto.
  - cbn. left. reflexivity.
  - reflexivity.
Defined.

(** C6, as stated, fails for a stale call beyond the three newest: of four
    queued calls of one user, all without a conversation id and older than
    12 minutes, the oldest is not read.  Every request is served and no
    turn throws, and after the pass the row is in the store as it was,
    [queued], and no row with its id is [failed]. *)
Lemma stale_call_beyond_the_newest_three_stays_queued :
  let env := Sample.callsEnv Sample.twentyMinutesLater in
  let oldest := Sample.callAt 1 queued (Some (Sample.t0 - 3000)) None None in
  let pass := reconcileStuckCalls env Sample.alice Sample.fourStuck in
  In oldest (calls Sample.fourStuck)
  /\ call_user oldest = Sample.alice
  /\ isActive (call_status oldest) = true
  /\ eleven_conversation_id oldest = None
  /\ startedAtOf oldest = Some (Sample.t0 - 3000)
  /\ STALE_MS < now env - (Sample.t0 - 3000)
  /\ snd pass = false
  /\ In oldest (calls (fst pass))
  /\ ~ (exists r, In r (calls (fst pass)) /\ call_id r = call_id oldest
                  /\ call_status r = failed).
Proof.
  cbv zeta. repeat split; try reflexivity.
  - cbn. auto.
  - cbn. auto.
  - intros (r & Hr & Hid & Hst). cbn in Hr.
    repeat (destruct Hr as [<-|Hr]; [cbn in Hid, Hst; discriminate|]).
    contradiction.
Qed.
End ReconcileProofs.
Section ReconcileClaims.
Import Store Remote Calls Props.






(** C9, as the code has it.  One pass reads the three most recently
    created non-terminal calls of the user, all of them when there are
    fewer: with the rows left out they make up the user's non-terminal
    calls, and each row read stands before each row left out in the
    order [created_at.desc].  The loop decides for each row it gets to,
    which is each row read when no turn throws: the stored row is
    rewritten by the patch the loop sends for it, a patch that ends the
    call, or left untouched.  Every other row of the table is left as it
    is, and so the user's non-terminal calls that are not read are in the
    store unchanged after the pass. *)
Theorem reconciliation_decides_the_three_latest_calls :
  forall (env : Calls.Env) (userId : string) (w : World),
    uniqueCallIds w ->
    serves env (GetStuckCalls userId) = true ->
    List.length (stuckCalls userId w)
    = Nat.min 3 (List.length (activeCallsOf userId w))
    /\ (exists rest,
          Permutation (stuckCalls userId w ++ rest) (activeCallsOf userId w)
          /\ (forall c d, In c (stuckCalls userId w) -> In d rest ->
                          createdDesc c d = true)
          /\ (forall d, In d rest ->
                        In d (calls (fst (reconcileStuckCalls env userId w)))))
    /\ (forall c, In c (stuckCalls userId w) ->
          In c (calls w) /\ call_user c = userId
          /\ isActive (call_status c) = true)
    /\ (snd (reconcileStuckCalls env userId w) = false ->
        reached env (stuckCalls userId w) = stuckCalls userId w)
    /\ calls (fst (reconcileStuckCalls env userId w))
       = map (rowAfterPass env (reached env (stuckCalls userId w))) (calls w)
    /\ (forall c, In c (reached env (stuckCalls userId w)) ->
          In c (stuckCalls userId w)
          /\ rowAfterPass env (reached env (stuckCalls userId w)) c
             = reconcileRow env c c
          /\ (reconcileRow env c c = c
              \/ exists p, reconcileCall env c = Sends p
                           /\ endsCall p = true
                           /\ reconcileRow env c c = applyCallPatch p c))
    /\ (forall r, (forall c, In c (reached env (stuckCalls userId w)) ->
                             call_id c <> call_id r) ->
                  rowAfterPass env (reached env (stuckCalls userId w)) r = r).
Proof.
  intros env userId w Hu Hs.
  assert (Hout : forall r,
            (forall c, In c (reached env (stuckCalls userId w)) ->
                       call_id c <> call_id r) ->
            rowAfterPass env (reached env (stuckCalls userId w)) r = r).
  { intros r Hr. unfold rowAfterPass.
    destruct (find _ _) as [c|] eqn:F; [|reflexivity].
    apply find_some in F. destruct F as [F1 F2]. apply Nat.eqb_eq in F2.
    exfalso. exact (Hr c F1 F2). }
  destruct (stuckCalls_newest userId w) as (Hlen & rest & Hperm & Hord).
  split; [exact Hlen|].
  split.
  { exists rest. split; [exact Hperm|]. split; [exact Hord|].
    intros d Hd.
    destruct (left_out_of_the_read userId w rest d Hu Hperm Hd) as [Hin Hid].
    rewrite (reconcileStuckCalls_rows env userId w Hu Hs).
    rewrite <- (Hout d).
    - now apply in_map.
    - intros c Hc. apply Hid. now apply reached_incl in Hc. }
  split; [intros c; apply stuckCalls_incl|].
  split.
  { rewrite (reconcileStuckCalls_threw env userId w Hs). apply reached_all. }
  split; [now apply reconcileStuckCalls_rows|].
  split; [|exact Hout].
  intros c Hin. split; [now apply reached_incl in Hin|]. split.
  - unfold rowAfterPass.
    now rewrite (find_fetched _ _
                   (reached_unique env _ (stuckCalls_unique userId w Hu)) Hin).
  - unfold reconcileRow.
    destruct (reconcileCall env c) as [p| |] eqn:Hp; auto.
    destruct (andb _ _); auto.
    right. exists p. split; [reflexivity|].
    split; [now apply (reconcileCall_ends env c)|reflexivity].
Qed.

Lemma reconciliation_decides_the_three_latest_calls_witness :
  map call_status
      (calls (fst (reconcileStuckCalls
                     (Sample.callsEnv Sample.twentyMinutesLater)
                     Sample.alice Sample.fourStuck)))
  = [queued; failed; failed; failed].
Proof.
  rewrite (proj1 (proj2 (proj2 (proj2 (proj2
    (reconciliation_decides_the_three_latest_calls
       (Sample.callsEnv Sample.twentyMinutesLater) Sample.alice
       Sample.fourStuck
       ltac:(unfold uniqueCallIds; cbn; repeat constructor; cbn;
             intuition discriminate)
       eq_refl)))))).
  reflexivity.
Defined.

(** C9, as stated, fails with four stuck calls of one user: the oldest
    is an active call of the user that the loop would fail as stale, the
    pass does not read it, and it is in the store unchanged afterwards. *)
Lemma fourth_stuck_call_is_not_decided :
  let env := Sample.callsEnv Sample.twentyMinutesLater in
  let oldest := Sample.callAt 1 queued (Some (Sample.t0 - 3000)) None None in
  In oldest (activeCallsOf Sample.alice Sample.fourStuck)
  /\ reconcileCall env oldest
     = Sends (failedPatch (now env) "stale_no_conversation_id")
  /\ snd (reconcileStuckCalls env Sample.alice Sample.fourStuck) = false
  /\ In oldest
        (calls (fst (reconcileStuckCalls env Sample.alice Sample.fourStuck)))
  /\ ~ (forall c, In c (activeCallsOf Sample.alice Sample.fourStuck) ->
          In c (stuckCalls Sample.alice Sample.fourStuck)).
Proof.
  cbv zeta. split; [cbn; auto|]. split; [reflexivity|].
  split; [reflexivity|]. split; [cbn; auto|].
  intros H. specialize (H _ (or_introl eq_refl)).
  cbn in H. intuition discriminate.
Qed.

(** The pass throws when the provider reports the end of a conversation
    at a second count out of the range of [Date]: no patch is sent for the
    row, and the handler that awaits the pass ends without an answer of
    its own. *)
Lemma pass_throws_on_an_end_time_out_of_range :
  reconcileCall (Sample.farEndEnv Sample.t0) Sample.undatedCall = Throws
  /\ reconcileStuckCalls (Sample.farEndEnv Sample.t0) Sample.alice
                         Sample.oneUndated
     = (Sample.oneUndated, true)
  /\ Calls.POST (Sample.farEndEnv Sample.t0) (Some Sample.alice)
                Sample.oneUndated
     = (Sample.oneUndated, PassThrew).
Proof. repeat split; reflexivity. Qed.
End ReconcileClaims.

(* ------------------------------------------------------------------ *)
(** ** The dispatcher and the single active call *)
(* ------------------------------------------------------------------ *)

Section AdvanceFacts.
Import Store Remote Props.

Lemma callRank_le_3 s : (callRank s <= 3)%nat.
Proof. destruct s; cbn; lia. Qed.


Lemma callKeeps_refl r : callKeeps r r.
Proof. unfold callKeeps. auto. Qed.

Lemma callKeeps_trans a b c : callKeeps a b -> callKeeps b c -> callKeeps a c.
Proof. unfold callKeeps. intros (?&?&?) (?&?&?). repeat split; try congruence; lia. Qed.

Lemma callKeeps_patch_end p r :
  endsCall p = true -> callKeeps r (applyCallPatch p r).
Proof.
  unfold callKeeps, endsCall, applyCallPatch. cbn.
  destruct (cp_status p) as [[]|]; try discriminate; intros _;
    repeat split; cbn; apply callRank_le_3.
Qed.

Lemma callsAdvance_refl l : callsAdvance l l.
Proof.
  exists l, []. split; [now rewrite app_nil_r|].
  apply Forall2_refl_rel, callKeeps_refl.
Qed.

Lemma callsAdvance_trans l1 l2 l3 :
  callsAdvance l1 l2 -> callsAdvance l2 l3 -> callsAdvance l1 l3.
Proof.
  intros (a & b & -> & Hab) (c & d & -> & Hcd).
  apply Forall2_app_inv_l in Hcd. destruct Hcd as (c1 & c2 & H1 & H2 & ->).
  exists c1, (c2 ++ d)%list. split; [now rewrite app_assoc|].
  exact (Forall2_trans_rel callKeeps callKeeps_trans _ _ _ Hab H1).
Qed.

Lemma callsAdvance_same_length l l' :
  Forall2 callKeeps l l' -> callsAdvance l l'.
Proof. intros H. exists l', []. split; [now rewrite app_nil_r | exact H]. Qed.

Lemma callsAdvance_app l x : callsAdvance l (l ++ x).
Proof.
  exists l, x. split; [reflexivity|].
  apply Forall2_refl_rel, callKeeps_refl.
Qed.


Lemma fresh_id_above w c : In c (calls w) -> (call_id c < freshCallId w)%nat.
Proof.
  intros H. unfold freshCallId.
  assert (Hle : (list_max (map call_id (calls w)) <= list_max (map call_id (calls w)))%nat) by lia.
  apply list_max_le in Hle. rewrite Forall_forall in Hle.
  specialize (Hle (call_id c) (in_map call_id _ _ H)). lia.
Qed.
End AdvanceFacts.

Section DispatchProofs.
Import Store Remote Calls Props.

Lemma fold_reconcileRow_keeps env l r :
  callKeeps r (fold_left (reconcileRow env) l r).
Proof.
  revert r; induction l as [|c l IH]; intros r; cbn; [apply callKeeps_refl|].
  eapply callKeeps_trans; [|apply IH].
  unfold reconcileRow. destruct (reconcileCall env c) as [p| |] eqn:E;
    try apply callKeeps_refl.
  destruct (andb _ _); [|apply callKeeps_refl].
  apply callKeeps_patch_end. exact (reconcileCall_ends env c p E).
Qed.

Lemma reconcile_keeps env u w :
  Forall2 callKeeps (calls w) (calls (fst (reconcileStuckCalls env u w)))
  /\ profiles (fst (reconcileStuckCalls env u w)) = profiles w
  /\ timestamps (fst (reconcileStuckCalls env u w)) = timestamps w
  /\ scheduled (fst (reconcileStuckCalls env u w)) = scheduled w.
Proof.
  unfold reconcileStuckCalls.
  destruct (serves env (GetStuckCalls u)); cbn [negb fst].
  - rewrite reconcileLoop_reached. cbn [fst].
    destruct (reconcile_fold env (reached env (stuckCalls u w)) w)
      as (H1 & H2 & H3 & H4).
    rewrite H1, H2, H3, H4. repeat split.
    apply Forall2_map_same. intros r _. apply fold_reconcileRow_keeps.
  - repeat split. apply Forall2_refl_rel, callKeeps_refl.
Qed.

(** What [dialAndRecord] does to the calls table when the row [callId]
    is the last one and no other row has its id. *)
Lemma dialAndRecord_new_row env callId to w new :
  call_id new = callId ->
  (forall c, In c (calls w) -> call_id c <> callId) ->
  exists new',
    calls (fst (dialAndRecord env callId to (with_calls w (calls w ++ [new]))))
    = (calls w ++ [new'])%list
    /\ call_user new' = call_user new
    /\ scheduled (fst (dialAndRecord env callId to
                         (with_calls w (calls w ++ [new])))) = scheduled w.
Proof.
  intros Hid Hfresh.
  assert (Hp : forall p,
            calls (patchCallsById callId p (with_calls w (calls w ++ [new])))
            = (calls w ++ [applyCallPatch p new])%list).
  { intros p. unfold patchCallsById. cbn [calls with_calls].
    rewrite map_app. cbn [map]. rewrite Hid, Nat.eqb_refl. f_equal.
    rewrite <- (map_id (calls w)) at 2. apply map_ext_in.
    intros c Hc. apply Hfresh in Hc. apply Nat.eqb_neq in Hc. now rewrite Hc. }
  unfold dialAndRecord.
  destruct (dial env) as [m|code text|conv sid]; cbn [fst];
    match goal with
    | |- context [serves env ?r] => destruct (serves env r)
    end;
    try (eexists; split; [apply Hp|split; reflexivity]);
    exists new; cbn; auto.
Qed.

(** The shapes of the store after [POST]. *)
Lemma POST_world env auth w :
  fst (POST env auth w) = w
  \/ exists userId,
       auth = Some userId
       /\ (fst (POST env auth w) = fst (reconcileStuckCalls env userId w)
           \/ (activeCallsOf userId (fst (reconcileStuckCalls env userId w)) = []
               /\ exists new',
                    call_user new' = userId
                    /\ calls (fst (POST env auth w))
                       = (calls (fst (reconcileStuckCalls env userId w))
                          ++ [new'])%list
                    /\ scheduled (fst (POST env auth w))
                       = scheduled (fst (reconcileStuckCalls env userId w)))).
Proof.
  unfold POST. destruct auth as [userId|]; [|now left].
  destruct (Js.nonempty userId); [|now left]. cbn [negb].
  right. exists userId. split; [reflexivity|].
  destruct (reconcileStuckCalls env userId w) as [w1 threw]. cbn [fst].
  destruct threw; [now left|].
  destruct (serves env (GetProfile userId)); [|now left]. cbn [negb].
  destruct (profilesOf userId w1) as [|profile rest]; [now left|].
  destruct (orb _ _); [now left|].
  destruct (negb (Js.truthy (phone_e164 profile))); [now left|].
  destruct (serves env (GetLatestTimestamp userId)); [|now left]. cbn [negb].
  destruct (latestTimestampsOf userId w1) as [|ts tsr]; [now left|].
  destruct (serves env (GetActiveCall userId)); [|now left]. cbn [negb].
  destruct (activeCallsOf userId w1) as [|a l] eqn:Ea; [|now left]. cbn [firstn].
  destruct (serves env (InsertCall userId)); [|now left]. cbn [negb].
  right. split; [reflexivity|].
  unfold insertCall.
  set (to := match phone_e164 profile with Some n => n | None => EmptyString end).
  set (new := mkCall (freshCallId w1) userId (ts_id ts) None manual queued to
                     (Some (now env)) None None None None None None).
  destruct (Nat.eqb (freshCallId w1) 0).
  - exists new. cbn. auto.
  - destruct (dialAndRecord_new_row env (freshCallId w1) to w1 new eq_refl)
      as (new' & H1 & H2 & H3).
    { intros c Hc. apply fresh_id_above in Hc. lia. }
    exists new'. auto.
Qed.

Lemma POST_callsAdvance env auth w :
  callsAdvance (calls w) (calls (fst (POST env auth w)))
  /\ scheduled (fst (POST env auth w)) = scheduled w.
Proof.
  destruct (POST_world env auth w) as [->|(u & _ & [->|(_ & new' & _ & -> & ->)])].
  - split; [apply callsAdvance_refl | reflexivity].
  - split; [|apply reconcile_keeps].
    apply callsAdvance_same_length. apply reconcile_keeps.
  - split; [|apply reconcile_keeps].
    eapply callsAdvance_trans; [|apply callsAdvance_app].
    apply callsAdvance_same_length. apply reconcile_keeps.
Qed.


End DispatchProofs.

(* ------------------------------------------------------------------ *)
(** ** The sweep, the cancel operation and the order of the statuses *)
(* ------------------------------------------------------------------ *)

Section SweepProofs.
Import Store Remote Future Props.

Lemma scheduledRank_le_2 s : (scheduledRank s <= 2)%nat.
Proof. destruct s; cbn; lia. Qed.

Lemma scheduledKeeps_refl r : scheduledKeeps r r.
Proof. unfold scheduledKeeps. auto. Qed.

Lemma scheduledKeeps_trans a b c :
  scheduledKeeps a b -> scheduledKeeps b c -> scheduledKeeps a c.
Proof.
  unfold scheduledKeeps. intros (?&?&?) (?&?&?).
  repeat split; try congruence; lia.
Qed.

Lemma scheduledAdvance_refl l : scheduledAdvance l l.
Proof. apply Forall2_refl_rel, scheduledKeeps_refl. Qed.

Lemma scheduledAdvance_trans l1 l2 l3 :
  scheduledAdvance l1 l2 -> scheduledAdvance l2 l3 -> scheduledAdvance l1 l3.
Proof. apply Forall2_trans_rel, scheduledKeeps_trans. Qed.

Lemma worldAdvance_refl w : worldAdvance w w.
Proof. split; [apply callsAdvance_refl | apply scheduledAdvance_refl]. Qed.

Lemma worldAdvance_trans w1 w2 w3 :
  worldAdvance w1 w2 -> worldAdvance w2 w3 -> worldAdvance w1 w3.
Proof.
  intros [A1 B1] [A2 B2]. split.
  - eapply callsAdvance_trans; eauto.
  - eapply scheduledAdvance_trans; eauto.
Qed.

(** A PATCH of scheduled rows that moves every matched row forward. *)
Lemma patchScheduledWhere_advance sel p w :
  (forall r, sel r = true ->
     (scheduledRank (sc_status r)
      <= scheduledRank (setField (sp_status p) (sc_status r)))%nat) ->
  worldAdvance w (patchScheduledWhere sel p w).
Proof.
  intros H. split; [apply callsAdvance_refl|].
  unfold scheduledAdvance, patchScheduledWhere. cbn [scheduled with_scheduled].
  apply Forall2_map_same. intros r _.
  destruct (sel r) eqn:E; [|apply scheduledKeeps_refl].
  unfold scheduledKeeps, applyScheduledPatch. cbn. auto.
Qed.

Lemma markScheduled_advance env id p w :
  (sp_status p = Some executed \/ sp_status p = Some sc_failed) ->
  worldAdvance w (markScheduled env id p w)
  /\ calls (markScheduled env id p w) = calls w.
Proof.
  intros H. unfold markScheduled.
  destruct (serves env _); [|split; [apply worldAdvance_refl|reflexivity]].
  split; [|reflexivity].
  apply patchScheduledWhere_advance. intros r _.
  destruct H as [-> | ->]; cbn; apply scheduledRank_le_2.
Qed.

Lemma patchCall_end_advance env id p w :
  endsCall p = true -> worldAdvance w (patchCall env id p w).
Proof.
  intros H. unfold patchCall.
  destruct (serves env _); [|apply worldAdvance_refl].
  split; [|apply scheduledAdvance_refl].
  apply callsAdvance_same_length. unfold patchCallsById.
  cbn [calls with_calls]. apply Forall2_map_same. intros r _.
  destruct (Nat.eqb _ _); [now apply callKeeps_patch_end | apply callKeeps_refl].
Qed.

Lemma failJob_advance env sid callId message w :
  worldAdvance w (failJob env sid callId message w).
Proof.
  unfold failJob.
  set (p := mkScheduledPatch _ _ _ _ _ _).
  destruct (markScheduled_advance env sid p w (or_intror eq_refl)) as [H _].
  destruct callId as [id|]; [|exact H].
  eapply worldAdvance_trans; [exact H|].
  now apply patchCall_end_advance.
Qed.

Lemma patchCallsById_new_row id p w new :
  call_id new = id ->
  (forall c, In c (calls w) -> call_id c <> id) ->
  calls (patchCallsById id p (with_calls w (calls w ++ [new])))
  = (calls w ++ [applyCallPatch p new])%list.
Proof.
  intros Hid Hfresh. unfold patchCallsById. cbn [calls with_calls].
  rewrite map_app. cbn [map]. rewrite Hid, Nat.eqb_refl. f_equal.
  rewrite <- (map_id (calls w)) at 2. apply map_ext_in.
  intros c Hc. apply Hfresh in Hc. apply Nat.eqb_neq in Hc. now rewrite Hc.
Qed.

Lemma insertCall_advance nowMs u ts sched o to w :
  worldAdvance w (fst (insertCall nowMs u ts sched o to w)).
Proof.
  split; cbn; [apply callsAdvance_app | apply scheduledAdvance_refl].
Qed.

Lemma processJob_advance env w n job :
  worldAdvance w (fst (processJob env (w, n) job)).
Proof.
  unfold processJob.
  destruct (if serves env (GetProfile (sc_user job)) then _ else None) as [prof|];
    [|apply failJob_advance].
  destruct (negb (SetupStatus_eqb _ _)); [apply failJob_advance|].
  destruct (negb (Js.truthy (eleven_agent_id prof))); [apply failJob_advance|].
  destruct (negb (Js.truthy (phone_e164 prof))); [apply failJob_advance|].
  destruct (negb (serves env (InsertCall _))); [apply failJob_advance|].
  set (to := match phone_e164 prof with Some n0 => n0 | None => EmptyString end).
  pose proof (insertCall_advance (now env) (sc_user job) (sc_timestamp_id job)
                (Some (sc_id job)) scheduled_origin to w) as Hins.
  unfold insertCall in *. cbn [fst] in Hins.
  set (new := mkCall (freshCallId w) _ _ _ _ _ _ _ _ _ _ _ _ _) in *.
  set (w1 := with_calls w (calls w ++ [new])) in *.
  destruct (Nat.eqb (freshCallId w) 0).
  { cbn [fst]. eapply worldAdvance_trans; [exact Hins | apply failJob_advance]. }
  destruct (dial env (sc_id job)) as [m|code text|conv sid]; cbn [fst].
  - eapply worldAdvance_trans; [exact Hins | apply failJob_advance].
  - eapply worldAdvance_trans; [exact Hins | apply failJob_advance].
  - set (p := mkCallPatch (Some dialing) _ _ _ _ _ _).
    assert (H2 : worldAdvance w (patchCall env (freshCallId w) p w1)).
    { unfold patchCall. destruct (serves env _); [|exact Hins].
      split; [|apply scheduledAdvance_refl].
      unfold w1. rewrite patchCallsById_new_row.
      - apply callsAdvance_app.
      - reflexivity.
      - intros c Hc. apply fresh_id_above in Hc. lia. }
    eapply worldAdvance_trans; [exact H2|].
    apply markScheduled_advance. now left.
Qed.

Lemma processJobs_advance env jobs w n :
  worldAdvance w (fst (fold_left (processJob env) jobs (w, n))).
Proof.
  revert w n; induction jobs as [|job jobs IH]; intros w n; cbn [fold_left];
    [apply worldAdvance_refl|].
  destruct (processJob env (w, n) job) as [w1 n1] eqn:E.
  eapply worldAdvance_trans; [|apply IH].
  replace w1 with (fst (processJob env (w, n) job)) by now rewrite E.
  apply processJob_advance.
Qed.

Lemma isDue_pending nowMs r : isDue nowMs r = true -> sc_status r = pending.
Proof.
  unfold isDue. intros H. apply andb_prop in H. destruct H as [H _].
  destruct (sc_status r); try discriminate; reflexivity.
Qed.

Lemma claimGuard_pending id r :
  claimGuard id r = true -> sc_id r = id /\ sc_status r = pending.
Proof.
  unfold claimGuard. intros H. apply andb_prop in H. destruct H as [H1 H2].
  apply Nat.eqb_eq in H1. split; [exact H1|].
  destruct (sc_status r); try discriminate; reflexivity.
Qed.

Lemma claimRow_advance env w claimed row :
  worldAdvance w (fst (claimRow env (w, claimed) row)).
Proof.
  unfold claimRow. destruct (negb (serves env _)); [apply worldAdvance_refl|].
  cbn [fst]. apply patchScheduledWhere_advance.
  intros r Hr. apply claimGuard_pending in Hr. destruct Hr as [_ ->]. cbn. lia.
Qed.

Lemma claimRows_advance env rows w claimed :
  worldAdvance w (fst (fold_left (claimRow env) rows (w, claimed))).
Proof.
  revert w claimed; induction rows as [|row rows IH]; intros w claimed;
    cbn [fold_left];
    [apply worldAdvance_refl|].
  destruct (claimRow env (w, claimed) row) as [w1 c1] eqn:E.
  eapply worldAdvance_trans; [|apply IH].
  replace w1 with (fst (claimRow env (w, claimed) row)) by now rewrite E.
  apply claimRow_advance.
Qed.

Lemma rpcClaimDue_advance nowMs limit w :
  worldAdvance w (fst (rpcClaimDue nowMs limit w)).
Proof.
  unfold rpcClaimDue. cbn [fst]. apply patchScheduledWhere_advance.
  intros r Hr. apply andb_prop in Hr. destruct Hr as [_ Hr].
  apply isDue_pending in Hr. rewrite Hr. cbn. lia.
Qed.

Lemma sweep_advance env bodyLimit w :
  worldAdvance w (fst (Future.POST env bodyLimit w)).
Proof.
  unfold Future.POST.
  destruct (Z.leb _ 0); [apply worldAdvance_refl|].
  set (limit := Z.min _ _).
  unfold claimDueScheduled.
  destruct (serves env RpcClaimDue).
  - pose proof (rpcClaimDue_advance (now env) limit w) as H.
    destruct (rpcClaimDue (now env) limit w) as [w1 jobs]. cbn [fst] in H.
    pose proof (processJobs_advance env jobs w1 0) as H2.
    destruct (fold_left _ _ _) as [w2 n]. cbn [fst] in *.
    eapply worldAdvance_trans; eauto.
  - destruct (negb (serves env GetDueScheduled)); [apply worldAdvance_refl|].
    pose proof (claimRows_advance env (dueScheduled (now env) limit w) w []) as H.
    destruct (fold_left (claimRow env) _ _) as [w1 jobs]. cbn [fst] in H.
    pose proof (processJobs_advance env jobs w1 0) as H2.
    destruct (fold_left _ _ _) as [w2 n]. cbn [fst] in *.
    eapply worldAdvance_trans; eauto.
Qed.

Lemma cancel_advance env auth idParam w :
  worldAdvance w (fst (Schedule.DELETE env auth idParam w)).
Proof.
  unfold Schedule.DELETE.
  destruct auth as [u|]; [|apply worldAdvance_refl].
  destruct (negb (Js.nonempty u)); [apply worldAdvance_refl|].
  destruct idParam as [id|]; [|apply worldAdvance_refl].
  destruct (negb (Schedule.serves env _)); [apply worldAdvance_refl|].
  cbn [fst]. apply patchScheduledWhere_advance.
  intros r _. cbn. apply scheduledRank_le_2.
Qed.
End SweepProofs.

(* ------------------------------------------------------------------ *)
(** ** One active call per user *)
(* ------------------------------------------------------------------ *)

Section OneActiveCall.
Import Store Remote Calls Props.





End OneActiveCall.

Section CancelProofs.
Import Store Remote Schedule Props.

(** C7, as the code has it.  The cancel operation sets the user's
    scheduled call with the given id to [canceled], and stamps
    [updated_at], whatever the status of the row is; its PATCH is filtered
    by id and owner only.  Every other row is left as it is. *)
Theorem cancel_sets_canceled_from_any_status :
  forall (env : Schedule.Env) (userId : string) (callId : nat) (w : World),
    Js.nonempty userId = true ->
    serves env (CancelScheduled callId userId) = true ->
    snd (DELETE env (Some userId) (Some callId) w) = Success
    /\ Forall2 (fun r r' =>
                  if andb (Nat.eqb (sc_id r) callId)
                          (String.eqb (sc_user r) userId)
                  then sc_status r' = canceled
                       /\ sc_updated_at r' = Some (now env)
                       /\ sc_id r' = sc_id r /\ sc_user r' = sc_user r
                       /\ sc_scheduled_for r' = sc_scheduled_for r
                  else r' = r)
               (scheduled w)
               (scheduled (fst (DELETE env (Some userId) (Some callId) w))).
Proof.
  intros env userId callId w Hu Hs. unfold DELETE. rewrite Hu, Hs. cbn.
  split; [reflexivity|].
  induction (scheduled w) as [|r l IH]; cbn; constructor; [|exact IH].
  destruct (andb _ _); [repeat split|reflexivity].
Qed.

Lemma cancel_sets_canceled_from_any_status_witness :
  snd (DELETE Sample.scheduleEnv (Some Sample.alice) (Some 1%nat)
         (Sample.worldOf Sample.aliceReady [] [Sample.scheduledAt 1 pending 9000]))
  = Success.
Proof.
  exact (proj1 (cancel_sets_canceled_from_any_status Sample.scheduleEnv
                  Sample.alice 1
                  (Sample.worldOf Sample.aliceReady [] [Sample.scheduledAt 1 pending 9000])
                  eq_refl eq_refl)).
Defined.

(** C7, as stated, fails for a claimed row: the cancel operation takes a
    row from [executing] to [canceled]. *)
Lemma cancel_of_executing_row_changes_status :
  let w := Sample.worldOf Sample.aliceReady []
             [Sample.scheduledAt 1 executing 3000] in
  map sc_status (scheduled w) = [executing]
  /\ map sc_status
       (scheduled (fst (DELETE Sample.scheduleEnv (Some Sample.alice)
                          (Some 1%nat) w)))
     = [canceled].
Proof. split; reflexivity. Qed.
End CancelProofs.

Section SequencesOfOperations.
Import Store Remote Props.

Lemma updateProfileStatus_tables env u s x st :
  calls (Process.world (Process.updateProfileStatus env u s x st))
  = calls (Process.world st)
  /\ scheduled (Process.world (Process.updateProfileStatus env u s x st))
     = scheduled (Process.world st).
Proof.
  unfold Process.updateProfileStatus.
  destruct (Process.serves env _); split; reflexivity.
Qed.

Lemma transcribeAndExtract_tables env u body st :
  let '(_, _, st') := Process.transcribeAndExtract env u body st in
  calls (Process.world st') = calls (Process.world st)
  /\ scheduled (Process.world st') = scheduled (Process.world st).
Proof.
  unfold Process.transcribeAndExtract.
  destruct (Process.transcribeWithElevenLabs env) as [t|];
    [|split; reflexivity].
  destruct (Process.extractReflectionWithOpenAI env t) as [x|];
    [|split; reflexivity].
  destruct (Process.timestampId body) as [tid|]; [|split; reflexivity].
  destruct (Process.serves env _); split; reflexivity.
Qed.

Lemma cloneAndCreate_tables env u prompt transcript extracted st :
  calls (Process.world
           (fst (Process.cloneAndCreate env u prompt transcript extracted st)))
  = calls (Process.world st)
  /\ scheduled (Process.world
                  (fst (Process.cloneAndCreate env u prompt transcript
                          extracted st)))
     = scheduled (Process.world st).
Proof.
  unfold Process.cloneAndCreate.
  destruct (Process.voiceAdd env) as [text|vid]; cbn [fst].
  { rewrite (proj1 (updateProfileStatus_tables _ _ _ _ _)),
            (proj2 (updateProfileStatus_tables _ _ _ _ _)). cbn.
    apply updateProfileStatus_tables. }
  destruct (negb (Js.truthy vid)); cbn [fst].
  { rewrite (proj1 (updateProfileStatus_tables _ _ _ _ _)),
            (proj2 (updateProfileStatus_tables _ _ _ _ _)). cbn.
    apply updateProfileStatus_tables. }
  destruct (Process.agentCreate env) as [text|a b]; cbn [fst].
  { rewrite (proj1 (updateProfileStatus_tables _ _ _ _ _)),
            (proj2 (updateProfileStatus_tables _ _ _ _ _)). cbn.
    rewrite (proj1 (updateProfileStatus_tables _ _ _ _ _)),
            (proj2 (updateProfileStatus_tables _ _ _ _ _)). cbn.
    apply updateProfileStatus_tables. }
  destruct (negb (Js.truthy (Js.orS a b))); cbn [fst];
    rewrite (proj1 (updateProfileStatus_tables _ _ _ _ _)),
            (proj2 (updateProfileStatus_tables _ _ _ _ _)); cbn;
    rewrite (proj1 (updateProfileStatus_tables _ _ _ _ _)),
            (proj2 (updateProfileStatus_tables _ _ _ _ _)); cbn;
    apply updateProfileStatus_tables.
Qed.

(** The onboarding pipeline writes profiles and timestamps only. *)
Lemma onboarding_keeps_calls env auth body w :
  calls (Process.world (fst (Process.POST env auth body w))) = calls w
  /\ scheduled (Process.world (fst (Process.POST env auth body w)))
     = scheduled w.
Proof.
  unfold Process.POST.
  destruct auth as [userId|]; [|split; reflexivity].
  destruct (negb (Js.nonempty userId)); [split; reflexivity|].
  destruct body as [body|]; [|split; reflexivity].
  destruct (negb (Js.nonempty (Process.voiceSamplePath body)));
    [split; reflexivity|].
  destruct (negb (Process.serves env (GetProfile userId))); [split; reflexivity|].
  destruct (profilesOf userId w) as [|profile rest]; [split; reflexivity|].
  destruct (andb _ _); [split; reflexivity|].
  destruct (Process.loadTimestampMeta env userId body w
              (Process.emit (Process.Asked (GetProfile userId))
                 (Process.mkState w []))) as [tsMeta st2] eqn:E.
  assert (H2 : Process.world st2 = w).
  { replace st2 with (snd (Process.loadTimestampMeta env userId body w
              (Process.emit (Process.Asked (GetProfile userId))
                 (Process.mkState w [])))) by now rewrite E.
    now rewrite loadTimestampMeta_world. }
  destruct (negb (Process.signedUrlOk env)); cbn [fst].
  { rewrite (proj1 (updateProfileStatus_tables _ _ _ _ _)),
            (proj2 (updateProfileStatus_tables _ _ _ _ _)). cbn.
    rewrite (proj1 (updateProfileStatus_tables _ _ _ _ _)),
            (proj2 (updateProfileStatus_tables _ _ _ _ _)), H2.
    split; reflexivity. }
  destruct (negb (Process.downloadOk env)); cbn [fst].
  { rewrite (proj1 (updateProfileStatus_tables _ _ _ _ _)),
            (proj2 (updateProfileStatus_tables _ _ _ _ _)). cbn.
    rewrite (proj1 (updateProfileStatus_tables _ _ _ _ _)),
            (proj2 (updateProfileStatus_tables _ _ _ _ _)), H2.
    split; reflexivity. }
  pose proof (transcribeAndExtract_tables env userId body
    (Process.emit (Process.Called Process.StorageDownload)
       (Process.emit (Process.Called Process.StorageSignUrl)
          (Process.updateProfileStatus env userId voice_uploaded
             Process.noExtra st2)))) as Hk.
  destruct (Process.transcribeAndExtract env userId body _)
    as [[transcript extracted] st6].
  rewrite (proj1 (cloneAndCreate_tables _ _ _ _ _ _)),
          (proj2 (cloneAndCreate_tables _ _ _ _ _ _)).
  destruct Hk as [Hc Hs]. rewrite Hc, Hs. cbn.
  rewrite (proj1 (updateProfileStatus_tables _ _ _ _ _)),
          (proj2 (updateProfileStatus_tables _ _ _ _ _)), H2.
  split; reflexivity.
Qed.

Lemma apply_advance w op : worldAdvance w (Core.apply w op).
Proof.
  destruct op as [env auth body|env auth|env bodyLimit|env auth idParam];
    cbn [Core.apply].
  - destruct (onboarding_keeps_calls env auth body w) as [Hc Hs].
    unfold worldAdvance. rewrite Hc, Hs.
    split; [apply callsAdvance_refl | apply scheduledAdvance_refl].
  - destruct (POST_callsAdvance env auth w) as [H1 H2].
    split; [exact H1|]. rewrite H2. apply scheduledAdvance_refl.
  - apply sweep_advance.
  - apply cancel_advance.
Qed.

Lemma run_advance ops w : worldAdvance w (Core.run ops w).
Proof.
  unfold Core.run. revert w. induction ops as [|op ops IH]; intros w;
    cbn [fold_left]; [apply worldAdvance_refl|].
  eapply worldAdvance_trans; [apply apply_advance | apply IH].
Qed.
End SequencesOfOperations.

Section Monotonicity.
Import Store Remote Props.

(** C3, as the code has it.  Along every sequence of operations of the
    core (onboarding, dispatcher, sweep, cancel, in any environments) every
    call and every scheduled call stays at the same or a later rank of
    [queued < dialing < in_progress < completed | failed] and
    [pending < executing < executed | failed | canceled].  The setup
    status moves forward within one onboarding run only: the statuses a run
    writes are nothing, or [voice_uploaded] followed by a strictly forward
    run through [voice_created], [agent_created], [ready] that may end in
    [error], and the run starts at [voice_uploaded] whatever status the
    profile had. *)
Theorem statuses_move_forward_except_onboarding_restart :
  (forall (ops : list Core.Operation) (w : World),
     worldAdvance w (Core.run ops w))
  /\ (forall (env : Process.Env) auth body (w : World),
        let ws := Process.statusWrites
                    (Process.trace (fst (Process.POST env auth body w))) in
        forwardThenError 0 ws = true
        /\ (ws = [] \/ exists later, ws = voice_uploaded :: later)).
Proof.
  split.
  - apply run_advance.
  - intros env auth body w. cbv zeta.
    pose proof (POST_statusWrites env auth body w) as H. cbv zeta in H.
    destruct H as [->|[->|[->|[->| ->]]]]; split; try reflexivity;
      try (now left); right; eexists; reflexivity.
Qed.

(** C3, as stated, fails: a run on a profile that is at [agent_created]
    writes [voice_uploaded] first, and the store has the profile at
    [voice_uploaded] after that write. *)
Lemma onboarding_rerun_writes_voice_uploaded_again :
  let w := Sample.worldOf
             (Sample.profileOf agent_created (Some "voice_1") None) [] [] in
  let env := Sample.processEnv Sample.allServed None (fun _ => None) in
  let run := Process.POST env (Some Sample.alice) (Some Sample.body1) w in
  map setup_status (profiles w) = [agent_created]
  /\ Process.statusWrites (Process.trace (fst run))
     = [voice_uploaded; voice_created; agent_created; ready]
  /\ map setup_status
       (profiles (Process.world
                    (Process.updateProfileStatus env Sample.alice
                       voice_uploaded Process.noExtra (Process.mkState w []))))
     = [voice_uploaded]
  /\ (setupRank voice_uploaded < setupRank agent_created)%nat.
Proof. cbv zeta. repeat split; cbn; lia. Qed.
End Monotonicity.

(* ------------------------------------------------------------------ *)
(** ** Concurrent claims of a due row *)
(* ------------------------------------------------------------------ *)

Section AloneProofs.
Import Store Remote Future Props.

Lemma exec_cons i schedule c :
  exec (i :: schedule) c = exec schedule (stepConfig c i).
Proof. reflexivity. Qed.

Lemma stepConfig_single w a :
  stepConfig (w, [a]) 0 = (fst (stepAttempt w a), [snd (stepAttempt w a)]).
Proof.
  unfold stepConfig. cbn [fst snd stepNth]. now destruct (stepAttempt w a).
Qed.

Lemma finished_stutters n w a :
  finished a = true ->
  exec (repeat 0%nat n) (w, [a]) = (w, [a]).
Proof.
  intros H. induction n as [|n IH]; [reflexivity|].
  cbn [repeat]. rewrite exec_cons, stepConfig_single.
  replace (stepAttempt w a) with (w, a); [exact IH|].
  unfold stepAttempt. unfold finished in H.
  destruct (a_phase a); try discriminate; reflexivity.
Qed.

Lemma claiming_alone env limit due claimed w :
  due <> [] ->
  exec (repeat 0%nat (List.length due))
       (w, [mkAttempt env limit (Claiming due claimed)])
  = (fst (fold_left (claimRow env) due (w, claimed)),
     [mkAttempt env limit
        (Returned (snd (fold_left (claimRow env) due (w, claimed))))]).
Proof.
  revert w claimed. induction due as [|row rest IH]; intros w claimed Hne;
    [congruence|].
  cbn [List.length repeat]. rewrite exec_cons, stepConfig_single.
  unfold stepAttempt. cbn [a_phase a_env fold_left].
  destruct (claimRow env (w, claimed) row) as [w1 c1]. cbn [fst snd].
  destruct rest as [|row2 rest2].
  - reflexivity.
  - unfold setPhase. cbn [a_env a_limit].
    rewrite IH by discriminate. reflexivity.
Qed.

(** An invocation that runs alone goes through its requests to the result
    of [claimDueScheduled]. *)
Lemma attempt_alone_is_claimDueScheduled env limit w :
  exec (repeat 0%nat (S (S (List.length (dueScheduled (now env) limit w)))))
       (w, [mkAttempt env limit BeforeRpc])
  = match claimDueScheduled env limit w with
    | Some (w', jobs) => (w', [mkAttempt env limit (Returned jobs)])
    | None => (w, [mkAttempt env limit Threw])
    end.
Proof.
  unfold claimDueScheduled.
  cbn [repeat]. rewrite exec_cons, stepConfig_single.
  unfold stepAttempt at 1 2. cbn [a_phase a_env a_limit].
  destruct (serves env RpcClaimDue).
  - destruct (rpcClaimDue (now env) limit w) as [w1 jobs].
    unfold setPhase. cbn [a_env a_limit fst snd].
    change (0%nat :: repeat 0%nat ?n) with (repeat 0%nat (S n)).
    now rewrite finished_stutters.
  - unfold setPhase. cbn [a_env a_limit fst snd].
    rewrite exec_cons, stepConfig_single.
    unfold stepAttempt. cbn [a_phase a_env a_limit].
    destruct (serves env GetDueScheduled); cbn [negb].
    + destruct (dueScheduled (now env) limit w) as [|d ds] eqn:Ed.
      * reflexivity.
      * unfold setPhase. cbn [a_env a_limit fst snd].
        rewrite claiming_alone by discriminate.
        destruct (fold_left (claimRow env) (d :: ds) (w, [])); reflexivity.
    + unfold setPhase. cbn [a_env a_limit fst snd]. now rewrite finished_stutters.
Qed.
End AloneProofs.

Section ClaimFacts.
Import Store Remote Future Props.

Lemma patchScheduledWhere_ids sel p w :
  map sc_id (scheduled (patchScheduledWhere sel p w)) = map sc_id (scheduled w).
Proof.
  unfold patchScheduledWhere. cbn [scheduled with_scheduled].
  rewrite map_map. apply map_ext. intros r. destruct (sel r); reflexivity.
Qed.

Lemma row_of_id w rx r :
  uniqueScheduledIds w -> In rx (scheduled w) -> In r (scheduled w) ->
  sc_id r = sc_id rx -> r = rx.
Proof.
  unfold uniqueScheduledIds. induction (scheduled w) as [|a l IH]; cbn; [tauto|].
  intros H Hx Hr E. inversion H as [|? ? Hn Hl]; subst.
  destruct Hx as [->|Hx], Hr as [->|Hr]; auto.
  - exfalso. apply Hn. rewrite <- E. now apply in_map.
  - exfalso. apply Hn. rewrite E. now apply in_map.
Qed.

Lemma filter_id_absent (l : list ScheduledRow) x :
  ~ In x (map sc_id l) -> filter (fun r => Nat.eqb (sc_id r) x) l = [].
Proof.
  induction l as [|b l IH]; cbn; [reflexivity|]. intros Hn.
  destruct (Nat.eqb (sc_id b) x) eqn:E.
  - apply Nat.eqb_eq in E. exfalso. apply Hn. now left.
  - apply IH. intros Hin. apply Hn. now right.
Qed.

Lemma statusOf_unique w rx :
  uniqueScheduledIds w -> In rx (scheduled w) ->
  statusOf (sc_id rx) w = [sc_status rx].
Proof.
  unfold uniqueScheduledIds, statusOf.
  induction (scheduled w) as [|a l IH]; cbn; [tauto|].
  intros H Hx. inversion H as [|? ? Hn Hl]; subst.
  destruct Hx as [Hx|Hx].
  - subst a. rewrite Nat.eqb_refl. cbn. now rewrite (filter_id_absent l _ Hn).
  - destruct (Nat.eqb (sc_id a) (sc_id rx)) eqn:E; [|now apply IH].
    apply Nat.eqb_eq in E. exfalso. apply Hn. rewrite E. now apply in_map.
Qed.

(** The patched row of [rx] is in the patched table. *)
Lemma patched_row_in (sel : ScheduledRow -> bool) p w rx :
  In rx (scheduled w) ->
  In (if sel rx then applyScheduledPatch p rx else rx)
     (scheduled (patchScheduledWhere sel p w)).
Proof.
  intros H. unfold patchScheduledWhere. cbn [scheduled with_scheduled].
  apply in_map_iff. exists rx. auto.
Qed.

(** Whether the representation returned by a PATCH has the row [rx]. *)
Lemma patched_has_row (sel : ScheduledRow -> bool) p w rx :
  uniqueScheduledIds w -> In rx (scheduled w) ->
  existsb (fun r => Nat.eqb (sc_id r) (sc_id rx)) (patchedScheduled sel p w)
  = sel rx.
Proof.
  intros Hu Hx. unfold patchedScheduled.
  destruct (sel rx) eqn:E.
  - apply existsb_exists. exists (applyScheduledPatch p rx). split.
    + apply in_map. apply filter_In. auto.
    + cbn. apply Nat.eqb_refl.
  - apply not_true_is_false. intros H. apply existsb_exists in H.
    destruct H as [r' [Hin Hid]]. apply in_map_iff in Hin.
    destruct Hin as [r [<- Hr]]. apply filter_In in Hr. destruct Hr as [Hr Hs].
    cbn in Hid. apply Nat.eqb_eq in Hid.
    rewrite (row_of_id w rx r Hu Hx Hr Hid) in Hs. congruence.
Qed.

Lemma patchedScheduled_ids (sel : ScheduledRow -> bool) p w r :
  In r (patchedScheduled sel p w) ->
  exists r0, In r0 (scheduled w) /\ sel r0 = true /\ sc_id r = sc_id r0.
Proof.
  unfold patchedScheduled. intros H. apply in_map_iff in H.
  destruct H as [r0 [<- Hr]]. apply filter_In in Hr. exists r0.
  destruct Hr. auto.
Qed.

Lemma dueCount_patch_executing nowMs sel p w :
  sp_status p = Some executing ->
  (dueCount nowMs (patchScheduledWhere sel p w) <= dueCount nowMs w)%nat.
Proof.
  intros Hp. unfold dueCount, patchScheduledWhere. cbn [scheduled with_scheduled].
  apply filter_map_le. intros r _.
  destruct (sel r); [|auto].
  unfold isDue, applyScheduledPatch. cbn. rewrite Hp. cbn. discriminate.
Qed.

(** With a limit that covers the due rows, the read returns each of
    them. *)
Lemma due_row_is_read nowMs limit w rx :
  Z.of_nat (dueCount nowMs w) <= limit ->
  In rx (scheduled w) -> isDue nowMs rx = true ->
  In rx (dueScheduled nowMs limit w).
Proof.
  intros Hc Hx Hd. unfold dueScheduled.
  rewrite firstn_all2.
  - apply (Permutation_in _ (Permutation_sym (sortBy_perm scheduledAsc _))).
    apply filter_In. auto.
  - rewrite (Permutation_length (sortBy_perm scheduledAsc _)).
    unfold dueCount in Hc. lia.
Qed.

Lemma in_ids_existsb (l : list ScheduledRow) rx :
  In rx l -> existsb (fun d => Nat.eqb (sc_id d) (sc_id rx)) l = true.
Proof.
  intros H. apply existsb_exists. exists rx. split; [exact H|apply Nat.eqb_refl].
Qed.
End ClaimFacts.

Section ClaimStep.
Import Store Remote Future Props.

(** A guarded PATCH to [executing], seen from one row. *)
Lemma guarded_patch_row (sel : ScheduledRow -> bool) p w rx :
  In rx (scheduled w) ->
  sp_status p = Some executing ->
  (sel rx = true -> sc_status rx = pending) ->
  exists rx1,
    In rx1 (scheduled (patchScheduledWhere sel p w))
    /\ sc_id rx1 = sc_id rx
    /\ sc_scheduled_for rx1 = sc_scheduled_for rx
    /\ ((sel rx = false /\ rx1 = rx)
        \/ (sel rx = true /\ sc_status rx = pending
            /\ sc_status rx1 = executing)).
Proof.
  intros Hx Hp Hsel.
  exists (if sel rx then applyScheduledPatch p rx else rx).
  split; [now apply patched_row_in|].
  destruct (sel rx) eqn:E.
  - repeat split. right. repeat split; auto.
    unfold applyScheduledPatch. cbn. now rewrite Hp.
  - repeat split. now left.
Qed.

Lemma hasClaimed_phase x a p :
  hasClaimed x (setPhase a p)
  = existsb (fun r => Nat.eqb (sc_id r) x)
      (match p with
       | Returned jobs => jobs
       | Claiming _ claimed => claimed
       | _ => []
       end).
Proof. reflexivity. Qed.

Lemma isDue_of nowMs rx :
  sc_status rx = pending -> sc_scheduled_for rx <= nowMs -> isDue nowMs rx = true.
Proof.
  intros Hs Hd. unfold isDue. rewrite Hs. cbn. now apply Z.leb_le.
Qed.

Lemma stepFacts_idle w a rx p :
  In rx (scheduled w) ->
  hasClaimed (sc_id rx) (setPhase a p) = hasClaimed (sc_id rx) a ->
  (sc_status rx = pending -> awaits (sc_id rx) a = true ->
   sc_scheduled_for rx <= now (a_env a) -> servedClaims a -> covers a w ->
   awaits (sc_id rx) (setPhase a p) = true) ->
  stepFacts w a rx w (setPhase a p).
Proof.
  intros Hx Hc Ha. unfold stepFacts. repeat split; try reflexivity; try lia.
  exists rx. repeat split; auto.
Qed.

Lemma stepAttempt_rpc w a rx :
  uniqueScheduledIds w -> In rx (scheduled w) ->
  a_phase a = BeforeRpc ->
  stepFacts w a rx
    (fst (rpcClaimDue (now (a_env a)) (a_limit a) w))
    (setPhase a (Returned (snd (rpcClaimDue (now (a_env a)) (a_limit a) w)))).
Proof.
  intros Hu Hx Hph. unfold rpcClaimDue. cbn [fst snd].
  set (due := dueScheduled (now (a_env a)) (a_limit a) w).
  set (sel := fun r : ScheduledRow =>
                andb (existsb (fun d => Nat.eqb (sc_id d) (sc_id r)) due)
                     (isDue (now (a_env a)) r)).
  set (p := mkScheduledPatch (Some executing) None None None None None).
  assert (Hsel : sel rx = true -> sc_status rx = pending).
  { unfold sel. intros H. apply andb_prop in H. destruct H as [_ H].
    now apply isDue_pending in H. }
  destruct (guarded_patch_row sel p w rx Hx eq_refl Hsel)
    as (rx1 & Hin1 & Hid1 & Hsf1 & Hcase).
  unfold stepFacts. split; [apply patchScheduledWhere_ids|].
  split; [reflexivity|]. split; [reflexivity|].
  split; [intros nowMs; now apply dueCount_patch_executing|].
  exists rx1. split; [exact Hin1|]. split; [exact Hid1|]. split; [exact Hsf1|].
  rewrite hasClaimed_phase, (patched_has_row sel p w rx Hu Hx).
  split.
  - destruct Hcase as [[E ->]|(E & Hs & Hs1)].
    + left. split; [reflexivity|]. rewrite E.
      unfold hasClaimed, jobsOf. now rewrite Hph.
    + right. auto.
  - intros Hpend _ Hdue _ Hcov Hp1. exfalso.
    assert (Hd : isDue (now (a_env a)) rx = true) by now apply isDue_of.
    assert (E : sel rx = true).
    { unfold sel. rewrite Hd, andb_true_r. apply in_ids_existsb.
      now apply due_row_is_read. }
    destruct Hcase as [[E' _]|(_ & _ & Hs1)]; congruence.
Qed.

Lemma stepAttempt_claim w a rx row rest claimed :
  uniqueScheduledIds w -> In rx (scheduled w) ->
  a_phase a = Claiming (row :: rest) claimed ->
  let r := claimRow (a_env a) (w, claimed) row in
  stepFacts w a rx (fst r)
    (setPhase a (match rest with
                 | [] => Returned (snd r)
                 | _ => Claiming rest (snd r)
                 end)).
Proof.
  intros Hu Hx Hph. cbv zeta. unfold claimRow.
  assert (Hjobs : forall c,
            hasClaimed (sc_id rx)
              (setPhase a (match rest with
                           | [] => Returned c
                           | _ => Claiming rest c
                           end))
            = existsb (fun r => Nat.eqb (sc_id r) (sc_id rx)) c).
  { intros c. rewrite hasClaimed_phase. destruct rest; reflexivity. }
  assert (Hold : hasClaimed (sc_id rx) a
                 = existsb (fun r => Nat.eqb (sc_id r) (sc_id rx)) claimed).
  { unfold hasClaimed, jobsOf. now rewrite Hph. }
  assert (Haw : forall c,
            Nat.eqb (sc_id row) (sc_id rx) = false ->
            awaits (sc_id rx) a = true ->
            awaits (sc_id rx)
              (setPhase a (match rest with
                           | [] => Returned c
                           | _ => Claiming rest c
                           end)) = true).
  { intros c Hne. unfold awaits. rewrite Hph. cbn [existsb]. rewrite Hne.
    cbn [orb]. destruct rest; cbn; auto. }
  destruct (serves (a_env a) (ClaimScheduled (sc_id row))) eqn:Hs; cbn [negb fst snd].
  2:{ unfold stepFacts. repeat split; try reflexivity; try lia.
      exists rx. repeat split; auto.
      - left. split; [reflexivity|]. now rewrite Hjobs, Hold.
      - intros _ _ _ [_ Hall] _ _. rewrite Hall in Hs. discriminate. }
  set (sel := claimGuard (sc_id row)).
  set (p := claimPatch (now (a_env a)) row).
  assert (Hsel : sel rx = true -> sc_status rx = pending).
  { unfold sel. intros H. now apply claimGuard_pending in H. }
  destruct (guarded_patch_row sel p w rx Hx eq_refl Hsel)
    as (rx1 & Hin1 & Hid1 & Hsf1 & Hcase).
  pose proof (patched_has_row sel p w rx Hu Hx) as Hhas.
  unfold stepFacts. split; [apply patchScheduledWhere_ids|].
  split; [reflexivity|]. split; [reflexivity|].
  split; [intros nowMs; now apply dueCount_patch_executing|].
  exists rx1. split; [exact Hin1|]. split; [exact Hid1|]. split; [exact Hsf1|].
  rewrite Hjobs. split.
  - destruct Hcase as [[E ->]|(E & Hst & Hs1)].
    + left. split; [reflexivity|]. rewrite Hold.
      destruct (patchedScheduled sel p w) as [|u us] eqn:Eu; [reflexivity|].
      rewrite existsb_app. cbn [existsb].
      rewrite E in Hhas. cbn [existsb] in Hhas.
      apply orb_false_elim in Hhas. destruct Hhas as [-> _].
      now rewrite !orb_false_r.
    + right. split; [exact Hst|]. split; [exact Hs1|].
      destruct (patchedScheduled sel p w) as [|u us] eqn:Eu.
      * rewrite E in Hhas. discriminate.
      * rewrite existsb_app. cbn [existsb].
        assert (Hu' : In u (patchedScheduled sel p w)) by (rewrite Eu; now left).
        apply patchedScheduled_ids in Hu'.
        destruct Hu' as (r0 & _ & Hs0 & Hid0).
        apply claimGuard_pending in Hs0. destruct Hs0 as [Hs0 _].
        unfold sel in E. apply claimGuard_pending in E. destruct E as [E _].
        assert (Eq : Nat.eqb (sc_id u) (sc_id rx) = true)
          by (apply Nat.eqb_eq; congruence).
        rewrite Eq. now rewrite orb_true_r.
  - intros Hpend Haw0 _ _ _ Hp1.
    destruct (Nat.eqb (sc_id row) (sc_id rx)) eqn:Hne; [|now apply Haw].
    exfalso.
    assert (E : sel rx = true).
    { unfold sel, claimGuard. rewrite Nat.eqb_sym, Hne, Hpend. reflexivity. }
    destruct Hcase as [[E' _]|(_ & _ & Hs1)]; congruence.
Qed.

(** One request of one attempt, seen from the row [rx]. *)
Lemma stepAttempt_facts w a rx :
  uniqueScheduledIds w -> In rx (scheduled w) ->
  stepFacts w a rx (fst (stepAttempt w a)) (snd (stepAttempt w a)).
Proof.
  intros Hu Hx. unfold stepAttempt.
  destruct (a_phase a) as [| |due claimed|jobs|] eqn:Hph.
  - destruct (serves (a_env a) RpcClaimDue).
    + pose proof (stepAttempt_rpc w a rx Hu Hx Hph) as H.
      destruct (rpcClaimDue _ _ w) as [w1 jobs]. exact H.
    + cbn [fst snd]. apply stepFacts_idle; auto.
      unfold hasClaimed, jobsOf. cbn. now rewrite Hph.
  - destruct (serves (a_env a) GetDueScheduled) eqn:Hs; cbn [negb].
    2:{ cbn [fst snd]. apply stepFacts_idle; auto.
        - unfold hasClaimed, jobsOf. cbn. now rewrite Hph.
        - intros _ _ _ [Hg _]. rewrite Hg in Hs. discriminate. }
    destruct (dueScheduled (now (a_env a)) (a_limit a) w) as [|d ds] eqn:Ed;
      cbn [fst snd].
    + apply stepFacts_idle; auto.
      * unfold hasClaimed, jobsOf. cbn. now rewrite Hph.
      * intros Hpend _ Hdue _ Hcov. exfalso.
        assert (Hin : In rx (dueScheduled (now (a_env a)) (a_limit a) w)).
        { apply due_row_is_read; auto. now apply isDue_of. }
        rewrite Ed in Hin. contradiction.
    + apply stepFacts_idle; auto.
      * unfold hasClaimed, jobsOf. cbn. now rewrite Hph.
      * intros Hpend _ Hdue _ Hcov. unfold awaits. cbn [a_phase setPhase].
        rewrite <- Ed. apply in_ids_existsb.
        apply due_row_is_read; auto. now apply isDue_of.
  - destruct due as [|row rest].
    + cbn [fst snd]. apply stepFacts_idle; auto.
      * unfold hasClaimed, jobsOf. cbn. now rewrite Hph.
      * intros _ Haw. unfold awaits in Haw. rewrite Hph in Haw. discriminate.
    + pose proof (stepAttempt_claim w a rx row rest claimed Hu Hx Hph) as H.
      cbv zeta in H. destruct (claimRow (a_env a) (w, claimed) row) as [w1 c1].
      exact H.
  - cbn [fst snd]. unfold stepFacts. repeat split; try reflexivity; try lia.
    exists rx. repeat split; auto.
  - cbn [fst snd]. unfold stepFacts. repeat split; try reflexivity; try lia.
    exists rx. repeat split; auto.
Qed.
End ClaimStep.

Section Interleaving.
Import Store Remote Future Props.

Lemma stepNth_split i w l :
  stepNth i w l = (w, l)
  \/ exists pre a post,
       l = (pre ++ a :: post)%list
       /\ stepNth i w l
          = (fst (stepAttempt w a), (pre ++ snd (stepAttempt w a) :: post)%list).
Proof.
  revert i; induction l as [|a l IH]; intros i; [destruct i; now left|].
  destruct i as [|j]; cbn [stepNth].
  - right. exists [], a, l. split; [reflexivity|].
    destruct (stepAttempt w a); reflexivity.
  - destruct (IH j) as [E|(pre & b & post & -> & E)]; rewrite E.
    + now left.
    + right. exists (a :: pre), b, post. split; reflexivity.
Qed.

Lemma claimers_split x pre a post :
  claimers x (pre ++ a :: post)
  = (claimers x pre + (if hasClaimed x a then 1 else 0) + claimers x post)%nat.
Proof.
  unfold claimers. rewrite filter_app, length_app. cbn [filter].
  destruct (hasClaimed x a); cbn [List.length]; lia.
Qed.

Lemma isExecuting_row w rx :
  uniqueScheduledIds w -> In rx (scheduled w) ->
  isExecuting (sc_id rx) w = ScheduledStatus_eqb executing (sc_status rx).
Proof.
  intros Hu Hx. unfold isExecuting. rewrite (statusOf_unique w rx Hu Hx).
  cbn. now rewrite orb_false_r.
Qed.

(** One step of the interleaving keeps the claim of the row exclusive,
    and an [executing] row stays [executing]. *)
Lemma step_safe x sf c i :
  claimSafe x sf c ->
  claimSafe x sf (stepConfig c i)
  /\ (isExecuting x (fst c) = true -> isExecuting x (fst (stepConfig c i)) = true).
Proof.
  destruct c as [w l]. unfold stepConfig, claimSafe. cbn [fst snd].
  intros (Hu & rx & Hx & Hid & Hsf & Hcase).
  destruct (stepNth_split i w l) as [E|(pre & a & post & -> & E)]; rewrite E.
  { split; [|auto]. split; [exact Hu|]. exists rx. auto. }
  cbn [fst snd].
  destruct (stepAttempt_facts w a rx Hu Hx)
    as (Hids & _ & _ & _ & rx1 & Hin1 & Hid1 & Hsf1 & Hstep & _).
  assert (Hu1 : uniqueScheduledIds (fst (stepAttempt w a))).
  { unfold uniqueScheduledIds in *. now rewrite Hids. }
  subst x sf. split.
  - split; [exact Hu1|]. exists rx1.
    split; [exact Hin1|]. split; [exact Hid1|]. split; [exact Hsf1|].
    rewrite claimers_split in *.
    destruct Hstep as [[-> Hc]|(Hp & He & Hc)].
    + rewrite Hc. exact Hcase.
    + right. split; [exact He|]. rewrite Hc.
      destruct Hcase as [[_ H0]|[H1 _]]; [|congruence].
      destruct (hasClaimed (sc_id rx) a); lia.
  - rewrite (isExecuting_row w rx Hu Hx).
    rewrite <- Hid1, (isExecuting_row _ rx1 Hu1 Hin1).
    destruct Hstep as [[-> _]|(Hp & He & _)]; [auto|].
    rewrite Hp. discriminate.
Qed.

Lemma step_live x sf c i :
  claimSafe x sf c -> attemptsReady sf c -> claimLive x c ->
  claimLive x (stepConfig c i) /\ attemptsReady sf (stepConfig c i).
Proof.
  destruct c as [w l]. unfold stepConfig, claimLive, attemptsReady, claimSafe.
  cbn [fst snd].
  intros (Hu & rx & Hx & Hid & Hsf & Hcase) Hready Hlive.
  destruct (stepNth_split i w l) as [E|(pre & a & post & -> & E)]; rewrite E.
  { auto. }
  cbn [fst snd].
  destruct (stepAttempt_facts w a rx Hu Hx)
    as (Hids & Henv & Hlim & Hdue & rx1 & Hin1 & Hid1 & Hsf1 & Hstep & Hprog).
  assert (Hu1 : uniqueScheduledIds (fst (stepAttempt w a))).
  { unfold uniqueScheduledIds in *. now rewrite Hids. }
  subst x sf.
  apply Forall_app in Hready. destruct Hready as [Rpre Rrest].
  inversion Rrest as [|? ? Ra Rpost]; subst.
  split.
  - rewrite <- Hid1, (isExecuting_row _ rx1 Hu1 Hin1). intros Hne.
    assert (Hp1 : sc_status rx1 = pending).
    { destruct Hstep as [[-> _]|(_ & He & _)].
      - destruct Hcase as [[Hp _]|[He _]]; [exact Hp|].
        rewrite He in Hne. discriminate.
      - rewrite He in Hne. discriminate. }
    assert (Hp : sc_status rx = pending).
    { destruct Hstep as [[<- _]|(Hp & _)]; auto. }
    assert (Hl : Forall (fun a0 => awaits (sc_id rx) a0 = true) (pre ++ a :: post)).
    { apply Hlive. rewrite (isExecuting_row w rx Hu Hx), Hp. reflexivity. }
    apply Forall_app in Hl. destruct Hl as [Lpre Lrest].
    inversion Lrest as [|? ? La Lpost]; subst.
    apply Forall_app. split; [rewrite Hid1; exact Lpre|].
    constructor; [|rewrite Hid1; exact Lpost].
    rewrite Hid1. destruct Ra as (R1 & R2 & R3).
    apply Hprog; auto.
  - assert (Hcov : forall b, covers b w -> covers b (fst (stepAttempt w a))).
    { intros b. unfold covers. intros Hb.
      specialize (Hdue (now (a_env b))). lia. }
    apply Forall_app. split.
    + revert Rpre. apply Forall_impl. intros b (B1 & B2 & B3). auto.
    + constructor.
      * destruct Ra as (R1 & R2 & R3). unfold servedClaims, covers in *.
        rewrite Henv, Hlim. repeat split; try tauto.
        specialize (Hdue (now (a_env a))). lia.
      * revert Rpost. apply Forall_impl. intros b (B1 & B2 & B3). auto.
Qed.

Lemma exec_safe x sf schedule c :
  claimSafe x sf c -> claimSafe x sf (exec schedule c).
Proof.
  revert c; induction schedule as [|i rest IH]; intros c H; cbn; [exact H|].
  apply IH. now apply step_safe.
Qed.

Lemma exec_live x sf schedule c :
  claimSafe x sf c -> attemptsReady sf c -> claimLive x c ->
  claimLive x (exec schedule c).
Proof.
  revert c; induction schedule as [|i rest IH]; intros c Hs Hr Hl; cbn;
    [exact Hl|].
  destruct (step_live x sf c i Hs Hr Hl) as [Hl1 Hr1].
  apply IH; auto. now apply step_safe.
Qed.

(** The row goes to [executing] as often as it is found [executing] at
    the end without having been so at the start. *)
Lemma transitions_count x sf schedule c :
  claimSafe x sf c ->
  (executingTransitions x schedule c
   + (if isExecuting x (fst c) then 1 else 0)
   = if isExecuting x (fst (exec schedule c)) then 1 else 0)%nat.
Proof.
  revert c; induction schedule as [|i rest IH]; intros c Hs; cbn [exec fold_left];
    [reflexivity|].
  destruct (step_safe x sf c i Hs) as [Hs1 Hmono].
  specialize (IH _ Hs1). cbn [executingTransitions].
  fold (isExecuting x (fst c)). fold (isExecuting x (fst (stepConfig c i))).
  unfold exec in *.
  destruct (isExecuting x (fst c)) eqn:E0.
  - rewrite (Hmono eq_refl) in *. cbn [negb andb]. lia.
  - destruct (isExecuting x (fst (stepConfig c i))); cbn [negb andb]; lia.
Qed.

Lemma fresh_attempts_claim_nothing x l :
  Forall (fun a => a_phase a = BeforeRpc) l -> claimers x l = 0%nat.
Proof.
  unfold claimers. induction 1 as [|a l Ha _ IH]; [reflexivity|]. cbn [filter].
  unfold hasClaimed at 1, jobsOf. rewrite Ha. cbn. exact IH.
Qed.

Lemma exec_length schedule w l :
  List.length (snd (exec schedule (w, l))) = List.length l.
Proof.
  revert w l. induction schedule as [|i rest IH]; intros w l;
    cbn [exec fold_left]; [reflexivity|].
  unfold exec in IH. unfold stepConfig at 2. cbn [fst snd].
  destruct (stepNth_split i w l) as [E|(pre & a & post & -> & E)]; rewrite E.
  - apply IH.
  - rewrite IH, !length_app. reflexivity.
Qed.

(** Exclusivity alone, whatever the store answers: among attempts that
    start fresh, never two have claimed a pending row. *)
Lemma claim_never_doubles schedule w attempts r :
  uniqueScheduledIds w ->
  In r (scheduled w) ->
  sc_status r = pending ->
  Forall (fun a => a_phase a = BeforeRpc) attempts ->
  (claimers (sc_id r) (snd (exec schedule (w, attempts))) <= 1)%nat
  /\ (executingTransitions (sc_id r) schedule (w, attempts) <= 1)%nat.
Proof.
  intros Hu Hx Hp Hfresh.
  assert (H0 : claimSafe (sc_id r) (sc_scheduled_for r) (w, attempts)).
  { split; [exact Hu|]. exists r. repeat split; auto. left. split; [exact Hp|].
    now apply fresh_attempts_claim_nothing. }
  pose proof (exec_safe (sc_id r) (sc_scheduled_for r) schedule (w, attempts) H0)
    as (_ & rx & _ & _ & _ & Hcase).
  pose proof (transitions_count (sc_id r) (sc_scheduled_for r) schedule
                (w, attempts) H0) as Ht.
  split.
  - destruct Hcase as [[_ ->]|[_ ->]]; lia.
  - destruct (isExecuting _ (fst (exec schedule (w, attempts))));
      destruct (isExecuting _ (fst (w, attempts))); lia.
Qed.

(** C5, as the code has it.  A pending row with a unique id and any
    number of invocations of [claimDueScheduled] that start afresh, each
    taking the remote procedure or the fallback: in every interleaving of
    their requests, and whatever the store answers, at most one invocation
    has claimed the row and the row has gone to [executing] at most once.
    When there is an invocation, the row is due for each of them, the
    limit of each takes in the rows due for it, the store serves their
    reads and guarded PATCHes, and the interleaving lets all of them
    finish, exactly one invocation has claimed the row, the row is
    [executing], and it went to [executing] exactly once. *)
Theorem concurrent_claims_take_a_row_once :
  forall (schedule : list nat) (w : World) (attempts : list Attempt)
         (r : ScheduledRow),
    uniqueScheduledIds w ->
    In r (scheduled w) ->
    sc_status r = pending ->
    Forall (fun a => a_phase a = BeforeRpc) attempts ->
    ((claimers (sc_id r) (snd (exec schedule (w, attempts))) <= 1)%nat
     /\ (executingTransitions (sc_id r) schedule (w, attempts) <= 1)%nat)
    /\ (attempts <> [] ->
        Forall (freshAttempt (sc_scheduled_for r) w) attempts ->
        Forall (fun a => finished a = true)
               (snd (exec schedule (w, attempts))) ->
        claimers (sc_id r) (snd (exec schedule (w, attempts))) = 1%nat
        /\ statusOf (sc_id r) (fst (exec schedule (w, attempts))) = [executing]
        /\ executingTransitions (sc_id r) schedule (w, attempts) = 1%nat).
Proof.
  intros schedule w attempts r Hu Hx Hp Hphase.
  split; [now apply claim_never_doubles|].
  intros Hne Hfresh Hfin.
  set (x := sc_id r). set (sf := sc_scheduled_for r).
  assert (H0 : claimSafe x sf (w, attempts)).
  { split; [exact Hu|]. exists r. repeat split; auto. left. split; [exact Hp|].
    now apply fresh_attempts_claim_nothing. }
  assert (R0 : attemptsReady sf (w, attempts)).
  { unfold attemptsReady. cbn [fst snd]. revert Hfresh. apply Forall_impl.
    intros a (_ & H1 & H2 & H3). auto. }
  assert (L0 : claimLive x (w, attempts)).
  { intros _. cbn [snd]. revert Hphase. apply Forall_impl.
    intros a Ha. unfold awaits. now rewrite Ha. }
  assert (E0 : isExecuting x w = false).
  { unfold x. rewrite (isExecuting_row w r Hu Hx), Hp. reflexivity. }
  pose proof (exec_safe x sf schedule (w, attempts) H0) as Hsafe.
  pose proof (exec_live x sf schedule (w, attempts) H0 R0 L0) as Hlive.
  pose proof (transitions_count x sf schedule (w, attempts) H0) as Ht.
  cbn [fst] in Ht. rewrite E0 in Ht.
  destruct Hsafe as (Hu' & rx & Hx' & Hid' & _ & Hcase).
  pose proof (exec_length schedule w attempts) as Hlen.
  assert (Hex : isExecuting x (fst (exec schedule (w, attempts))) = true).
  { destruct (isExecuting x (fst (exec schedule (w, attempts)))) eqn:E;
      [reflexivity|exfalso].
    specialize (Hlive E).
    destruct (snd (exec schedule (w, attempts))) as [|a l] eqn:El.
    - destruct attempts; [congruence|discriminate Hlen].
    - inversion Hlive as [|? ? Ha _]; inversion Hfin as [|? ? Hf _]; subst.
      unfold awaits in Ha. unfold finished in Hf.
      destruct (a_phase a); discriminate. }
  rewrite Hex in Ht.
  rewrite <- Hid', (isExecuting_row _ rx Hu' Hx') in Hex.
  assert (Hst : sc_status rx = executing)
    by (destruct (sc_status rx); try discriminate; reflexivity).
  split; [|split].
  - destruct Hcase as [[Hpd _]|[_ Hc]]; [congruence | exact Hc].
  - rewrite <- Hid', (statusOf_unique _ rx Hu' Hx'), Hst.
    reflexivity.
  - lia.
Qed.

Lemma concurrent_claims_take_a_row_once_witness :
  Future.claimers 1 (snd (Future.exec Sample.racingSchedule
                            (Sample.claimWorld, Sample.twoAttempts))) = 1%nat.
Proof.
  refine (proj1 (proj2 (concurrent_claims_take_a_row_once Sample.racingSchedule
                          Sample.claimWorld Sample.twoAttempts Sample.dueRow
                          _ _ eq_refl _) _ _ _)).
  - unfold uniqueScheduledIds. cbn. repeat constructor. cbn. tauto.
  - cbn. now left.
  - repeat constructor.
  - discriminate.
  - repeat constructor; cbn; try lia; try reflexivity;
      unfold covers, dueCount; cbn; lia.
  - cbn. repeat constructor.
Defined.

(** C5, as stated, fails for a due row beyond the limit of the attempts:
    with two due pending rows and two invocations that take the fallback
    with a limit of one row, both read the row that is due first before
    either sends its guarded PATCH.  The store serves every read and
    PATCH and both invocations finish; the other row is due for both, no
    invocation has claimed it, and it is still [pending]. *)
Lemma due_row_beyond_the_limit_is_claimed_by_none :
  let final := exec Sample.racingSchedule
                    (Sample.twoDue, Sample.narrowAttempts) in
  In Sample.laterRow (scheduled Sample.twoDue)
  /\ sc_status Sample.laterRow = pending
  /\ Forall (fun a => isDue (now (a_env a)) Sample.laterRow = true)
            Sample.narrowAttempts
  /\ Forall (fun a => a_phase a = BeforeRpc /\ servedClaims a)
            Sample.narrowAttempts
  /\ Forall (fun a => finished a = true) (snd final)
  /\ claimers (sc_id Sample.laterRow) (snd final) = 0%nat
  /\ statusOf (sc_id Sample.laterRow) (fst final) = [pending]
  /\ executingTransitions (sc_id Sample.laterRow) Sample.racingSchedule
                          (Sample.twoDue, Sample.narrowAttempts) = 0%nat
  /\ ~ (claimers (sc_id Sample.laterRow) (snd final) = 1%nat).
Proof.
  cbv zeta. repeat split; try reflexivity; cbn; auto; try discriminate.
  all: repeat constructor.
Qed.
End Interleaving.

(* ------------------------------------------------------------------ *)
(** ** The rows that the reads return *)
(* ------------------------------------------------------------------ *)

Section ReadOrder.
Import Store Remote Props.

(** X1. The reconciliation pass reads the newest active calls of the user:
    the rows it reads and the active rows it leaves out make up the
    user's active calls, and each row read stands before each row left
    out in the order [created_at.desc] (rows without [created_at]
    first). *)
Theorem reconciliation_reads_the_newest_active_calls (u : string) (w : World) :
  exists rest,
    Permutation (Calls.stuckCalls u w ++ rest) (activeCallsOf u w)
    /\ forall c d, In c (Calls.stuckCalls u w) -> In d rest ->
                   createdDesc c d = true.
Proof.
  unfold Calls.stuckCalls.
  apply (sortBy_firstn_first createdDesc createdDesc_total createdDesc_trans).
Qed.

Lemma dueScheduled_due nowMs limit w r :
  In r (Future.dueScheduled nowMs limit w) ->
  In r (scheduled w) /\ Future.isDue nowMs r = true.
Proof.
  unfold Future.dueScheduled. intros H. apply In_firstn in H.
  apply (Permutation_in _ (sortBy_perm Future.scheduledAsc _)) in H.
  now apply filter_In in H.
Qed.

(** X2. The fallback of [claimDueScheduled] reads the due rows that have
    waited longest: at most [limit] rows, each of them pending and
    scheduled at or before the clock, and no due row left out is
    scheduled earlier than a row read. *)
Theorem fallback_reads_the_oldest_due_rows (nowMs limit : Z) (w : World) :
  (List.length (Future.dueScheduled nowMs limit w) <= Z.to_nat limit)%nat
  /\ Forall (fun r => In r (scheduled w) /\ sc_status r = pending
                      /\ sc_scheduled_for r <= nowMs)
            (Future.dueScheduled nowMs limit w)
  /\ exists rest,
       Permutation (Future.dueScheduled nowMs limit w ++ rest)
                   (filter (Future.isDue nowMs) (scheduled w))
       /\ forall a b, In a (Future.dueScheduled nowMs limit w) -> In b rest ->
                      sc_scheduled_for a <= sc_scheduled_for b.
Proof.
  split; [|split].
  - unfold Future.dueScheduled. rewrite length_firstn. lia.
  - apply Forall_forall. intros r Hr.
    destruct (dueScheduled_due _ _ _ _ Hr) as [Hin Hd]. split; [exact Hin|].
    unfold Future.isDue in Hd. apply andb_prop in Hd. destruct Hd as [Hs Ht].
    split; [|now apply Z.leb_le].
    destruct (sc_status r); try discriminate; reflexivity.
  - unfold Future.dueScheduled.
    destruct (sortBy_firstn_first Future.scheduledAsc scheduledAsc_total
                scheduledAsc_trans (Z.to_nat limit)
                (filter (Future.isDue nowMs) (scheduled w)))
      as (rest & Hp & Ho).
    exists rest. split; [exact Hp|].
    intros a b Ha Hb. apply Z.leb_le. now apply Ho.
Qed.

(** X3. The listing of the scheduled calls returns exactly the rows of the
    user, each once, in ascending order of [scheduled_for]. *)
Theorem listing_is_the_users_rows_in_time_order
  (env : Scheduling.Env) (u : string) (w : World) (l : list ScheduledRow) :
  Scheduling.GET env (Some u) w = Scheduling.Listed l ->
  Permutation l (filter (fun r => String.eqb (sc_user r) u) (scheduled w))
  /\ StronglySorted (fun a b => sc_scheduled_for a <= sc_scheduled_for b) l.
Proof.
  unfold Scheduling.GET.
  destruct (negb (Js.nonempty u)); [discriminate|].
  destruct (negb (Scheduling.configured env)); [discriminate|].
  destruct (negb (Scheduling.serves env (Scheduling.ListScheduledCalls u)));
    [discriminate|].
  intros H. injection H as <-. split.
  - apply sortBy_perm.
  - pose proof (sortBy_sorted Future.scheduledAsc scheduledAsc_total
                  scheduledAsc_trans
                  (filter (fun r => String.eqb (sc_user r) u) (scheduled w)))
      as Hs.
    revert Hs. generalize (Js.sortBy Future.scheduledAsc
               (filter (fun r => String.eqb (sc_user r) u) (scheduled w))).
    intros l Hs. induction Hs as [|a l Hs IH Ha]; constructor; auto.
    rewrite Forall_forall in *. intros b Hb. apply Z.leb_le. now apply Ha.
Qed.

Lemma listing_is_the_users_rows_in_time_order_witness :
  StronglySorted (fun a b => sc_scheduled_for a <= sc_scheduled_for b)
    [ Sample.scheduledAt 2 executing 3000;
      Sample.scheduledAt 3 canceled 4000;
      Sample.scheduledAt 1 pending 9000 ].
Proof.
  exact (proj2 (listing_is_the_users_rows_in_time_order Cases.schedulingEnv
                  Sample.alice Cases.mixedSchedule _ eq_refl)).
Defined.

End ReadOrder.


(* ------------------------------------------------------------------ *)
(** ** Decisions of the reconciliation *)
(* ------------------------------------------------------------------ *)

Section ReconcileDecisions.
Import Store Remote Calls Props.

Lemma isStale_recent nowMs t :
  t <> 0 -> nowMs - t <= 12 * 60 * 1000 -> isStale nowMs (Some t) = false.
Proof.
  intros Ht Hr. unfold isStale, Js.truthyZ.
  destruct (Z.eqb_spec t 0) as [->|_]; [congruence|]. cbn [negb].
  unfold STALE_MS. apply Z.ltb_ge. lia.
Qed.

(** X4. A call that started (or, without a start time, was created) at
    most 12 minutes before the clock is never failed by the
    reconciliation: the only patch it can get is [completed], and only
    when the call has a conversation id for which the provider answers
    with a 2xx status. *)
Theorem recent_call_is_never_failed
  (env : Env) (c : CallRow) (t : Z) (p : CallPatch) :
  startedAtOf c = Some t -> t <> 0 -> now env - t <= 12 * 60 * 1000 ->
  reconcileCall env c = Sends p ->
  cp_status p = Some completed
  /\ exists conv,
       eleven_conversation_id c = Some conv
       /\ http_ok (http_status (conversation env conv)) = true.
Proof.
  intros Hs Ht Hr. unfold reconcileCall. rewrite Hs.
  rewrite (isStale_recent _ _ Ht Hr).
  destruct (eleven_conversation_id c) as [conv|] eqn:Ec; cbn [Js.truthy negb].
  2:{ discriminate. }
  destruct (Js.nonempty conv); cbn [negb]; [|discriminate].
  destruct (Nat.eqb (http_status (conversation env conv)) 404); [discriminate|].
  destruct (http_ok (http_status (conversation env conv))) eqn:Eo;
    cbn [negb]; [|discriminate].
  match goal with |- (if ?b then _ else _) = _ -> _ => destruct b end;
    [|discriminate].
  match goal with
  | |- match ?o with Some _ => _ | None => _ end = _ -> _ => destruct o
  end; [|discriminate].
  intros H. injection H as <-. cbn. split; [reflexivity|].
  exists conv. now split.
Qed.

Lemma recent_call_is_never_failed_witness :
  cp_status Cases.completedPatch = Some completed.
Proof.
  refine (proj1 (recent_call_is_never_failed Cases.endedEnv Cases.recentCall
                   Sample.t0 Cases.completedPatch eq_refl _ _ eq_refl)).
  - discriminate.
  - vm_compute. discriminate.
Defined.

(** X5. A patch of the reconciliation that completes a call clears the
    failure reason, leaves the start time, the conversation id and the
    call sid alone, and never records a negative duration. *)
Theorem completion_clears_reason_and_keeps_duration_non_negative
  (env : Env) (c : CallRow) (p : CallPatch) :
  reconcileCall env c = Sends p -> cp_status p = Some completed ->
  cp_failure_reason p = Some None
  /\ cp_started_at p = None /\ cp_conversation_id p = None
  /\ cp_call_sid p = None
  /\ forall d, cp_duration_seconds p = Some (Some d) -> 0 <= d.
Proof.
  unfold reconcileCall.
  set (stale := isStale (now env) (startedAtOf c)).
  destruct (negb (Js.truthy (eleven_conversation_id c))).
  { destruct stale; [|discriminate].
    intros H. injection H as <-. cbn. discriminate. }
  set (elRes := conversation env _).
  destruct (Nat.eqb (http_status elRes) 404).
  { destruct stale; [|discriminate].
    intros H. injection H as <-. cbn. discriminate. }
  destruct (negb (http_ok (http_status elRes))).
  { destruct stale; [|discriminate].
    intros H. injection H as <-. cbn. discriminate. }
  match goal with |- (if ?b then _ else _) = _ -> _ => destruct b end.
  2:{ destruct stale; [|discriminate].
      intros H. injection H as <-. cbn. discriminate. }
  match goal with
  | |- match ?o with Some _ => _ | None => _ end = _ -> _ =>
      destruct o as [endedAtIso|]
  end; [|discriminate].
  intros H _. injection H as <-. cbn.
  repeat split.
  intros d.
  destruct (Js.numOr (call_duration_secs (details elRes))
                     (callDurationSecs (details elRes))) as [dur|].
  - intros H. injection H as <-. lia.
  - destruct (startedAtOf c) as [st|]; [|discriminate].
    destruct endedAtIso as [e|]; [|discriminate].
    intros H. injection H as <-. lia.
Qed.

Lemma completion_clears_reason_and_keeps_duration_non_negative_witness :
  cp_failure_reason Cases.completedPatch = Some None.
Proof.
  exact (proj1 (completion_clears_reason_and_keeps_duration_non_negative
                  Cases.endedEnv Cases.recentCall Cases.completedPatch
                  eq_refl eq_refl)).
Defined.

End ReconcileDecisions.


(* ------------------------------------------------------------------ *)
(** ** The calls route and the calls table *)
(* ------------------------------------------------------------------ *)

Section CallsFrame.
Import Store Remote Calls Props.

(** X6. The reconciliation pass changes nothing but active calls of the
    user it runs for: with unique call ids, the profiles, timestamps and
    scheduled calls are as before, no call row is added or removed, and a
    call of another user or a call that has ended is left exactly as it
    was. *)
Theorem reconciliation_touches_only_active_calls_of_the_user
  (env : Env) (u : string) (w : World) :
  uniqueCallIds w ->
  profiles (fst (reconcileStuckCalls env u w)) = profiles w
  /\ timestamps (fst (reconcileStuckCalls env u w)) = timestamps w
  /\ scheduled (fst (reconcileStuckCalls env u w)) = scheduled w
  /\ Forall2 (fun r r' =>
                call_id r' = call_id r /\ call_user r' = call_user r
                /\ (call_user r <> u \/ isActive (call_status r) = false ->
                    r' = r))
             (calls w) (calls (fst (reconcileStuckCalls env u w))).
Proof.
  intros Hu.
  destruct (reconcile_keeps env u w) as (_ & Hp & Ht & Hs).
  repeat split; auto.
  destruct (serves env (GetStuckCalls u)) eqn:Es.
  - rewrite (reconcileStuckCalls_rows env u w Hu Es).
    apply Forall2_map_same. intros r Hr.
    unfold rowAfterPass.
    destruct (find _ (reached env (stuckCalls u w))) as [c|] eqn:F.
    + apply find_some in F. destruct F as [Hc E]. apply Nat.eqb_eq in E.
      apply reached_incl in Hc. destruct Hc as [Hc _].
      destruct (stuckCalls_incl u w c Hc) as (Hin & Hcu & Hca).
      assert (r = c) by (apply (stored_row_of_id w c r); auto). subst r.
      unfold reconcileRow. destruct (reconcileCall env c) as [p| |].
      * destruct (andb _ _); cbn.
        -- repeat split; auto. intros [H|H]; congruence.
        -- repeat split; auto.
      * repeat split; auto.
      * repeat split; auto.
    + repeat split; auto.
  - unfold reconcileStuckCalls. rewrite Es. cbn [negb fst].
    apply Forall2_refl_rel. intros r. repeat split; auto.
Qed.

Lemma reconciliation_touches_only_active_calls_of_the_user_witness :
  profiles (fst (reconcileStuckCalls
                   (Sample.callsEnv Sample.twentyMinutesLater)
                   Sample.alice Sample.oneStuck))
  = profiles Sample.oneStuck.
Proof.
  refine (proj1 (reconciliation_touches_only_active_calls_of_the_user
                   (Sample.callsEnv Sample.twentyMinutesLater) Sample.alice
                   Sample.oneStuck _)).
  unfold uniqueCallIds. cbn. repeat constructor. cbn. tauto.
Defined.

Lemma patchCallsById_tables id p w :
  profiles (patchCallsById id p w) = profiles w
  /\ timestamps (patchCallsById id p w) = timestamps w
  /\ scheduled (patchCallsById id p w) = scheduled w
  /\ List.length (calls (patchCallsById id p w)) = List.length (calls w).
Proof.
  unfold patchCallsById. cbn. repeat split. apply length_map.
Qed.

Lemma dialAndRecord_tables env callId to w :
  profiles (fst (dialAndRecord env callId to w)) = profiles w
  /\ timestamps (fst (dialAndRecord env callId to w)) = timestamps w
  /\ scheduled (fst (dialAndRecord env callId to w)) = scheduled w
  /\ List.length (calls (fst (dialAndRecord env callId to w)))
     = List.length (calls w).
Proof.
  unfold dialAndRecord.
  destruct (dial env); cbn [fst];
    match goal with
    | |- context [serves env ?r] => destruct (serves env r)
    end; auto using patchCallsById_tables.
Qed.

Lemma reconcile_length env u w :
  List.length (calls (fst (reconcileStuckCalls env u w)))
  = List.length (calls w).
Proof.
  destruct (reconcile_keeps env u w) as (H & _).
  symmetry. eapply Forall2_length. exact H.
Qed.

(** Starting a call touches only the calls table: no call row is removed
    and at most one is added. *)
Lemma POST_tables (env : Env) (auth : option string) (w : World) :
  profiles (fst (POST env auth w)) = profiles w
  /\ timestamps (fst (POST env auth w)) = timestamps w
  /\ scheduled (fst (POST env auth w)) = scheduled w
  /\ (List.length (calls w) <= List.length (calls (fst (POST env auth w)))
      <= List.length (calls w) + 1)%nat.
Proof.
  assert (Hsame : forall u,
            profiles (fst (reconcileStuckCalls env u w)) = profiles w
            /\ timestamps (fst (reconcileStuckCalls env u w)) = timestamps w
            /\ scheduled (fst (reconcileStuckCalls env u w)) = scheduled w
            /\ (List.length (calls w)
                <= List.length (calls (fst (reconcileStuckCalls env u w)))
                <= List.length (calls w) + 1)%nat).
  { intros u. destruct (reconcile_keeps env u w) as (_ & Hp & Ht & Hs).
    rewrite (reconcile_length env u w). repeat split; auto; lia. }
  unfold POST. destruct auth as [userId|]; [|cbn [fst]; repeat split; auto; lia].
  destruct (Js.nonempty userId); cbn [negb];
    [|cbn [fst]; repeat split; auto; lia].
  specialize (Hsame userId).
  pose proof (reconcile_length env userId w) as Hl.
  destruct (reconcileStuckCalls env userId w) as [w1 threw].
  cbn [fst] in Hsame, Hl.
  destruct threw; [exact Hsame|].
  destruct (serves env (GetProfile userId)); cbn [negb]; [|exact Hsame].
  destruct (profilesOf userId w1) as [|profile rest]; [exact Hsame|].
  destruct (orb _ _); [exact Hsame|].
  destruct (negb (Js.truthy (phone_e164 profile))); [exact Hsame|].
  destruct (serves env (GetLatestTimestamp userId)); cbn [negb]; [|exact Hsame].
  destruct (latestTimestampsOf userId w1) as [|ts tsr]; [exact Hsame|].
  destruct (serves env (GetActiveCall userId)); cbn [negb]; [|exact Hsame].
  destruct (firstn 1 (activeCallsOf userId w1)); [|exact Hsame].
  destruct (serves env (InsertCall userId)); cbn [negb]; [|exact Hsame].
  destruct Hsame as (Hp & Ht & Hs & _).
  unfold insertCall.
  destruct (Nat.eqb (freshCallId w1) 0).
  - cbn. rewrite length_app. cbn. repeat split; auto; lia.
  - match goal with
    | |- context [dialAndRecord env ?i ?t ?x] =>
        destruct (dialAndRecord_tables env i t x) as (G1 & G2 & G3 & G4)
    end.
    rewrite G1, G2, G3, G4. cbn. rewrite length_app. cbn.
    repeat split; auto; lia.
Qed.

(** The run of [POST] up to the insertion of the call row. *)
Lemma POST_inserts env u w w' r :
  POST env (Some u) w = (w', r) ->
  (exists id conv sid to, r = CallStarted id conv sid to)
  \/ (exists text, r = OutboundCallFailed text)
  \/ (exists m, r = CallInitiationCrashed m) ->
  let w1 := fst (reconcileStuckCalls env u w) in
  exists profile ts,
    hd_error (profilesOf u w1) = Some profile
    /\ hd_error (latestTimestampsOf u w1) = Some ts
    /\ activeCallsOf u w1 = []
    /\ (w', r) = dialAndRecord env (freshCallId w1)
                   (match phone_e164 profile with
                    | Some n => n | None => EmptyString end)
                   (fst (insertCall (now env) u (ts_id ts) None manual
                           (match phone_e164 profile with
                            | Some n => n | None => EmptyString end) w1)).
Proof.
  intros H Hr. cbv zeta. revert H. unfold POST.
  destruct (reconcileStuckCalls env u w) as [w1 threw]. cbn [fst].
  assert (Hno : forall (x : World) (r0 : Response),
            (x, r0) = (w', r) ->
            match r0 with
            | CallStarted _ _ _ _ | OutboundCallFailed _
            | CallInitiationCrashed _ => False
            | _ => True
            end -> False).
  { intros x r0 E. injection E as _ ->.
    destruct Hr as [(?&?&?&?&->)|[(?&->)|(?&->)]]; auto. }
  destruct (Js.nonempty u); cbn [negb]; [|intros H; now apply Hno in H].
  destruct threw; [intros H; now apply Hno in H|].
  destruct (serves env (GetProfile u)); cbn [negb];
    [|intros H; now apply Hno in H].
  destruct (profilesOf u w1) as [|profile rest]; [intros H; now apply Hno in H|].
  destruct (orb _ _); [intros H; now apply Hno in H|].
  destruct (negb (Js.truthy (phone_e164 profile)));
    [intros H; now apply Hno in H|].
  destruct (serves env (GetLatestTimestamp u)); cbn [negb];
    [|intros H; now apply Hno in H].
  destruct (latestTimestampsOf u w1) as [|ts tsr];
    [intros H; now apply Hno in H|].
  destruct (serves env (GetActiveCall u)); cbn [negb];
    [|intros H; now apply Hno in H].
  destruct (activeCallsOf u w1) as [|a l] eqn:Ea; cbn [firstn];
    [|intros H; now apply Hno in H].
  destruct (serves env (InsertCall u)); cbn [negb];
    [|intros H; now apply Hno in H].
  unfold insertCall. cbn [fst].
  destruct (Nat.eqb (freshCallId w1) 0); [intros H; now apply Hno in H|].
  intros H. exists profile, ts. repeat split; auto.
Qed.

Lemma active_after_insert u w new :
  activeCallsOf u w = [] ->
  filter (fun c => andb (String.eqb (call_user c) u) (isActive (call_status c)))
         (calls w ++ [new])
  = if andb (String.eqb (call_user new) u) (isActive (call_status new))
    then [new] else [].
Proof.
  unfold activeCallsOf. intros H. rewrite filter_app, H. cbn.
  destruct (andb _ _); reflexivity.
Qed.

(** X7. When [POST] answers that the call has started and the store
    applies the write of the outcome, the user's only active call is the
    new row: it has the returned id, which no row had before, the user's
    latest timestamp, origin [manual], status [dialing], the clock as
    start time, and the conversation id and call sid of the answer. *)
Theorem started_call_is_the_only_active_call
  (env : Env) (u : string) (w w' : World) (id : nat)
  (conv sid : option string) (to : string) :
  POST env (Some u) w = (w', CallStarted id conv sid to) ->
  serves env (PatchCall id dialing) = true ->
  ~ In id (map call_id (calls w))
  /\ exists ts,
       hd_error (latestTimestampsOf u w) = Some ts
       /\ activeCallsOf u w'
          = [mkCall id u (ts_id ts) None manual dialing to (Some (now env))
                    (Some (now env)) None None None conv sid].
Proof.
  intros H Hs.
  destruct (POST_inserts env u w w' _ H) as (profile & ts & Hp & Ht & Ha & E).
  { left. eauto. }
  cbv zeta in *.
  destruct (reconcile_keeps env u w) as (Hk & _ & Htt & _).
  set (w1 := fst (reconcileStuckCalls env u w)) in *.
  assert (Hts : latestTimestampsOf u w1 = latestTimestampsOf u w).
  { unfold latestTimestampsOf. now rewrite Htt. }
  rewrite Hts in Ht.
  assert (Hfresh : forall c, In c (calls w1) -> call_id c <> freshCallId w1).
  { intros c Hc. apply fresh_id_above in Hc. lia. }
  assert (Hids : map call_id (calls w1) = map call_id (calls w)).
  { clear - Hk. induction Hk as [|a b l l' Hab _ IH]; cbn; [reflexivity|].
    destruct Hab as (E & _). now rewrite IH, E. }
  unfold dialAndRecord, insertCall in E. cbn [fst] in E.
  destruct (dial env) as [m|code text|conv' sid']; try discriminate.
  injection E as -> -> -> -> ->.
  cbn [patchStatus cp_status]. rewrite Hs.
  split.
  - rewrite <- Hids. intros Hin. apply in_map_iff in Hin.
    destruct Hin as (c & Hc & Hin). now apply (Hfresh c).
  - exists ts. split; [exact Ht|].
    unfold activeCallsOf at 1.
    rewrite patchCallsById_new_row; [|reflexivity|exact Hfresh].
    rewrite (active_after_insert u w1 _ Ha).
    cbn. rewrite String.eqb_refl. reflexivity.
Qed.

Lemma started_call_is_the_only_active_call_witness :
  ~ In 1%nat (map call_id (calls Cases.idle)).
Proof.
  exact (proj1 (started_call_is_the_only_active_call
                  (Sample.callsEnv Sample.t0) Sample.alice Cases.idle
                  (fst (POST (Sample.callsEnv Sample.t0) (Some Sample.alice)
                          Cases.idle))
                  1 (Some "conv_9") (Some "CA9") "+15550100"
                  eq_refl eq_refl)).
Defined.

(** X8. A dial that the provider rejects leaves no active call behind:
    when the store applies the write of the outcome, the new row is the
    last of the calls table, it is [failed] with the provider's text as
    reason and without an end time, and the user has no active call. *)
Theorem rejected_dial_leaves_no_active_call
  (env : Env) (u : string) (w w' : World) (text : string) :
  POST env (Some u) w = (w', OutboundCallFailed text) ->
  (forall id, serves env (PatchCall id failed) = true) ->
  activeCallsOf u w' = []
  /\ exists row,
       calls w' = (calls (fst (reconcileStuckCalls env u w)) ++ [row])%list
       /\ call_user row = u /\ call_status row = failed
       /\ call_failure_reason row = Some text /\ call_ended_at row = None.
Proof.
  intros H Hs.
  destruct (POST_inserts env u w w' _ H) as (profile & ts & Hp & Ht & Ha & E).
  { right. left. eauto. }
  cbv zeta in *.
  set (w1 := fst (reconcileStuckCalls env u w)) in *.
  assert (Hfresh : forall c, In c (calls w1) -> call_id c <> freshCallId w1).
  { intros c Hc. apply fresh_id_above in Hc. lia. }
  unfold dialAndRecord, insertCall in E. cbn [fst] in E.
  destruct (dial env) as [m|code text'|conv' sid']; try discriminate.
  injection E as -> ->.
  cbn [patchStatus cp_status]. rewrite Hs.
  split.
  - unfold activeCallsOf at 1.
    rewrite patchCallsById_new_row; [|reflexivity|exact Hfresh].
    rewrite (active_after_insert u w1 _ Ha).
    cbn. now rewrite andb_false_r.
  - eexists. split; [apply patchCallsById_new_row; [reflexivity|exact Hfresh]|].
    cbn. auto.
Qed.

Lemma rejected_dial_leaves_no_active_call_witness :
  activeCallsOf Sample.alice
    (fst (POST Cases.rejectingEnv (Some Sample.alice) Cases.idle)) = [].
Proof.
  exact (proj1 (rejected_dial_leaves_no_active_call Cases.rejectingEnv
                  Sample.alice Cases.idle
                  (fst (POST Cases.rejectingEnv (Some Sample.alice) Cases.idle))
                  "busy" eq_refl (fun _ => eq_refl))).
Defined.

End CallsFrame.


(* ------------------------------------------------------------------ *)
(** ** The sweep and the scheduled calls *)
(* ------------------------------------------------------------------ *)

Section SweepRows.
Import Store Remote Future Props Frames.

Lemma Forall2_In_impl (A B : Type) (P Q : A -> B -> Prop) l l' :
  Forall2 P l l' -> (forall a b, In a l -> P a b -> Q a b) -> Forall2 Q l l'.
Proof.
  induction 1 as [|a b l l' Hab _ IH]; intros H; constructor.
  - apply H; [now left|exact Hab].
  - apply IH. intros x y Hx. apply H. now right.
Qed.

Lemma Forall2_compose (A : Type) (P Q R : A -> A -> Prop) l1 l2 l3 :
  (forall a b c, P a b -> Q b c -> R a c) ->
  Forall2 P l1 l2 -> Forall2 Q l2 l3 -> Forall2 R l1 l3.
Proof.
  intros H H12. revert l3.
  induction H12 as [|x y l1 l2 Hxy _ IH]; intros l3 H23;
    inversion H23; subst; constructor; eauto.
Qed.

(** *** What the requests of the sweep do to the scheduled calls *)

Lemma markScheduled_rows env id p w :
  scheduled (markScheduled env id p w)
  = map (fun r =>
           if andb (serves env (PatchScheduled id
                      (match sp_status p with Some s => s | None => pending end)))
                   (Nat.eqb (sc_id r) id)
           then applyScheduledPatch p r else r) (scheduled w)
  /\ calls (markScheduled env id p w) = calls w.
Proof.
  unfold markScheduled. destruct (serves env _); cbn.
  - split; reflexivity.
  - split; [now rewrite map_id|reflexivity].
Qed.

Lemma patchCall_tables env id p w :
  scheduled (patchCall env id p w) = scheduled w
  /\ List.length (calls (patchCall env id p w)) = List.length (calls w).
Proof.
  unfold patchCall. destruct (serves env _); cbn; [|auto].
  split; [reflexivity|apply length_map].
Qed.

Lemma failJob_tables env sid callId message w :
  scheduled (failJob env sid callId message w)
  = scheduled (markScheduled env sid
                 (mkScheduledPatch (Some sc_failed) None None None
                    (Some (Some ("[" ++ traceId env ++ "] "
                                 ++ Js.slice0 900 message))) None) w)
  /\ List.length (calls (failJob env sid callId message w))
     = List.length (calls w).
Proof.
  unfold failJob. destruct callId as [id|].
  - destruct (patchCall_tables env id
                (mkCallPatch (Some failed) None (Some (Some (now env))) None
                   (Some (Some (Js.slice0 900 message))) None None)
                (markScheduled env sid
                   (mkScheduledPatch (Some sc_failed) None None None
                      (Some (Some ("[" ++ traceId env ++ "] "
                                   ++ Js.slice0 900 message))) None) w))
      as [H1 H2].
    rewrite H1, H2. split; [reflexivity|].
    now rewrite (proj2 (markScheduled_rows env sid _ w)).
  - split; [reflexivity|].
    now rewrite (proj2 (markScheduled_rows env sid _ w)).
Qed.

Lemma markScheduled_with_calls env id p w c :
  scheduled (markScheduled env id p (with_calls w c))
  = scheduled (markScheduled env id p w).
Proof. unfold markScheduled. destruct (serves env _); reflexivity. Qed.

(** One job: the scheduled calls are rewritten by one [markScheduled] that
    settles the job, the counter goes up by one at most, and one call row
    is added at most. *)
Lemma processJob_tables env w n job :
  (exists p,
     (sp_status p = Some executed \/ sp_status p = Some sc_failed)
     /\ scheduled (fst (processJob env (w, n) job))
        = scheduled (markScheduled env (sc_id job) p w))
  /\ (n <= snd (processJob env (w, n) job) <= S n)%nat
  /\ (List.length (calls (fst (processJob env (w, n) job)))
      <= S (List.length (calls w)))%nat.
Proof.
  assert (Hfail : forall callId message,
    (exists p,
       (sp_status p = Some executed \/ sp_status p = Some sc_failed)
       /\ scheduled (failJob env (sc_id job) callId message w)
          = scheduled (markScheduled env (sc_id job) p w))
    /\ (n <= n <= S n)%nat
    /\ (List.length (calls (failJob env (sc_id job) callId message w))
        <= S (List.length (calls w)))%nat).
  { intros callId message.
    destruct (failJob_tables env (sc_id job) callId message w) as [H1 H2].
    split; [|split; [lia|rewrite H2; lia]].
    eexists. split; [|exact H1]. now right. }
  assert (Hfail1 : forall callId message c,
    (exists p,
       (sp_status p = Some executed \/ sp_status p = Some sc_failed)
       /\ scheduled (failJob env (sc_id job) callId message
                       (with_calls w (calls w ++ [c])))
          = scheduled (markScheduled env (sc_id job) p w))
    /\ (n <= n <= S n)%nat
    /\ (List.length (calls (failJob env (sc_id job) callId message
                              (with_calls w (calls w ++ [c]))))
        <= S (List.length (calls w)))%nat).
  { intros callId message c.
    destruct (failJob_tables env (sc_id job) callId message
                (with_calls w (calls w ++ [c])%list)) as [H1 H2].
    split; [|split; [lia|]].
    - eexists. split; [|rewrite H1; apply markScheduled_with_calls]. now right.
    - rewrite H2. cbn. rewrite length_app. cbn. lia. }
  unfold processJob.
  destruct (if serves env (GetProfile (sc_user job)) then _ else None) as [prof|];
    [|apply Hfail].
  destruct (negb (SetupStatus_eqb _ _)); [apply Hfail|].
  destruct (negb (Js.truthy (eleven_agent_id prof))); [apply Hfail|].
  destruct (negb (Js.truthy (phone_e164 prof))); [apply Hfail|].
  destruct (negb (serves env (InsertCall _))); [apply Hfail|].
  unfold insertCall.
  destruct (Nat.eqb (freshCallId w) 0); [apply Hfail1|].
  destruct (dial env (sc_id job)) as [m|code text|conv sid];
    [apply Hfail1|apply Hfail1|].
  cbn [fst snd]. split; [|split; [lia|]].
  - exists (mkScheduledPatch (Some executed) None None (Some (Some (now env)))
                             (Some None) None).
    split; [left; reflexivity|].
    unfold markScheduled at 1 2.
    destruct (serves env _); cbn [scheduled patchScheduledWhere with_scheduled].
    + now rewrite (proj1 (patchCall_tables env _ _ _)).
    + now rewrite (proj1 (patchCall_tables env _ _ _)).
  - rewrite (proj2 (markScheduled_rows env _ _ _)).
    rewrite (proj2 (patchCall_tables env _ _ _)). cbn.
    rewrite length_app. cbn. lia.
Qed.

Lemma keepsOutside_refl ids l : Forall2 (keepsOutside ids) l l.
Proof. apply Forall2_refl_rel. intros r. split; auto. Qed.

Lemma keepsOutside_trans ids l1 l2 l3 :
  Forall2 (keepsOutside ids) l1 l2 -> Forall2 (keepsOutside ids) l2 l3 ->
  Forall2 (keepsOutside ids) l1 l3.
Proof.
  apply Forall2_compose. intros a b c [E1 H1] [E2 H2]. split; [congruence|].
  intros Hn. rewrite H2; [now apply H1|]. now rewrite E1.
Qed.

Lemma keepsOutside_incl ids ids' l l' :
  incl ids ids' ->
  Forall2 (keepsOutside ids) l l' -> Forall2 (keepsOutside ids') l l'.
Proof.
  intros Hi H. eapply Forall2_In_impl; [exact H|].
  intros a b _ [E Hk]. split; [exact E|]. intros Hn. apply Hk.
  intros Hin. apply Hn. now apply Hi.
Qed.

Lemma patch_keepsOutside ids (sel : ScheduledRow -> bool) p w :
  (forall r, sel r = true -> In (sc_id r) ids) ->
  Forall2 (keepsOutside ids) (scheduled w)
          (scheduled (patchScheduledWhere sel p w)).
Proof.
  intros H. unfold patchScheduledWhere. cbn [scheduled with_scheduled].
  apply Forall2_map_same. intros r _. destruct (sel r) eqn:E.
  - split; [reflexivity|]. intros Hn. exfalso. apply Hn. now apply H.
  - split; auto.
Qed.

Lemma markScheduled_keepsOutside env id p w :
  Forall2 (keepsOutside [id]) (scheduled w)
          (scheduled (markScheduled env id p w)).
Proof.
  unfold markScheduled. destruct (serves env _); [|apply keepsOutside_refl].
  apply patch_keepsOutside. intros r Hr. apply Nat.eqb_eq in Hr. now left.
Qed.

Lemma processJob_keepsOutside env w n job :
  Forall2 (keepsOutside [sc_id job]) (scheduled w)
          (scheduled (fst (processJob env (w, n) job))).
Proof.
  destruct (processJob_tables env w n job) as ((p & _ & ->) & _).
  apply markScheduled_keepsOutside.
Qed.

Lemma processJobs_keepsOutside env jobs w n :
  Forall2 (keepsOutside (map sc_id jobs)) (scheduled w)
          (scheduled (fst (fold_left (processJob env) jobs (w, n)))).
Proof.
  revert w n. induction jobs as [|job jobs IH]; intros w n; cbn [fold_left].
  - apply keepsOutside_refl.
  - pose proof (processJob_keepsOutside env w n job) as H1.
    destruct (processJob env (w, n) job) as [w1 n1]. cbn [fst] in H1.
    eapply keepsOutside_trans.
    + eapply keepsOutside_incl; [|exact H1]. intros x [<-|[]]. now left.
    + eapply keepsOutside_incl; [|apply IH]. intros x Hx. now right.
Qed.

Lemma claimRow_facts env w claimed row :
  Forall2 (keepsOutside [sc_id row]) (scheduled w)
          (scheduled (fst (claimRow env (w, claimed) row)))
  /\ (snd (claimRow env (w, claimed) row) = claimed
      \/ exists u, snd (claimRow env (w, claimed) row) = (claimed ++ [u])%list
                   /\ sc_id u = sc_id row)
  /\ calls (fst (claimRow env (w, claimed) row)) = calls w
  /\ profiles (fst (claimRow env (w, claimed) row)) = profiles w
  /\ timestamps (fst (claimRow env (w, claimed) row)) = timestamps w.
Proof.
  unfold claimRow. destruct (negb (serves env _)); cbn [fst snd].
  - split; [apply keepsOutside_refl|]. auto.
  - split; [|split; [|auto]].
    + apply patch_keepsOutside. intros r Hr.
      apply claimGuard_pending in Hr. left. symmetry. apply Hr.
    + destruct (patchedScheduled _ _ w) as [|u rest] eqn:E; [now left|].
      right. exists u. split; [reflexivity|].
      assert (Hin : In u (patchedScheduled (claimGuard (sc_id row))
                            (claimPatch (now env) row) w))
        by (rewrite E; now left).
      apply patchedScheduled_ids in Hin. destruct Hin as (r0 & _ & Hg & ->).
      now apply claimGuard_pending in Hg.
Qed.

Lemma claimRows_facts env rows w claimed :
  let res := fold_left (claimRow env) rows (w, claimed) in
  Forall2 (keepsOutside (map sc_id rows)) (scheduled w) (scheduled (fst res))
  /\ (exists more, snd res = (claimed ++ more)%list
                   /\ incl (map sc_id more) (map sc_id rows)
                   /\ (List.length more <= List.length rows)%nat)
  /\ calls (fst res) = calls w
  /\ profiles (fst res) = profiles w
  /\ timestamps (fst res) = timestamps w.
Proof.
  cbv zeta. revert w claimed.
  induction rows as [|row rows IH]; intros w claimed; cbn [fold_left].
  - split; [apply keepsOutside_refl|]. split; [|auto].
    exists []. rewrite app_nil_r. split; [reflexivity|]. split; [|cbn; lia].
    intros x [].
  - destruct (claimRow_facts env w claimed row) as (H1 & H2 & H3 & H4 & H5).
    destruct (claimRow env (w, claimed) row) as [w1 c1]. cbn [fst snd] in *.
    destruct (IH w1 c1) as (G1 & (more & G2 & G3 & G4) & G5 & G6 & G7).
    split; [|split; [|repeat split; congruence]].
    + eapply keepsOutside_trans.
      * eapply keepsOutside_incl; [|exact H1]. intros x [<-|[]]. now left.
      * eapply keepsOutside_incl; [|exact G1]. intros x Hx. now right.
    + destruct H2 as [->|(u & -> & Hu)].
      * exists more. split; [exact G2|]. split; [|cbn; lia].
        intros x Hx. right. now apply G3.
      * exists (u :: more). rewrite G2, <- app_assoc. split; [reflexivity|].
        split; [|cbn; lia].
        intros x [<-|Hx]; [left; now symmetry|right; now apply G3].
Qed.

Lemma processJobs_counts env jobs w n :
  (n <= snd (fold_left (processJob env) jobs (w, n))
   <= n + List.length jobs)%nat
  /\ (List.length (calls (fst (fold_left (processJob env) jobs (w, n))))
      <= List.length (calls w) + List.length jobs)%nat.
Proof.
  revert w n. induction jobs as [|job jobs IH]; intros w n; cbn [fold_left].
  - cbn. lia.
  - destruct (processJob_tables env w n job) as (_ & H1 & H2).
    destruct (processJob env (w, n) job) as [w1 n1]. cbn [fst snd] in *.
    destruct (IH w1 n1) as [G1 G2]. cbn [List.length]. lia.
Qed.

Lemma requestedLimit_range bodyLimit : 1 <= requestedLimit bodyLimit <= 25.
Proof. unfold requestedLimit. lia. Qed.

(** X9. The sweep respects the capacity.  When it goes through the
    fallback and reports [Swept], the number of rows it claimed is at
    most the requested limit (itself between 1 and 25), the claimed rows
    and the active calls it counted stay within [MAX_CONCURRENT_CALLS],
    it dialled at most as many calls as it claimed, and it added at most
    one call row for each claimed row. *)
Theorem sweep_stays_within_capacity
  (env : Env) (bodyLimit : option Z) (w w' : World)
  (processed claimed : nat) (trace : string) :
  serves env RpcClaimDue = false ->
  Future.POST env bodyLimit w = (w', Swept processed claimed trace) ->
  (processed <= claimed)%nat
  /\ Z.of_nat claimed <= requestedLimit bodyLimit <= 25
  /\ Z.of_nat claimed + countActiveCalls env w <= MAX_CONCURRENT_CALLS env
  /\ (List.length (calls w') <= List.length (calls w) + claimed)%nat.
Proof.
  intros Hrpc. unfold Future.POST.
  pose proof (requestedLimit_range bodyLimit) as Hreq.
  set (limit := Z.min _ _).
  destruct (Z.leb_spec limit 0) as [|Hpos]; [discriminate|].
  unfold claimDueScheduled. rewrite Hrpc.
  destruct (negb (serves env GetDueScheduled)); [discriminate|].
  pose proof (claimRows_facts env (dueScheduled (now env) limit w) w [])
    as (_ & (more & Hm & _ & Hlen) & Hc & _).
  destruct (fold_left (claimRow env) _ _) as [w1 jobs]. cbn [fst snd] in *.
  change ([] ++ more)%list with more in Hm. subst jobs.
  pose proof (processJobs_counts env more w1 0) as [Hn Hl].
  destruct (fold_left (processJob env) more (w1, 0%nat)) as [w2 n].
  cbn [fst snd] in *.
  intros H. injection H as <- <- <- _.
  assert (Hd : (List.length (dueScheduled (now env) limit w)
                <= Z.to_nat limit)%nat).
  { unfold dueScheduled. rewrite length_firstn. lia. }
  rewrite Hc in Hl. unfold limit in *. repeat split; lia.
Qed.

Lemma sweep_stays_within_capacity_witness :
  Z.of_nat 1 + countActiveCalls (Sample.futureEnv 5000 false) Sample.claimWorld
  <= MAX_CONCURRENT_CALLS (Sample.futureEnv 5000 false).
Proof.
  exact (proj1 (proj2 (proj2
           (sweep_stays_within_capacity (Sample.futureEnv 5000 false) None
              Sample.claimWorld
              (fst (Future.POST (Sample.futureEnv 5000 false) None
                      Sample.claimWorld))
              1 1 "trace-1" eq_refl eq_refl)))).
Defined.

(** When the store applies the writes of [markScheduled], the jobs settle
    the rows that carry their ids and change no row in another way. *)
Lemma processJobs_settle env :
  (forall id s, serves env (PatchScheduled id s) = true) ->
  forall jobs w0 n,
    Forall2 (fun r1 r2 => sc_id r2 = sc_id r1
               /\ (In (sc_id r1) (map sc_id jobs) -> settled r2)
               /\ (r2 = r1 \/ settled r2))
            (scheduled w0)
            (scheduled (fst (fold_left (processJob env) jobs (w0, n)))).
Proof.
  intros Hserved.
  induction jobs as [|job jobs IH]; intros w0 n; cbn [fold_left].
  - apply Forall2_refl_rel. intros r. split; [reflexivity|].
    split; [intros []|now left].
  - assert (H1 : Forall2 (fun r1 r2 => sc_id r2 = sc_id r1
                    /\ (sc_id r1 = sc_id job -> settled r2)
                    /\ (r2 = r1 \/ settled r2))
                   (scheduled w0)
                   (scheduled (fst (processJob env (w0, n) job)))).
    { destruct (processJob_tables env w0 n job) as ((p & Hp & ->) & _).
      rewrite (proj1 (markScheduled_rows env (sc_id job) p w0)).
      rewrite Hserved. cbn [andb].
      apply Forall2_map_same. intros r _.
      destruct (Nat.eqb_spec (sc_id r) (sc_id job)) as [E|E].
      - assert (Hs : settled (applyScheduledPatch p r)).
        { unfold settled, applyScheduledPatch. cbn.
          destruct Hp as [-> | ->]; cbn; auto. }
        split; [reflexivity|]. auto.
      - split; [reflexivity|]. split; [congruence|now left]. }
    destruct (processJob env (w0, n) job) as [w1 n1]. cbn [fst] in H1.
    eapply Forall2_compose; [|exact H1|apply (IH w1 n1)].
    intros a b c (E1 & S1 & K1) (E2 & S2 & K2).
    split; [congruence|]. split.
    + cbn [map]. intros [Hj|Hj].
      * destruct K2 as [->|K2]; [now apply S1|exact K2].
      * apply S2. now rewrite E1.
    + destruct K2 as [->|K2]; [exact K1|now right].
Qed.



(** X11. The sweep touches only rows that are due.  With unique ids, a
    scheduled call that is not pending (canceled, executed, failed or in
    the hands of another sweep) or that is scheduled after the clock is
    exactly as it was after the sweep (through the fallback), whatever
    the store and the provider answer. *)
Theorem sweep_touches_only_due_rows
  (env : Env) (bodyLimit : option Z) (w : World) :
  uniqueScheduledIds w ->
  serves env RpcClaimDue = false ->
  Forall2 (fun r r' => sc_id r' = sc_id r
                       /\ (isDue (now env) r = false -> r' = r))
          (scheduled w) (scheduled (fst (Future.POST env bodyLimit w))).
Proof.
  intros Hu Hrpc.
  assert (Hrefl : forall l : list ScheduledRow,
            Forall2 (fun r r' => sc_id r' = sc_id r
                       /\ (isDue (now env) r = false -> r' = r)) l l).
  { intros l. apply Forall2_refl_rel. auto. }
  unfold Future.POST. set (limit := Z.min _ _).
  destruct (Z.leb limit 0); [apply Hrefl|].
  unfold claimDueScheduled. rewrite Hrpc.
  destruct (negb (serves env GetDueScheduled)); [apply Hrefl|].
  pose proof (claimRows_facts env (dueScheduled (now env) limit w) w [])
    as (H1 & (more & Hm & Hi & _) & _).
  destruct (fold_left (claimRow env) _ _) as [w1 jobs]. cbn [fst snd] in *.
  change ([] ++ more)%list with more in Hm. subst jobs.
  pose proof (processJobs_keepsOutside env more w1 0%nat) as H2.
  destruct (fold_left (processJob env) more (w1, 0%nat)) as [w2 n].
  cbn [fst] in *.
  apply (keepsOutside_incl _ _ _ _ Hi) in H2.
  pose proof (keepsOutside_trans _ _ _ _ H1 H2) as H.
  eapply Forall2_In_impl; [exact H|].
  intros r r' Hr [E K]. split; [exact E|]. intros Hd. apply K.
  intros Hin. apply in_map_iff in Hin. destruct Hin as (d & Hid & Hin).
  destruct (dueScheduled_due _ _ _ _ Hin) as [Hdw Hdd].
  rewrite (row_of_id w d r Hu Hdw Hr (eq_sym Hid)) in Hd. congruence.
Qed.

Lemma sweep_touches_only_due_rows_witness :
  Forall2 (fun r r' => sc_id r' = sc_id r
                       /\ (isDue 5000 r = false -> r' = r))
          (scheduled Cases.sweepWorld)
          (scheduled (fst (Future.POST (Sample.futureEnv 5000 false) None
                             Cases.sweepWorld))).
Proof.
  refine (sweep_touches_only_due_rows (Sample.futureEnv 5000 false) None
            Cases.sweepWorld _ eq_refl).
  unfold uniqueScheduledIds. cbn. repeat constructor; cbn; intuition lia.
Defined.

End SweepRows.

Section FallbackClaim.
Import Store Remote Future Props Frames.

Lemma filter_guard_absent (l : list ScheduledRow) id :
  ~ In id (map sc_id l) -> filter (claimGuard id) l = [].
Proof.
  induction l as [|b l IH]; cbn; [reflexivity|]. intros Hn.
  destruct (claimGuard id b) eqn:E.
  - apply claimGuard_pending in E. exfalso. apply Hn. left. apply E.
  - apply IH. intros Hx. apply Hn. now right.
Qed.

Lemma filter_guard_unique (l : list ScheduledRow) row :
  NoDup (map sc_id l) -> In row l -> sc_status row = pending ->
  filter (claimGuard (sc_id row)) l = [row].
Proof.
  induction l as [|a l IH]; cbn; [tauto|].
  intros H Hin Hp. inversion H as [|? ? Hn Hl]; subst.
  destruct Hin as [->|Hin].
  - unfold claimGuard at 1. rewrite Nat.eqb_refl, Hp. cbn. f_equal.
    now apply filter_guard_absent.
  - destruct (claimGuard (sc_id row) a) eqn:E.
    + apply claimGuard_pending in E. exfalso. apply Hn.
      rewrite (proj1 E). now apply in_map.
    + now apply IH.
Qed.

Lemma dueScheduled_ids_unique nowMs limit w :
  uniqueScheduledIds w -> NoDup (map sc_id (dueScheduled nowMs limit w)).
Proof.
  unfold uniqueScheduledIds, dueScheduled. intros H.
  rewrite <- firstn_map. apply NoDup_firstn.
  eapply Permutation_NoDup.
  - apply Permutation_map. symmetry. apply sortBy_perm.
  - now apply NoDup_map_filter.
Qed.

Lemma claimRows_unique env rows :
  forall w claimed,
    uniqueScheduledIds w -> NoDup (map sc_id rows) ->
    (forall r, In r rows -> In r (scheduled w) /\ sc_status r = pending) ->
    fold_left (claimRow env) rows (w, claimed)
    = (with_scheduled w
         (map (fun r =>
                 if existsb (fun d => Nat.eqb (sc_id d) (sc_id r))
                      (filter (fun r => serves env (ClaimScheduled (sc_id r)))
                              rows)
                 then applyScheduledPatch (claimPatch (now env) r) r else r)
              (scheduled w)),
       (claimed
        ++ map (fun r => applyScheduledPatch (claimPatch (now env) r) r)
             (filter (fun r => serves env (ClaimScheduled (sc_id r))) rows))%list).
Proof.
  induction rows as [|row rows IH]; intros w claimed Hu Hnd Hrows;
    cbn [fold_left filter].
  - cbn. rewrite map_id, app_nil_r. destruct w; reflexivity.
  - inversion Hnd as [|? ? Hn Hnd']; subst.
    destruct (Hrows row (or_introl eq_refl)) as [Hin Hp].
    assert (Hrest : forall r, In r rows ->
                      In r (scheduled w) /\ sc_status r = pending).
    { intros r Hr. apply Hrows. now right. }
    unfold claimRow at 2.
    destruct (serves env (ClaimScheduled (sc_id row))) eqn:Es; cbn [negb].
    + unfold patchedScheduled.
      rewrite (filter_guard_unique _ row Hu Hin Hp). cbn [map].
      rewrite IH; [|unfold uniqueScheduledIds; now rewrite patchScheduledWhere_ids
                   |exact Hnd'|].
      * f_equal.
        -- unfold patchScheduledWhere, with_scheduled. cbn. f_equal.
           rewrite map_map. apply map_ext_in. intros r Hr.
           destruct (claimGuard (sc_id row) r) eqn:Eg.
           ++ destruct (claimGuard_pending _ _ Eg) as [Eid _].
              assert (r = row) by (apply (row_of_id w row r); auto). subst r.
              rewrite Nat.eqb_refl. cbn [orb].
              replace (existsb _ _) with false; [reflexivity|].
              symmetry. apply not_true_is_false. intros Hx.
              apply existsb_exists in Hx. destruct Hx as (d & Hd & Hid).
              apply filter_In in Hd. destruct Hd as [Hd _].
              cbn in Hid. apply Nat.eqb_eq in Hid.
              apply Hn. rewrite <- Hid. now apply in_map.
           ++ replace (Nat.eqb (sc_id row) (sc_id r)) with false; [reflexivity|].
              symmetry. apply not_true_is_false. intros Hx.
              apply Nat.eqb_eq in Hx.
              assert (r = row) by (apply (row_of_id w row r); auto). subst r.
              unfold claimGuard in Eg. rewrite Nat.eqb_refl, Hp in Eg.
              discriminate.
        -- now rewrite <- app_assoc.
      * intros r Hr. destruct (Hrest r Hr) as [Hrw Hrp]. split; [|exact Hrp].
        unfold patchScheduledWhere. cbn [scheduled with_scheduled].
        apply in_map_iff. exists r. split; [|exact Hrw].
        destruct (claimGuard (sc_id row) r) eqn:Eg; [|reflexivity].
        apply claimGuard_pending in Eg. exfalso. apply Hn.
        rewrite <- (proj1 Eg). now apply in_map.
    + now apply IH.
Qed.

(** X12. With unique ids, the fallback of [claimDueScheduled] claims
    exactly the due rows it read whose guarded PATCH the store serves:
    the jobs it returns are these rows, in the order read, each with
    status [executing], the clock as [last_attempt_at] and the attempt
    count raised by one; these rows are rewritten in the store in the
    same way and nothing else changes. *)
Theorem fallback_claims_the_rows_it_read
  (env : Env) (limit : Z) (w w1 : World) (jobs : list ScheduledRow) :
  uniqueScheduledIds w ->
  serves env RpcClaimDue = false ->
  claimDueScheduled env limit w = Some (w1, jobs) ->
  jobs = map (fun r => applyScheduledPatch (claimPatch (now env) r) r)
             (filter (fun r => serves env (ClaimScheduled (sc_id r)))
                     (dueScheduled (now env) limit w))
  /\ w1 = with_scheduled w
            (map (fun r =>
                    if existsb (fun d => Nat.eqb (sc_id d) (sc_id r))
                         (filter (fun r => serves env (ClaimScheduled (sc_id r)))
                                 (dueScheduled (now env) limit w))
                    then applyScheduledPatch (claimPatch (now env) r) r
                    else r)
                 (scheduled w))
  /\ Forall (fun j => sc_status j = executing
                      /\ sc_last_attempt_at j = Some (now env)
                      /\ sc_scheduled_for j <= now env) jobs.
Proof.
  intros Hu Hrpc. unfold claimDueScheduled. rewrite Hrpc.
  destruct (negb (serves env GetDueScheduled)); [discriminate|].
  rewrite (claimRows_unique env _ w [] Hu (dueScheduled_ids_unique _ _ w Hu)).
  - intros H. injection H as <- <-. cbn [app]. repeat split.
    apply Forall_forall. intros j Hj. apply in_map_iff in Hj.
    destruct Hj as (r & <- & Hr). apply filter_In in Hr. destruct Hr as [Hr _].
    apply dueScheduled_due in Hr. destruct Hr as [_ Hd].
    unfold isDue in Hd. apply andb_prop in Hd. destruct Hd as [_ Hd].
    apply Z.leb_le in Hd. cbn. auto.
  - intros r Hr. apply dueScheduled_due in Hr. destruct Hr as [Hin Hd].
    split; [exact Hin|]. now apply isDue_pending in Hd.
Qed.

Lemma fallback_claims_the_rows_it_read_witness :
  Forall (fun j => sc_status j = executing
                   /\ sc_last_attempt_at j = Some 5000
                   /\ sc_scheduled_for j <= 5000) [Cases.claimedRow].
Proof.
  refine (proj2 (proj2 (fallback_claims_the_rows_it_read
                          (Sample.futureEnv 5000 false) 5 Sample.claimWorld
                          (with_scheduled Sample.claimWorld [Cases.claimedRow])
                          [Cases.claimedRow] _ eq_refl eq_refl))).
  unfold uniqueScheduledIds. cbn. repeat constructor. cbn. tauto.
Defined.

(** X13. Concurrent runs of the fallback never take a row twice.  For a
    pending row with a unique id and any number of invocations of
    [claimDueScheduled] without the remote procedure, whatever their
    clocks and limits and whichever of their requests the store serves,
    in every interleaving (finished or not) at most one invocation holds
    the row and the row goes to [executing] at most once. *)
Theorem concurrent_fallbacks_never_take_a_row_twice
  (schedule : list nat) (w : World) (attempts : list Attempt)
  (r : ScheduledRow) :
  uniqueScheduledIds w ->
  In r (scheduled w) ->
  sc_status r = pending ->
  Forall (fun a => a_phase a = BeforeRpc
                   /\ serves (a_env a) RpcClaimDue = false) attempts ->
  (claimers (sc_id r) (snd (exec schedule (w, attempts))) <= 1)%nat
  /\ (executingTransitions (sc_id r) schedule (w, attempts) <= 1)%nat.
Proof.
  intros Hu Hin Hp Ha.
  apply claim_never_doubles; auto.
  revert Ha. apply Forall_impl. now intros a [H _].
Qed.

Lemma concurrent_fallbacks_never_take_a_row_twice_witness :
  (claimers 1 (snd (exec Sample.racingSchedule
                      (Sample.claimWorld, Sample.twoAttempts))) <= 1)%nat.
Proof.
  refine (proj1 (concurrent_fallbacks_never_take_a_row_twice
                   Sample.racingSchedule Sample.claimWorld Sample.twoAttempts
                   Sample.dueRow _ _ eq_refl _)).
  - unfold uniqueScheduledIds. cbn. repeat constructor. cbn. tauto.
  - cbn. now left.
  - repeat constructor.
Defined.

(** X14. A sweep settles every due row it reads.  With unique ids, when
    the store serves the read of the due rows, the guarded PATCHes of the
    fallback and the writes of [markScheduled], each pending row that is
    among the due rows read by the sweep (the oldest ones, as many as the
    requested limit and the free capacity allow) is [executed] or
    [failed] after the sweep, whatever the profile reads, the
    insertions and the dials do. *)
Theorem sweep_settles_the_due_rows_it_reads
  (env : Env) (bodyLimit : option Z) (w : World) (r : ScheduledRow) :
  uniqueScheduledIds w ->
  serves env RpcClaimDue = false ->
  serves env GetDueScheduled = true ->
  (forall id, serves env (ClaimScheduled id) = true) ->
  (forall id s, serves env (PatchScheduled id s) = true) ->
  In r (dueScheduled (now env)
          (Z.min (requestedLimit bodyLimit)
                 (Z.max 0 (MAX_CONCURRENT_CALLS env - countActiveCalls env w)))
          w) ->
  Forall2 (fun r0 r' =>
             sc_id r' = sc_id r0
             /\ (sc_id r0 = sc_id r ->
                 sc_status r' = executed \/ sc_status r' = sc_failed))
          (scheduled w) (scheduled (fst (Future.POST env bodyLimit w))).
Proof.
  intros Hu Hrpc Hget Hclaim Hmark Hin. unfold Future.POST.
  set (limit := Z.min _ _) in *.
  destruct (Z.leb_spec limit 0) as [Hle|Hpos].
  { exfalso. unfold dueScheduled in Hin.
    replace (Z.to_nat limit) with 0%nat in Hin by lia. exact Hin. }
  unfold claimDueScheduled. rewrite Hrpc, Hget. cbn [negb].
  rewrite (claimRows_unique env _ w [] Hu (dueScheduled_ids_unique _ _ w Hu)).
  2:{ intros r0 Hr0. apply dueScheduled_due in Hr0. destruct Hr0 as [H1 H2].
      split; [exact H1|]. now apply isDue_pending in H2. }
  rewrite app_nil_l.
  set (taken := filter _ (dueScheduled (now env) limit w)).
  assert (Htaken : In r taken).
  { unfold taken. apply filter_In. split; [exact Hin|apply Hclaim]. }
  set (jobs := map _ taken).
  assert (Hjob : In (sc_id r) (map sc_id jobs)).
  { unfold jobs. rewrite map_map. cbn. apply in_map_iff. exists r. auto. }
  set (w1 := with_scheduled w _).
  assert (H1 : Forall2 (fun r0 r1 => sc_id r1 = sc_id r0)
                       (scheduled w) (scheduled w1)).
  { unfold w1. cbn [scheduled with_scheduled].
    apply Forall2_map_same. intros r0 _. destruct (existsb _ _); reflexivity. }
  pose proof (processJobs_settle env Hmark jobs w1 0%nat) as H2.
  destruct (fold_left (processJob env) jobs (w1, 0%nat)) as [w2 n].
  cbn [fst] in *.
  clearbody w1 jobs. revert H1 H2. apply Forall2_compose.
  intros a b c E1 (E2 & S2 & _). split; [congruence|].
  intros E. apply S2. rewrite E1, E. exact Hjob.
Qed.

Lemma sweep_settles_the_due_rows_it_reads_witness :
  Forall2 (fun r0 r' =>
             sc_id r' = sc_id r0
             /\ (sc_id r0 = 1%nat ->
                 sc_status r' = executed \/ sc_status r' = sc_failed))
          (scheduled Cases.sweepWorld)
          (scheduled (fst (Future.POST (Sample.futureEnv 5000 false) None
                             Cases.sweepWorld))).
Proof.
  refine (sweep_settles_the_due_rows_it_reads (Sample.futureEnv 5000 false)
            None Cases.sweepWorld (Sample.scheduledAt 1 pending 3000)
            _ eq_refl eq_refl (fun _ => eq_refl) (fun _ _ => eq_refl) _).
  - unfold uniqueScheduledIds. cbn. repeat constructor; cbn; intuition lia.
  - vm_compute. now left.
Defined.

End FallbackClaim.


(* ------------------------------------------------------------------ *)
(** ** Answers of the onboarding pipeline *)
(* ------------------------------------------------------------------ *)

Section OnboardingAnswers.
Import Store Remote Process Props.

Lemma cloneAndCreate_answer env u prompt transcript extracted st :
  let r := cloneAndCreate env u prompt transcript extracted st in
  exists tail,
    statusWrites (trace (fst r)) = (statusWrites (trace st) ++ tail)%list
    /\ match snd r with
       | Completed _ _ _ _ => tail = [voice_created; agent_created; ready]
       | VoiceCreateFailed _ | NoVoiceId => tail = [voice_created; error]
       | AgentCreateFailed _ | NoAgentId =>
           tail = [voice_created; agent_created; error]
       | _ => False
       end.
Proof.
  cbv zeta. unfold cloneAndCreate.
  destruct (voiceAdd env) as [text | vid].
  { eexists. cbn [fst snd]. split; [|reflexivity].
    rewrite !trace_updateProfileStatus, trace_emit, trace_updateProfileStatus.
    rewrite !statusWrites_app. cbn. now rewrite app_nil_r, <- app_assoc. }
  destruct (Js.truthy vid); cbn [negb].
  2:{ eexists. cbn [fst snd]. split; [|reflexivity].
      rewrite !trace_updateProfileStatus, trace_emit, trace_updateProfileStatus.
      rewrite !statusWrites_app. cbn. now rewrite app_nil_r, <- app_assoc. }
  destruct (agentCreate env) as [text | a b].
  { eexists. cbn [fst snd]. split; [|reflexivity].
    rewrite !trace_updateProfileStatus, !trace_emit, !trace_updateProfileStatus,
      trace_emit, trace_updateProfileStatus.
    rewrite !statusWrites_app. cbn. now rewrite !app_nil_r, <- !app_assoc. }
  destruct (Js.truthy (Js.orS a b)); cbn [negb].
  - eexists. cbn [fst snd]. split; [|reflexivity].
    rewrite !trace_updateProfileStatus, !trace_emit, !trace_updateProfileStatus,
      trace_emit, trace_updateProfileStatus.
    rewrite !statusWrites_app. cbn. now rewrite !app_nil_r, <- !app_assoc.
  - eexists. cbn [fst snd]. split; [|reflexivity].
    rewrite !trace_updateProfileStatus, !trace_emit, !trace_updateProfileStatus,
      trace_emit, trace_updateProfileStatus.
    rewrite !statusWrites_app. cbn. now rewrite !app_nil_r, <- !app_assoc.
Qed.

(** X15. The answer of the onboarding pipeline tells which statuses the run
    asked the store to write.  [Completed] comes after
    [voice_uploaded; voice_created; agent_created; ready] and after
    nothing else; each failure of a step comes after the statuses up to
    that step followed by one [error], so no failing run ends without
    asking for [error]; every other answer comes from a run that wrote
    nothing and left the store as it was. *)
Theorem onboarding_answer_tells_the_status_writes
  (env : Process.Env) (auth : option string) (body : option Body)
  (w : World) :
  let run := Process.POST env auth body w in
  let ws := statusWrites (trace (fst run)) in
  match snd run with
  | Completed _ _ _ _ =>
      ws = [voice_uploaded; voice_created; agent_created; ready]
  | SignedUrlFailed | DownloadFailed => ws = [voice_uploaded; error]
  | VoiceCreateFailed _ | NoVoiceId =>
      ws = [voice_uploaded; voice_created; error]
  | AgentCreateFailed _ | NoAgentId =>
      ws = [voice_uploaded; voice_created; agent_created; error]
  | Unauthorized | MissingVoiceSamplePath | FailedToFetchProfile
  | ProfileNotFound | AlreadyReady _ _ =>
      ws = [] /\ world (fst run) = w
  end.
Proof.
  cbv zeta. unfold Process.POST.
  destruct auth as [userId|]; [|split; reflexivity].
  destruct (Js.nonempty userId); [|split; reflexivity]. cbn [negb].
  destruct body as [body|]; [|split; reflexivity].
  destruct (Js.nonempty (voiceSamplePath body)); [|split; reflexivity].
  cbn [negb].
  destruct (serves env (GetProfile userId)); [|split; reflexivity]. cbn [negb].
  destruct (profilesOf userId w) as [|profile rest]; [split; reflexivity|].
  destruct (andb _ _); [split; reflexivity|].
  destruct (loadTimestampMeta env userId body w
              (emit (Asked (GetProfile userId)) (mkState w []))) as [tsMeta st2] eqn:E.
  assert (H2 : statusWrites (trace st2) = []).
  { replace st2 with (snd (loadTimestampMeta env userId body w
              (emit (Asked (GetProfile userId)) (mkState w [])))) by now rewrite E.
    now rewrite (proj1 (trace_loadTimestampMeta env userId body w _)). }
  destruct (signedUrlOk env); cbn [negb].
  2:{ cbn [fst snd].
      rewrite trace_updateProfileStatus, trace_emit, trace_updateProfileStatus,
        !statusWrites_app, H2. reflexivity. }
  destruct (downloadOk env); cbn [negb].
  2:{ cbn [fst snd].
      rewrite trace_updateProfileStatus, !trace_emit, trace_updateProfileStatus,
        !statusWrites_app, H2. reflexivity. }
  pose proof (transcribeAndExtract_keeps env userId body
    (emit (Called StorageDownload)
       (emit (Called StorageSignUrl)
          (updateProfileStatus env userId voice_uploaded noExtra st2)))) as Hk.
  destruct (transcribeAndExtract env userId body _) as [[transcript extracted] st6].
  destruct Hk as [Hk _].
  rewrite !trace_emit, trace_updateProfileStatus, !statusWrites_app, H2 in Hk.
  cbn in Hk.
  destruct (cloneAndCreate_answer env userId
              (buildSystemPrompt (metaTitle tsMeta) (metaDate tsMeta) extracted)
              transcript extracted st6) as (tail & Htr & Htail).
  rewrite Htr, Hk.
  destruct (snd (cloneAndCreate env userId _ transcript extracted st6));
    try contradiction; subst tail; reflexivity.
Qed.

(** *** A completed run and the run after it *)

Lemma cloneAndCreate_completed env u prompt transcript extracted st st' v a tp ex :
  cloneAndCreate env u prompt transcript extracted st
  = (st', Completed v a tp ex) ->
  serves env (PatchProfileStatus u agent_created) = true ->
  serves env (PatchProfileStatus u ready) = true ->
  profilesOf u (world st) <> [] ->
  Js.nonempty v = true /\ Js.nonempty a = true
  /\ exists p rest,
       profilesOf u (world st') = p :: rest
       /\ setup_status p = ready
       /\ eleven_voice_id p = Some v /\ eleven_agent_id p = Some a.
Proof.
  intros H Hac Hr Hp. revert H. unfold cloneAndCreate.
  destruct (voiceAdd env) as [text|vid]; [discriminate|].
  destruct (Js.truthy vid) eqn:Hv; cbn [negb]; [|discriminate].
  destruct vid as [v0|]; [|discriminate]. cbn in Hv.
  destruct (agentCreate env) as [text|a1 a2]; [discriminate|].
  destruct (Js.truthy (Js.orS a1 a2)) eqn:Ha; cbn [negb]; [|discriminate].
  destruct (Js.orS a1 a2) as [ag|]; [|discriminate]. cbn in Ha.
  intros H. injection H as <- <- <- _ _.
  split; [exact Hv|]. split; [exact Ha|].
  unfold updateProfileStatus at 1. rewrite Hr.
  cbn [world onWorld emit]. rewrite profilesOf_patched.
  unfold updateProfileStatus at 1. rewrite Hac.
  cbn [world onWorld emit]. rewrite profilesOf_patched.
  apply (has_profile_update env u voice_created noExtra) in Hp.
  destruct (profilesOf u (world (updateProfileStatus env u voice_created
                                   noExtra st))) as [|p rest];
    [congruence|].
  cbn. eexists. eexists. split; [reflexivity|]. cbn. auto.
Qed.

(** X16. A completed onboarding makes the next one a no-op.  When a run
    answers [Completed] with a voice id and an agent id, and the store
    applied the two writes that carry them, a later run for the same
    user, in any environment that serves the read of the profile and
    with any voice sample path, answers [AlreadyReady] with the same two
    ids, sends nothing but the read of the profile and leaves the store
    alone. *)
Theorem completed_onboarding_makes_the_next_run_a_no_op
  (env env2 : Process.Env) (u : string) (body body2 : Body) (w : World)
  (st : State) (v a : string) (tp : option string)
  (ex : option ExtractedReflection) :
  Process.POST env (Some u) (Some body) w = (st, Completed v a tp ex) ->
  serves env (PatchProfileStatus u agent_created) = true ->
  serves env (PatchProfileStatus u ready) = true ->
  serves env2 (GetProfile u) = true ->
  Js.nonempty (voiceSamplePath body2) = true ->
  Process.POST env2 (Some u) (Some body2) (world st)
  = (mkState (world st) [Asked (GetProfile u)],
     AlreadyReady (Some v) (Some a)).
Proof.
  intros H Hac Hr Hg Hb.
  assert (Hfinal : Js.nonempty u = true /\ Js.nonempty v = true
                   /\ Js.nonempty a = true
                   /\ exists p rest,
                        profilesOf u (world st) = p :: rest
                        /\ setup_status p = ready
                        /\ eleven_voice_id p = Some v
                        /\ eleven_agent_id p = Some a).
  { revert H. unfold Process.POST.
    destruct (Js.nonempty u); [|discriminate]. cbn [negb].
    destruct (Js.nonempty (voiceSamplePath body)); [|discriminate]. cbn [negb].
    destruct (serves env (GetProfile u)); [|discriminate]. cbn [negb].
    destruct (profilesOf u w) as [|profile rest] eqn:Ep; [discriminate|].
    destruct (andb _ _); [discriminate|].
    destruct (loadTimestampMeta env u body w
                (emit (Asked (GetProfile u)) (mkState w []))) as [tsMeta st2] eqn:E.
    assert (H2 : world st2 = w).
    { replace st2 with (snd (loadTimestampMeta env u body w
                (emit (Asked (GetProfile u)) (mkState w [])))) by now rewrite E.
      now rewrite loadTimestampMeta_world. }
    destruct (signedUrlOk env); cbn [negb]; [|discriminate].
    destruct (downloadOk env); cbn [negb]; [|discriminate].
    pose proof (transcribeAndExtract_keeps env u body
      (emit (Called StorageDownload)
         (emit (Called StorageSignUrl)
            (updateProfileStatus env u voice_uploaded noExtra st2)))) as Hk.
    destruct (transcribeAndExtract env u body _) as [[transcript extracted] st6].
    destruct Hk as [_ Hk].
    intros H. split; [reflexivity|].
    apply (cloneAndCreate_completed env u _ _ _ st6 st v a tp ex H Hac Hr).
    unfold profilesOf. rewrite Hk. cbn [world emit].
    apply (has_profile_update env u voice_uploaded noExtra st2).
    rewrite H2, Ep. discriminate. }
  destruct Hfinal as (Hu & Hv & Ha & p & rest & Hp & Hs & Hpv & Hpa).
  unfold Process.POST. rewrite Hu, Hb, Hg, Hp. cbn [negb].
  rewrite Hs, Hpv, Hpa. cbn [SetupStatus_eqb Js.truthy]. rewrite Hv, Ha.
  reflexivity.
Qed.

Lemma completed_onboarding_makes_the_next_run_a_no_op_witness :
  snd (Process.POST Cases.onboardingEnv (Some Sample.alice) (Some Sample.body1)
         (world (fst (Process.POST Cases.onboardingEnv (Some Sample.alice)
                        (Some Sample.body1) Cases.newcomer))))
  = AlreadyReady (Some "voice_new") (Some "agent_new").
Proof.
  exact (f_equal snd
           (completed_onboarding_makes_the_next_run_a_no_op
              Cases.onboardingEnv Cases.onboardingEnv Sample.alice
              Sample.body1 Sample.body1 Cases.newcomer
              (fst (Process.POST Cases.onboardingEnv (Some Sample.alice)
                      (Some Sample.body1) Cases.newcomer))
              "voice_new" "agent_new" (Some "hello")
              (Some Sample.someReflection)
              eq_refl eq_refl eq_refl eq_refl eq_refl)).
Defined.

End OnboardingAnswers.

Section ReadyAcrossOperations.
Import Store Remote Props Frames.

Lemma markScheduled_profiles env id p w :
  profiles (Future.markScheduled env id p w) = profiles w.
Proof. unfold Future.markScheduled. destruct (Future.serves env _); reflexivity. Qed.

Lemma patchCall_profiles env id p w :
  profiles (Future.patchCall env id p w) = profiles w.
Proof. unfold Future.patchCall. destruct (Future.serves env _); reflexivity. Qed.

Lemma failJob_profiles env sid callId message w :
  profiles (Future.failJob env sid callId message w) = profiles w.
Proof.
  unfold Future.failJob. destruct callId.
  - now rewrite patchCall_profiles, markScheduled_profiles.
  - apply markScheduled_profiles.
Qed.

Lemma processJob_profiles env w n job :
  profiles (fst (Future.processJob env (w, n) job)) = profiles w.
Proof.
  unfold Future.processJob.
  destruct (if Future.serves env (GetProfile (sc_user job)) then _ else None)
    as [prof|]; [|apply failJob_profiles].
  destruct (negb (SetupStatus_eqb _ _)); [apply failJob_profiles|].
  destruct (negb (Js.truthy (eleven_agent_id prof))); [apply failJob_profiles|].
  destruct (negb (Js.truthy (phone_e164 prof))); [apply failJob_profiles|].
  destruct (negb (Future.serves env (InsertCall _))); [apply failJob_profiles|].
  unfold insertCall.
  destruct (Nat.eqb (freshCallId w) 0);
    [cbn [fst]; now rewrite failJob_profiles|].
  destruct (Future.dial env (sc_id job)); cbn [fst];
    rewrite ?failJob_profiles, ?markScheduled_profiles, ?patchCall_profiles;
    reflexivity.
Qed.

Lemma processJobs_profiles env jobs w n :
  profiles (fst (fold_left (Future.processJob env) jobs (w, n))) = profiles w.
Proof.
  revert w n. induction jobs as [|job jobs IH]; intros w n; cbn [fold_left];
    [reflexivity|].
  pose proof (processJob_profiles env w n job) as H.
  destruct (Future.processJob env (w, n) job) as [w1 n1]. cbn [fst] in H.
  now rewrite IH.
Qed.

Lemma sweep_profiles env bodyLimit w :
  profiles (fst (Future.POST env bodyLimit w)) = profiles w.
Proof.
  unfold Future.POST. destruct (Z.leb _ 0); [reflexivity|].
  set (limit := Z.min _ _). unfold Future.claimDueScheduled.
  destruct (Future.serves env RpcClaimDue).
  - unfold Future.rpcClaimDue.
    pose proof (processJobs_profiles env
      (patchedScheduled
         (fun r => andb (existsb (fun d => Nat.eqb (sc_id d) (sc_id r))
                           (Future.dueScheduled (Future.now env) limit w))
                        (Future.isDue (Future.now env) r))
         (mkScheduledPatch (Some executing) None None None None None) w)
      (patchScheduledWhere
         (fun r => andb (existsb (fun d => Nat.eqb (sc_id d) (sc_id r))
                           (Future.dueScheduled (Future.now env) limit w))
                        (Future.isDue (Future.now env) r))
         (mkScheduledPatch (Some executing) None None None None None) w)
      0%nat) as H.
    destruct (fold_left _ _ _) as [w2 n]. exact H.
  - destruct (negb (Future.serves env GetDueScheduled)); [reflexivity|].
    pose proof (claimRows_facts env
                  (Future.dueScheduled (Future.now env) limit w) w [])
      as (_ & _ & _ & Hp & _).
    destruct (fold_left (Future.claimRow env) _ _) as [w1 jobs].
    cbn [fst] in Hp.
    pose proof (processJobs_profiles env jobs w1 0%nat) as H.
    destruct (fold_left _ _ _) as [w2 n]. cbn [fst] in *. congruence.
Qed.

Lemma cancel_profiles env auth idParam w :
  profiles (fst (Schedule.DELETE env auth idParam w)) = profiles w.
Proof.
  unfold Schedule.DELETE. destruct auth as [u|]; [|reflexivity].
  destruct (negb (Js.nonempty u)); [reflexivity|].
  destruct idParam as [id|]; [|reflexivity].
  destruct (negb (Schedule.serves env _)); reflexivity.
Qed.

(** X17. Across any sequence of operations of the core (onboarding runs,
    manual calls, sweeps, cancellations), a store in which every [ready]
    profile has a voice id and an agent id stays such a store, provided
    the store applies, in each onboarding run, the write that carries the
    voice id.  Failures of any other request or provider step do not
    matter. *)
Theorem ready_profiles_keep_both_ids_across_operations
  (ops : list Core.Operation) (w : World) :
  Forall voiceWriteServed ops ->
  readyInvariant w -> readyInvariant (Core.run ops w).
Proof.
  unfold Core.run. revert w.
  induction ops as [|op ops IH]; intros w Hs Hw; cbn [fold_left]; [exact Hw|].
  inversion Hs as [|? ? Hop Hrest]; subst.
  apply IH; [exact Hrest|].
  destruct op as [env auth body|env auth|env limit|env auth idParam];
    cbn [Core.apply].
  - apply ready_invariant_when_voice_write_applied; [|exact Hw].
    intros u ->. exact Hop.
  - unfold readyInvariant. now rewrite (proj1 (POST_tables env auth w)).
  - unfold readyInvariant. now rewrite sweep_profiles.
  - unfold readyInvariant. now rewrite cancel_profiles.
Qed.

Lemma ready_profiles_keep_both_ids_across_operations_witness :
  readyInvariant (Core.run Cases.dayOfOperations Cases.newcomer).
Proof.
  apply ready_profiles_keep_both_ids_across_operations.
  - repeat constructor.
  - repeat constructor.
Defined.

End ReadyAcrossOperations.

Section PromptShape.
Import Store Process Frames.

Lemma append_assoc (a b c : string) : ((a ++ b) ++ c = a ++ (b ++ c))%string.
Proof. induction a as [|x a IH]; cbn; [reflexivity|now rewrite IH]. Qed.

Lemma append_empty_r (a : string) : (a ++ EmptyString)%string = a.
Proof. induction a as [|x a IH]; cbn; [reflexivity|now rewrite IH]. Qed.

Lemma join_snoc sep (l : list string) x :
  l <> [] -> Js.join sep (l ++ [x]) = (Js.join sep l ++ sep ++ x)%string.
Proof.
  induction l as [|a l IH]; [congruence|]. intros _.
  destruct l as [|b l]; [reflexivity|].
  change (Js.join sep ((a :: b :: l) ++ [x]))
    with (a ++ sep ++ Js.join sep ((b :: l) ++ [x]))%string.
  rewrite IH by discriminate.
  change (Js.join sep (a :: b :: l))
    with (a ++ sep ++ Js.join sep (b :: l))%string.
  now rewrite !append_assoc.
Qed.

Lemma nonempty_labelled label value :
  Js.nonempty label = true ->
  Js.nonempty (labelled label value) = Js.nonempty value.
Proof.
  intros H. unfold labelled. destruct (Js.nonempty value) eqn:E; [|reflexivity].
  destruct label; [discriminate|reflexivity].
Qed.

Lemma filter_one_more {A : Type} (p : A -> bool) x l :
  filter p (x :: l) = (filter p [x] ++ filter p l)%list.
Proof. cbn. destruct (p x); reflexivity. Qed.

(** Appending one labelled line to the lines of a prompt. *)
Lemma join_labelled (l : list string) label value :
  l <> [] -> Js.nonempty label = true ->
  Js.join newline (l ++ filter Js.nonempty [labelled label value])
  = (Js.join newline l ++ promptSection label value)%string.
Proof.
  intros Hl Hlab. cbn [filter]. rewrite (nonempty_labelled _ _ Hlab).
  unfold promptSection, labelled.
  destruct (Js.nonempty value).
  - now apply join_snoc.
  - now rewrite app_nil_r, append_empty_r.
Qed.

Lemma filter_labelled_nonempty (l : list string) label value :
  l <> [] -> (l ++ filter Js.nonempty [labelled label value])%list <> [].
Proof. intros H. destruct l; [congruence|discriminate]. Qed.

(** X18. The system prompt built from a reflection is the generic prompt
    (the one built without a reflection) followed by one line for each
    part of the reflection that has something in it, in the order goals,
    fears, situation, current work, other notes; the goals and the fears
    are their non-empty entries joined by [; ].  A part that is empty
    adds nothing, so a reflection with nothing in it gives the generic
    prompt. *)
Theorem prompt_is_generic_prompt_plus_reflection_lines
  (title snapshotDate : option string) (r : ExtractedReflection) :
  buildSystemPrompt title snapshotDate (Some r)
  = (buildSystemPrompt title snapshotDate None
     ++ promptSection "Goals: " (Js.join "; " (filter Js.nonempty (goals r)))
     ++ promptSection "Fears: " (Js.join "; " (filter Js.nonempty (fears r)))
     ++ promptSection "Situation: " (situation r)
     ++ promptSection "Current work/school: "
          (match currentWork r with
           | Some s => s
           | None => EmptyString
           end)
     ++ promptSection "Other notes: "
          (match otherNotes r with
           | Some s => s
           | None => EmptyString
           end))%string.
Proof.
  assert (HorEmpty : forall v, Js.nonempty (orEmpty v)
                               = Js.nonempty (match v with
                                              | Some s => s
                                              | None => EmptyString end)
                               /\ (Js.nonempty (orEmpty v) = true ->
                                   orEmpty v = match v with
                                               | Some s => s
                                               | None => EmptyString end)).
  { intros [s|]; [|split; reflexivity]. unfold orEmpty, Js.orS. cbn.
    destruct s; split; reflexivity. }
  assert (Hsec : forall label v,
            promptSection label (orEmpty v)
            = promptSection label (match v with
                                   | Some s => s
                                   | None => EmptyString end)).
  { intros label v. unfold promptSection.
    destruct (HorEmpty v) as [H1 H2]. rewrite <- H1.
    destruct (Js.nonempty (orEmpty v)); [|reflexivity].
    now rewrite H2. }
  rewrite buildSystemPrompt_generic.
  unfold buildSystemPrompt, promptLines, joinTruthy.
  set (base := (filter Js.nonempty framing ++ [snapshotLine title snapshotDate])%list).
  assert (Hbase : base <> []) by (unfold base; cbn; discriminate).
  rewrite filter_app.
  rewrite (filter_one_more _ (snapshotLine title snapshotDate)).
  do 4 (rewrite (filter_one_more _ (labelled _ _) (_ :: _))).
  replace (filter Js.nonempty [snapshotLine title snapshotDate])
    with [snapshotLine title snapshotDate]
    by (cbn [filter]; now rewrite snapshotLine_nonempty).
  rewrite !app_assoc. fold base.
  rewrite <- !Hsec.
  repeat (rewrite join_labelled;
          [|repeat apply filter_labelled_nonempty; exact Hbase|reflexivity]).
  now rewrite !append_assoc.
Qed.

End PromptShape.


(* ------------------------------------------------------------------ *)
(** ** Scheduling and the dashboard *)
(* ------------------------------------------------------------------ *)

Section SchedulingProofs.
Import Store Remote Props.

Lemma fresh_scheduled_id w r :
  In r (scheduled w) -> (sc_id r < Scheduling.freshScheduledId w)%nat.
Proof.
  intros H. unfold Scheduling.freshScheduledId.
  assert (Hle : (list_max (map sc_id (scheduled w))
                 <= list_max (map sc_id (scheduled w)))%nat) by lia.
  apply list_max_le in Hle. rewrite Forall_forall in Hle.
  specialize (Hle (sc_id r) (in_map sc_id _ _ H)). lia.
Qed.

Lemma dueScheduled_app_not_due clock limit w row :
  Future.isDue clock row = false ->
  Future.dueScheduled clock limit (with_scheduled w (scheduled w ++ [row]))
  = Future.dueScheduled clock limit w.
Proof.
  intros H. unfold Future.dueScheduled. cbn [scheduled with_scheduled].
  rewrite filter_app. cbn [filter]. rewrite H. now rewrite app_nil_r.
Qed.

(** The two shapes of a run of [POST]. *)
Lemma scheduling_POST_shape (env : Scheduling.Env) (auth : option string)
  (body : option Scheduling.Body) (w : World) :
  match Scheduling.POST env auth body w with
  | (w', Scheduling.Scheduled id t s) =>
      exists u ts v,
        auth = Some u /\ Js.nonempty u = true
        /\ body = Some (Scheduling.mkBody v)
        /\ Scheduling.truthy v = true
        /\ Scheduling.notAfter (Scheduling.date v) (Scheduling.now env) = false
        /\ Scheduling.timestamptz env (Scheduling.raw v) = Some t
        /\ hd_error (latestTimestampsOf u w) = Some ts
        /\ s = pending
        /\ id = Scheduling.freshScheduledId w
        /\ w' = with_scheduled w
                  (scheduled w
                   ++ [mkScheduled id u (ts_id ts) t pending
                                   None None None None None])
  | (w', _) => w' = w
  end.
Proof.
  unfold Scheduling.POST.
  destruct auth as [u|]; [|reflexivity].
  destruct (Js.nonempty u) eqn:Hu; cbn [negb]; [|reflexivity].
  destruct (negb (Scheduling.configured env)); [reflexivity|].
  destruct body as [[v]|]; [|reflexivity]. cbn [Scheduling.scheduledFor].
  destruct (Scheduling.truthy v) eqn:Hv; cbn [negb]; [|reflexivity].
  destruct (Scheduling.notAfter (Scheduling.date v) (Scheduling.now env))
    eqn:Hd; [reflexivity|].
  destruct (negb (Scheduling.serves env (Scheduling.LatestTimestamp u)));
    [reflexivity|].
  destruct (latestTimestampsOf u w) as [|ts rest] eqn:Ets; [reflexivity|].
  destruct (negb (Scheduling.serves env (Scheduling.InsertScheduledCall u)));
    [reflexivity|].
  destruct (Scheduling.timestamptz env (Scheduling.raw v)) as [t|] eqn:Et;
    [|reflexivity].
  unfold Scheduling.insertScheduled.
  cbn [sc_id sc_scheduled_for sc_status].
  exists u, ts, v. repeat split; auto. now rewrite Ets.
Qed.

(** X19. Scheduling a call either changes nothing or adds one row.  Every
    answer but success leaves the store as it was.  On success the value
    of [scheduledFor] is truthy, the store has read an instant in it, a
    date that the handler reads in it is after the clock, and the store
    has one more scheduled call: a row of the user with a new id, the
    instant that the store read, the user's latest timestamp and status
    [pending].  When the handler reads that same instant in the value,
    the sweep does not see the row as long as its clock is not after the
    clock of the request. *)
Theorem scheduling_adds_one_pending_row
  (env : Scheduling.Env) (auth : option string)
  (body : option Scheduling.Body) (w : World) :
  match Scheduling.POST env auth body w with
  | (w', Scheduling.Scheduled id t s) =>
      exists u ts v,
        auth = Some u
        /\ body = Some (Scheduling.mkBody v)
        /\ Scheduling.truthy v = true
        /\ Scheduling.timestamptz env (Scheduling.raw v) = Some t
        /\ (forall d, Scheduling.date v = Some d -> Scheduling.now env < d)
        /\ hd_error (latestTimestampsOf u w) = Some ts
        /\ s = pending
        /\ ~ In id (map sc_id (scheduled w))
        /\ w' = with_scheduled w
                  (scheduled w
                   ++ [mkScheduled id u (ts_id ts) t pending
                                   None None None None None])
        /\ (Scheduling.date v = Some t ->
            forall clock limit,
              clock <= Scheduling.now env ->
              Future.dueScheduled clock limit w'
              = Future.dueScheduled clock limit w)
  | (w', _) => w' = w
  end.
Proof.
  pose proof (scheduling_POST_shape env auth body w) as H.
  destruct (Scheduling.POST env auth body w) as [w' r].
  destruct r; try exact H.
  destruct H as (u & ts & v & Ha & _ & Hb & Hv & Hd & Ht & Hts & Hs & Hid & Hw).
  assert (Hafter : forall d, Scheduling.date v = Some d ->
                             Scheduling.now env < d).
  { intros d E. rewrite E in Hd. cbn in Hd. now apply Z.leb_gt in Hd. }
  exists u, ts, v. repeat split; auto.
  - subst id. intros Hin. apply in_map_iff in Hin.
    destruct Hin as (r & Hr & Hin). apply fresh_scheduled_id in Hin. lia.
  - intros E clock limit Hc. rewrite Hw. apply dueScheduled_app_not_due.
    unfold Future.isDue. cbn. apply Z.leb_gt. specialize (Hafter _ E). lia.
Qed.

(** A value in which the handler reads no date passes its check: the word
    yesterday is scheduled at the instant that the store reads in it,
    before the clock of the request, and the row is due at once. *)
Lemma word_without_a_date_is_scheduled_in_the_past :
  let run := Scheduling.POST Cases.schedulingEnv (Some Sample.alice)
               (Some Cases.yesterday) Cases.idle in
  snd run = Scheduling.Scheduled 1 2000 pending
  /\ 2000 < Scheduling.now Cases.schedulingEnv
  /\ map sc_id (Future.dueScheduled (Scheduling.now Cases.schedulingEnv) 5
                  (fst run)) = [1%nat].
Proof. cbv zeta. repeat split; reflexivity. Qed.

Lemma GET_listed env u w :
  Js.nonempty u = true ->
  Scheduling.configured env = true ->
  Scheduling.serves env (Scheduling.ListScheduledCalls u) = true ->
  Scheduling.GET env (Some u) w
  = Scheduling.Listed
      (Js.sortBy Future.scheduledAsc
         (filter (fun r => String.eqb (sc_user r) u) (scheduled w))).
Proof.
  intros Hu Hc Hs. unfold Scheduling.GET. now rewrite Hu, Hc, Hs.
Qed.

Lemma In_listed u (l : list ScheduledRow) r :
  In r (filter Dashboard.isUpcoming
          (Js.sortBy Future.scheduledAsc
             (filter (fun r => String.eqb (sc_user r) u) l)))
  <-> In r l /\ sc_user r = u /\ Dashboard.isUpcoming r = true.
Proof.
  rewrite filter_In. split.
  - intros [H Hup].
    apply (Permutation_in _ (sortBy_perm Future.scheduledAsc _)) in H.
    apply filter_In in H. destruct H as [H Hu]. apply String.eqb_eq in Hu. auto.
  - intros (H & Hu & Hup). split; [|exact Hup].
    apply (Permutation_in _ (Permutation_sym (sortBy_perm Future.scheduledAsc _))).
    apply filter_In. split; [exact H|]. now apply String.eqb_eq.
Qed.

Lemma isUpcoming_status r :
  Dashboard.isUpcoming r = true <->
  sc_status r = pending \/ sc_status r = executing.
Proof.
  unfold Dashboard.isUpcoming. destruct (sc_status r); cbn; split;
    intros H; auto; try discriminate; destruct H; discriminate.
Qed.

(** X20. A call scheduled from the dashboard shows in its list.  The
    dashboard sends the date string of the instant selected.  When the
    request succeeds and the listing is served, the list shown afterwards
    has the new row, pending at the time that the route answers, and
    consists of pending and executing scheduled calls of the user only. *)
Theorem scheduled_call_shows_on_the_dashboard
  (envPost envList : Scheduling.Env) (u : string) (t t' : Z) (iso : string)
  (shown shown' : list ScheduledRow) (w w' : World)
  (id : nat) (s : ScheduledStatus) :
  Dashboard.scheduleCall envPost envList (Some u) (Some t) shown w
  = (w', shown') ->
  Js.toISOString t = Some iso ->
  snd (Scheduling.POST envPost (Some u)
         (Some (Dashboard.requestBody iso t)) w)
  = Scheduling.Scheduled id t' s ->
  Scheduling.configured envList = true ->
  Scheduling.serves envList (Scheduling.ListScheduledCalls u) = true ->
  (exists row, In row shown' /\ sc_id row = id /\ sc_user row = u
               /\ sc_scheduled_for row = t' /\ sc_status row = pending)
  /\ Forall (fun r => In r (scheduled w') /\ sc_user r = u
                      /\ (sc_status r = pending \/ sc_status r = executing))
            shown'.
Proof.
  intros H Hiso Hpost Hc Hs. revert H. unfold Dashboard.scheduleCall.
  rewrite Hiso.
  pose proof (scheduling_POST_shape envPost (Some u)
                (Some (Dashboard.requestBody iso t)) w) as Hrow.
  destruct (Scheduling.POST envPost (Some u)
              (Some (Dashboard.requestBody iso t)) w) as [w1 data].
  cbn [snd] in Hpost. subst data.
  destruct Hrow as (u0 & ts & v & Hu0 & Hu & _ & _ & _ & _ & _ & -> & _ & ->).
  injection Hu0 as <-.
  rewrite (GET_listed envList u _ Hu Hc Hs).
  cbn [Dashboard.fetchScheduledCalls].
  intros H. injection H as <- <-. split.
  - exists (mkScheduled id u (ts_id ts) t' pending None None None None None).
    split; [apply In_listed|cbn; auto].
    split; [|split; reflexivity].
    apply in_or_app. right. now left.
  - apply Forall_forall. intros r Hr. apply In_listed in Hr.
    destruct Hr as (H1 & H2 & H3). apply isUpcoming_status in H3. auto.
Qed.

Lemma scheduled_call_shows_on_the_dashboard_witness :
  Forall (fun r => In r (scheduled
                           (fst (Dashboard.scheduleCall Cases.schedulingEnv
                                   Cases.schedulingEnv (Some Sample.alice)
                                   (Some 9000) [] Cases.idle)))
                   /\ sc_user r = Sample.alice
                   /\ (sc_status r = pending \/ sc_status r = executing))
         (snd (Dashboard.scheduleCall Cases.schedulingEnv Cases.schedulingEnv
                 (Some Sample.alice) (Some 9000) [] Cases.idle)).
Proof.
  exact (proj2 (scheduled_call_shows_on_the_dashboard Cases.schedulingEnv
                  Cases.schedulingEnv Sample.alice 9000 9000
                  "1970-01-01T00:00:09.000Z" []
                  (snd (Dashboard.scheduleCall Cases.schedulingEnv
                          Cases.schedulingEnv (Some Sample.alice) (Some 9000)
                          [] Cases.idle))
                  Cases.idle
                  (fst (Dashboard.scheduleCall Cases.schedulingEnv
                          Cases.schedulingEnv (Some Sample.alice) (Some 9000)
                          [] Cases.idle))
                  1 pending eq_refl eq_refl eq_refl eq_refl eq_refl)).
Defined.

(** X21. A scheduled call cancelled from the dashboard leaves its list.
    When the cancellation succeeds and the listing is served, no row with
    the cancelled id is shown any more, and every other pending or
    executing scheduled call of the user is still shown. *)
Theorem cancelled_call_leaves_the_dashboard
  (envDelete : Schedule.Env) (envList : Scheduling.Env) (u : string)
  (callId : nat) (shown shown' : list ScheduledRow) (w w' : World) :
  Dashboard.cancelScheduledCall envDelete envList (Some u) callId shown w
  = (w', shown') ->
  Js.nonempty u = true ->
  Schedule.serves envDelete (CancelScheduled callId u) = true ->
  Scheduling.configured envList = true ->
  Scheduling.serves envList (Scheduling.ListScheduledCalls u) = true ->
  Forall (fun r => sc_id r <> callId) shown'
  /\ forall r, In r (scheduled w) -> sc_user r = u ->
               sc_status r = pending \/ sc_status r = executing ->
               sc_id r <> callId -> In r shown'.
Proof.
  intros H Hu Hd Hc Hs. revert H.
  unfold Dashboard.cancelScheduledCall, Schedule.DELETE.
  rewrite Hu, Hd. cbn [negb].
  rewrite (GET_listed envList u _ Hu Hc Hs).
  cbn [Dashboard.fetchScheduledCalls].
  intros H. injection H as <- <-. split.
  - apply Forall_forall. intros r Hr. apply In_listed in Hr.
    destruct Hr as (H1 & H2 & H3).
    unfold patchScheduledWhere in H1. cbn [scheduled with_scheduled] in H1.
    apply in_map_iff in H1. destruct H1 as (r0 & Hr0 & _).
    destruct (andb (Nat.eqb (sc_id r0) callId) (String.eqb (sc_user r0) u))
      eqn:E.
    + subst r. cbn in H3. discriminate.
    + subst r0. intros Hid. rewrite Hid, Nat.eqb_refl in E. cbn in E.
      apply String.eqb_neq in E. congruence.
  - intros r Hr Hru Hst Hid. apply In_listed. split; [|split].
    + unfold patchScheduledWhere. cbn [scheduled with_scheduled].
      apply in_map_iff. exists r. split; [|exact Hr].
      apply Nat.eqb_neq in Hid. now rewrite Hid.
    + exact Hru.
    + now apply isUpcoming_status.
Qed.

Lemma cancelled_call_leaves_the_dashboard_witness :
  Forall (fun r => sc_id r <> 1%nat)
         (snd (Dashboard.cancelScheduledCall Sample.scheduleEnv
                 Cases.schedulingEnv (Some Sample.alice) 1 []
                 Cases.mixedSchedule)).
Proof.
  exact (proj1 (cancelled_call_leaves_the_dashboard Sample.scheduleEnv
                  Cases.schedulingEnv Sample.alice 1 []
                  (snd (Dashboard.cancelScheduledCall Sample.scheduleEnv
                          Cases.schedulingEnv (Some Sample.alice) 1 []
                          Cases.mixedSchedule))
                  Cases.mixedSchedule
                  (fst (Dashboard.cancelScheduledCall Sample.scheduleEnv
                          Cases.schedulingEnv (Some Sample.alice) 1 []
                          Cases.mixedSchedule))
                  eq_refl eq_refl eq_refl eq_refl eq_refl)).
Defined.

End SchedulingProofs.


(* ------------------------------------------------------------------ *)
(** ** History, transcripts, upload and extraction *)
(* ------------------------------------------------------------------ *)

Section HistoryProofs.
Import Store.

Lemma pageSize_bound limit :
  (History.pageSize limit = Js.NaN <-> limit = Some Js.NaN)
  /\ (History.pageSize limit <> Js.NaN ->
      Js.numberLe (History.pageSize limit) (Js.ofZ 100) = true).
Proof.
  unfold History.pageSize.
  destruct limit as [[| |q|]|]; cbn [Js.mathMin Js.numberLe Js.ofZ].
  - split; [split; reflexivity|]. congruence.
  - split; [split; discriminate|]. reflexivity.
  - destruct (QArith_base.Qle_bool q (QArith_base.inject_Z 100)) eqn:E;
      (split; [split; discriminate|]); intros _; [exact E|reflexivity].
  - split; [split; discriminate|]. reflexivity.
  - split; [split; discriminate|]. reflexivity.
Qed.

(** X22. The history route hands out conversations of the user's own
    agent only.  A conversation is returned only to a user whose profile
    has an agent id, and never when the conversation names another
    agent; a conversation that names no agent is passed through.  The
    list is asked for the user's agent.  Its page size is not a number
    exactly when the parameter [limit] is given and is no number, and it
    is 100 at most otherwise. *)
Theorem history_serves_only_the_users_agent
  (env : History.Env) (auth : option string) (params : History.Params)
  (w : World) :
  match History.GET env auth params w with
  | History.Conversation conv =>
      exists u p rest agent,
        auth = Some u /\ profilesOf u w = p :: rest
        /\ eleven_agent_id p = Some agent /\ Js.nonempty agent = true
        /\ forall j a, conv = Some j -> History.agent_id j = Some a ->
                       Js.nonempty a = true -> a = agent
  | History.Conversations query _ =>
      exists u p rest,
        auth = Some u /\ profilesOf u w = p :: rest
        /\ eleven_agent_id p = Some (History.q_agent_id query)
        /\ (History.q_page_size query = Js.NaN
            <-> History.p_limit params = Some Js.NaN)
        /\ (History.q_page_size query <> Js.NaN ->
            Js.numberLe (History.q_page_size query) (Js.ofZ 100) = true)
  | _ => True
  end.
Proof.
  unfold History.GET.
  destruct (negb (History.configured env)); [exact I|].
  destruct auth as [u|]; [|exact I].
  destruct (negb (Js.nonempty u)); [exact I|].
  destruct (negb (History.servesProfile env)); [exact I|].
  destruct (profilesOf u w) as [|p rest] eqn:Ep; [exact I|].
  destruct (eleven_agent_id p) as [agent|] eqn:Ea; [|exact I].
  cbn [Js.truthy]. destruct (Js.nonempty agent) eqn:Hn; [|exact I].
  cbn [negb].
  destruct (Js.truthy (Js.orS (History.p_conversation_id params)
                              (History.p_id params))).
  - match goal with |- context [History.conversationDetails env ?c] =>
      set (r := History.conversationDetails env c) end.
    destruct (negb (History.ok r)); [exact I|].
    destruct (History.json r) as [j|] eqn:Ej.
    + destruct (History.agent_id j) as [a|] eqn:Eja; cbn [Js.truthy].
      * destruct (Js.nonempty a) eqn:Hna; cbn [andb].
        -- destruct (String.eqb_spec a agent) as [->|Hne]; cbn [negb].
           ++ exists u, p, rest, agent. repeat split; auto.
              intros j' a' Hj Ha' _. injection Hj as <-. congruence.
           ++ exact I.
        -- exists u, p, rest, agent. repeat split; auto.
           intros j' a' Hj Ha' Hn'. injection Hj as <-. congruence.
      * cbn [andb]. exists u, p, rest, agent. repeat split; auto.
        intros j' a' Hj Ha'. injection Hj as <-. congruence.
    + cbn [Js.truthy andb]. exists u, p, rest, agent. repeat split; auto.
      intros j' a' Hj. discriminate.
  - match goal with |- context [History.conversationList env ?q] =>
      set (r := History.conversationList env q) end.
    destruct (negb (History.ok r)); [exact I|].
    exists u, p, rest. cbn [History.q_agent_id History.q_page_size].
    split; [reflexivity|]. split; [exact Ep|]. split; [exact Ea|].
    apply pageSize_bound.
Qed.

End HistoryProofs.

Section TranscriptProofs.
Import Store.

Lemma In_completedCallsOf u w c :
  In c (Transcripts.completedCallsOf u w)
  <-> In c (calls w) /\ call_user c = u /\ call_status c = completed.
Proof.
  unfold Transcripts.completedCallsOf. split.
  - intros H.
    apply (Permutation_in _ (sortBy_perm createdDesc _)) in H.
    apply filter_In in H. destruct H as [H E].
    apply andb_prop in E. destruct E as [E1 E2].
    apply String.eqb_eq in E1.
    destruct (call_status c); try discriminate. auto.
  - intros (H & Hu & Hs).
    apply (Permutation_in _ (Permutation_sym (sortBy_perm createdDesc _))).
    apply filter_In. split; [exact H|].
    rewrite Hs. cbn. rewrite andb_true_r. now apply String.eqb_eq.
Qed.

Lemma join_sound (cl : list CallRow) table tc :
  In tc (map (fun t =>
                (t, find (fun c => Nat.eqb (call_id c) (Transcripts.tr_call_id t))
                         cl))
             (Js.sortBy Transcripts.transcriptDesc
                (filter (fun t => existsb (Nat.eqb (Transcripts.tr_call_id t))
                                    (map call_id cl)) table))) ->
  In (fst tc) table
  /\ exists call, snd tc = Some call /\ In call cl
                  /\ call_id call = Transcripts.tr_call_id (fst tc).
Proof.
  intros Htc. apply in_map_iff in Htc.
  destruct Htc as (t & <- & Ht). cbn [fst snd].
  apply (Permutation_in _ (sortBy_perm Transcripts.transcriptDesc _)) in Ht.
  apply filter_In in Ht. destruct Ht as [Ht Hex]. split; [exact Ht|].
  apply existsb_exists in Hex. destruct Hex as (id & Hid & E).
  apply Nat.eqb_eq in E. apply in_map_iff in Hid.
  destruct Hid as (c & Hc & Hcin).
  destruct (find (fun c => Nat.eqb (call_id c) (Transcripts.tr_call_id t)) cl)
    as [call|] eqn:F.
  - apply find_some in F. destruct F as [F1 F2]. apply Nat.eqb_eq in F2.
    exists call. auto.
  - exfalso. apply (find_none _ _ F) in Hcin.
    apply Nat.eqb_neq in Hcin. congruence.
Qed.

Lemma join_complete (cl : list CallRow) table t :
  In t table ->
  (exists call, In call cl /\ call_id call = Transcripts.tr_call_id t) ->
  In t (map fst
          (map (fun t =>
                  (t, find (fun c => Nat.eqb (call_id c)
                                       (Transcripts.tr_call_id t)) cl))
               (Js.sortBy Transcripts.transcriptDesc
                  (filter (fun t => existsb (Nat.eqb (Transcripts.tr_call_id t))
                                      (map call_id cl)) table)))).
Proof.
  intros Ht (call & H1 & H2).
  rewrite map_map. cbn [fst]. rewrite map_id.
  apply (Permutation_in _ (Permutation_sym
           (sortBy_perm Transcripts.transcriptDesc _))).
  apply filter_In. split; [exact Ht|].
  apply existsb_exists. exists (call_id call). split.
  - now apply in_map.
  - apply Nat.eqb_eq. now symmetry.
Qed.

(** X23. Every transcript the route returns comes with its call, and the
    call is a completed call of the user: the joined call is never
    missing, has the id the transcript refers to, belongs to the user and
    has status [completed].  Conversely, each transcript of the table
    that refers to a completed call of the user is returned. *)
Theorem transcripts_come_with_a_completed_call_of_the_user
  (env : Transcripts.Env) (u : string) (w : World)
  (table : list Transcripts.TranscriptRow)
  (found : list (Transcripts.TranscriptRow * option CallRow)) :
  Transcripts.GET env (Some u) w table = Transcripts.Found found ->
  Forall (fun tc =>
            In (fst tc) table
            /\ exists call,
                 snd tc = Some call /\ In call (calls w)
                 /\ call_user call = u /\ call_status call = completed
                 /\ call_id call = Transcripts.tr_call_id (fst tc))
         found
  /\ forall t, In t table ->
       (exists call, In call (calls w) /\ call_user call = u
                     /\ call_status call = completed
                     /\ call_id call = Transcripts.tr_call_id t) ->
       In t (map fst found).
Proof.
  unfold Transcripts.GET.
  destruct (negb (Js.nonempty u)); [discriminate|].
  destruct (negb (Transcripts.configured env)); [discriminate|].
  destruct (negb (Transcripts.serves env (Transcripts.CompletedCalls u)));
    [discriminate|].
  pose proof (In_completedCallsOf u w) as Hin.
  destruct (Transcripts.completedCallsOf u w) as [|c0 cs] eqn:Ec.
  - intros H. injection H as <-. split; [constructor|].
    intros t _ (call & H1 & H2 & H3 & _).
    destruct (proj2 (Hin call)); auto.
  - destruct (negb (Transcripts.serves env _)); [discriminate|].
    intros H. injection H as <-. split.
    + apply Forall_forall. intros tc Htc.
      apply (join_sound (c0 :: cs)) in Htc.
      destruct Htc as (Ht & call & G1 & G2 & G3). split; [exact Ht|].
      apply Hin in G2. destruct G2 as (K1 & K2 & K3). exists call. auto.
    + intros t Ht (call & H1 & H2 & H3 & H4).
      apply (join_complete (c0 :: cs)); [exact Ht|].
      exists call. split; [|exact H4]. apply Hin. auto.
Qed.

Lemma transcripts_come_with_a_completed_call_of_the_user_witness :
  Forall (fun tc =>
            In (fst tc) Cases.transcriptTable
            /\ exists call,
                 snd tc = Some call /\ In call (calls Cases.afterCall)
                 /\ call_user call = Sample.alice
                 /\ call_status call = completed
                 /\ call_id call = Transcripts.tr_call_id (fst tc))
         [(Transcripts.mkTranscript 1 1 2000000, Some Cases.completedCall)].
Proof.
  exact (proj1 (transcripts_come_with_a_completed_call_of_the_user
                  Cases.transcriptsEnv Sample.alice Cases.afterCall
                  Cases.transcriptTable _ eq_refl)).
Defined.

End TranscriptProofs.

Section UploadProofs.

Lemma dropPrefix_append p s : Upload.dropPrefix p (p ++ s) = Some s.
Proof.
  induction p as [|a p IH]; cbn; [reflexivity|].
  now rewrite Ascii.eqb_refl.
Qed.

Lemma replaceFirst_prefix p r s :
  Upload.replaceFirst p r (p ++ s) = (r ++ s)%string.
Proof.
  pose proof (dropPrefix_append p s) as H.
  destruct (p ++ s)%string; cbn; now rewrite H.
Qed.

Lemma nonempty_append_r a b :
  Js.nonempty b = true -> Js.nonempty (a ++ b) = true.
Proof. destruct a; cbn; auto. Qed.

Lemma voiceSamplePathOf_storage x :
  Upload.voiceSamplePathOf ("voice-samples/" ++ x) = x.
Proof. unfold Upload.voiceSamplePathOf. now rewrite replaceFirst_prefix. Qed.

(** X24. The recording that is uploaded is the one the pipeline reads.
    When the upload route answers with an upload URL and a storage path,
    the storage service signed the upload of that path; the path the
    onboarding form sends on to the pipeline is the storage path without
    the bucket, that is [<user>/<clock>.webm], it is not empty, and with
    the default bucket the pipeline asks the signed download URL for the
    same storage path. *)
Theorem uploaded_sample_is_the_one_the_pipeline_reads
  (env : Upload.Env) (u uploadUrl storagePath : string) :
  Upload.POST env (Some u) = Upload.UploadUrl uploadUrl storagePath ->
  (exists base signed,
     Upload.supabaseUrl env = Some base
     /\ Upload.signedUploadUrl env
          ("/storage/v1/object/upload/sign/" ++ storagePath) = Some signed
     /\ uploadUrl = base ++ "/storage/v1" ++ signed)
  /\ Upload.voiceSamplePathOf storagePath
     = Upload.objectPath u (Upload.now env)
  /\ Js.nonempty (Upload.voiceSamplePathOf storagePath) = true
  /\ Upload.signedObject "voice-samples" (Upload.voiceSamplePathOf storagePath)
     = "/object/sign/" ++ storagePath.
Proof.
  unfold Upload.POST.
  destruct (negb (Js.nonempty u)); [discriminate|].
  destruct (Upload.supabaseUrl env) as [base|]; [|discriminate].
  destruct (Upload.signedUploadUrl env _) as [signed|] eqn:Es; [|discriminate].
  intros H.
  assert (Hs : storagePath
               = "voice-samples/" ++ Upload.objectPath u (Upload.now env))
    by congruence.
  assert (Hu : uploadUrl = base ++ "/storage/v1" ++ signed) by congruence.
  clear H. subst storagePath uploadUrl.
  rewrite voiceSamplePathOf_storage. split; [|split; [reflexivity|split]].
  - exists base, signed. repeat split. exact Es.
  - unfold Upload.objectPath. apply nonempty_append_r. reflexivity.
  - reflexivity.
Qed.

Lemma uploaded_sample_is_the_one_the_pipeline_reads_witness :
  Upload.voiceSamplePathOf "voice-samples/user_alice/1700.webm"
  = Upload.objectPath Sample.alice 1700.
Proof.
  exact (proj1 (proj2 (uploaded_sample_is_the_one_the_pipeline_reads
                         Cases.uploadEnv Sample.alice _ _ eq_refl))).
Defined.

End UploadProofs.

Section OutputTextProofs.

Lemma find_app_some (A : Type) (p : A -> bool) l more x :
  find p l = Some x -> find p (l ++ more) = Some x.
Proof.
  induction l as [|a l IH]; cbn; [discriminate|].
  destruct (p a); auto.
Qed.

(** X25. Only the first message decides the output text.  Without a
    top-level [output_text], the text is looked up in the first output
    item of type [message] and nowhere else: once the output has a
    message item, items after it change nothing, also when that first
    message has no text part and a later one has. *)
Theorem first_message_decides_the_output_text
  (items more : list OpenAI.OutputItem) (top : option string) :
  existsb OpenAI.isMessage items = true ->
  OpenAI.getOutputText (OpenAI.mkResponse top (Some (items ++ more)%list))
  = OpenAI.getOutputText (OpenAI.mkResponse top (Some items)).
Proof.
  intros H. unfold OpenAI.getOutputText. cbn.
  destruct top; [reflexivity|].
  destruct (find OpenAI.isMessage items) as [msg|] eqn:F.
  - now rewrite (find_app_some _ _ _ more _ F).
  - exfalso. apply existsb_exists in H. destruct H as (x & Hx & Hm).
    apply (find_none _ _ F) in Hx. congruence.
Qed.

Lemma first_message_decides_the_output_text_witness :
  OpenAI.getOutputText
    (OpenAI.mkResponse None
       (Some (Cases.silentMessage ++ Cases.laterMessage)%list))
  = OpenAI.getOutputText (OpenAI.mkResponse None (Some Cases.silentMessage)).
Proof.
  exact (first_message_decides_the_output_text Cases.silentMessage
           Cases.laterMessage None eq_refl).
Defined.

End OutputTextProofs.


(* ------------------------------------------------------------------ *)
(** ** The bootstrap route *)
(* ------------------------------------------------------------------ *)

Section BootstrapProofs.
Import Store Remote.

Lemma profilesOf_syncPhone u phone w :
  profilesOf u (Bootstrap.syncPhone u phone w)
  = map (fun p => mkProfile (clerk_user_id p) phone (setup_status p)
                            (eleven_voice_id p) (eleven_agent_id p))
        (profilesOf u w).
Proof.
  unfold profilesOf, Bootstrap.syncPhone. cbn [profiles with_profiles].
  induction (profiles w) as [|p l IH]; cbn; [reflexivity|].
  destruct (String.eqb (clerk_user_id p) u) eqn:E; cbn; rewrite E; cbn;
    now rewrite IH.
Qed.

(** X26. The bootstrap route changes nothing of a profile but the phone.
    Calls, timestamps and scheduled calls are as before; every profile
    that was in the store is still there, in its place, with the same
    user, setup status, voice id and agent id, and its phone is as
    before unless it is a profile of the caller, which may get the phone
    of the identity provider; one profile row is added at most, and only
    for a caller who had none. *)
Theorem bootstrap_changes_only_the_phone
  (env : Bootstrap.Env) (auth : option string) (w : World) :
  let w' := fst (Bootstrap.GET env auth w) in
  calls w' = calls w /\ timestamps w' = timestamps w
  /\ scheduled w' = scheduled w
  /\ exists kept added,
       profiles w' = (kept ++ added)%list
       /\ Forall2 (fun p p' =>
                     clerk_user_id p' = clerk_user_id p
                     /\ setup_status p' = setup_status p
                     /\ eleven_voice_id p' = eleven_voice_id p
                     /\ eleven_agent_id p' = eleven_agent_id p
                     /\ (phone_e164 p' = phone_e164 p
                         \/ (auth = Some (clerk_user_id p)
                             /\ phone_e164 p' = Bootstrap.phoneE164 env)))
                  (profiles w) kept
       /\ (added = []
           \/ exists u p, auth = Some u /\ added = [p]
                          /\ clerk_user_id p = u /\ profilesOf u w = []).
Proof.
  cbv zeta.
  assert (Hsame : calls w = calls w /\ timestamps w = timestamps w
                  /\ scheduled w = scheduled w
                  /\ exists kept added,
                       profiles w = (kept ++ added)%list
                       /\ Forall2 (fun p p' =>
                            clerk_user_id p' = clerk_user_id p
                            /\ setup_status p' = setup_status p
                            /\ eleven_voice_id p' = eleven_voice_id p
                            /\ eleven_agent_id p' = eleven_agent_id p
                            /\ (phone_e164 p' = phone_e164 p
                                \/ (auth = Some (clerk_user_id p)
                                    /\ phone_e164 p' = Bootstrap.phoneE164 env)))
                            (profiles w) kept
                       /\ (added = []
                           \/ exists u p, auth = Some u /\ added = [p]
                                /\ clerk_user_id p = u /\ profilesOf u w = [])).
  { repeat split. exists (profiles w), []. rewrite app_nil_r.
    split; [reflexivity|]. split; [|now left].
    apply Forall2_refl_rel. intros p. repeat split. now left. }
  unfold Bootstrap.GET.
  destruct auth as [u|]; [|exact Hsame].
  destruct (negb (Js.nonempty u)); [exact Hsame|].
  destruct (negb (Bootstrap.configured env)); [exact Hsame|].
  destruct (negb (Bootstrap.serves env (Bootstrap.ReadProfile u)));
    [exact Hsame|].
  destruct (profilesOf u w) as [|profile rest] eqn:Ep.
  - destruct (negb (Bootstrap.serves env (Bootstrap.CreateProfile u)));
      [exact Hsame|].
    cbn [fst calls timestamps scheduled profiles with_profiles].
    repeat split. eexists. eexists. split; [reflexivity|].
    split.
    + apply Forall2_refl_rel. intros p. repeat split. now left.
    + right. exists u. eexists. repeat split. exact Ep.
  - cbn [fst].
    destruct (negb (Bootstrap.sameString (phone_e164 profile)
                      (Bootstrap.phoneE164 env))); [|exact Hsame].
    destruct (Bootstrap.serves env (Bootstrap.SyncPhone u)); [|exact Hsame].
    unfold Bootstrap.syncPhone.
    cbn [calls timestamps scheduled profiles with_profiles].
    repeat split. eexists. exists []. rewrite app_nil_r.
    split; [reflexivity|]. split; [|now left].
    apply Forall2_map_same. intros p _.
    destruct (String.eqb_spec (clerk_user_id p) u) as [E|E].
    + cbn. repeat split. right. now rewrite E.
    + repeat split. now left.
Qed.

(** X27. A caller whom the bootstrap route sends to the dashboard can start
    a call as far as the profile goes: in the store the route leaves, the
    manual call route never answers that the profile is missing or not
    ready, whatever its environment. *)
Theorem dashboard_redirect_means_the_profile_is_ready_for_calls
  (env : Bootstrap.Env) (u : string) (w w' : World) (profile : Profile)
  (cenv : Calls.Env) :
  Bootstrap.GET env (Some u) w
  = (w', Bootstrap.Bootstrapped profile Bootstrap.ToDashboard) ->
  snd (Calls.POST cenv (Some u) w') <> Calls.ProfileNotFound
  /\ snd (Calls.POST cenv (Some u) w') <> Calls.NotReady.
Proof.
  intros H.
  assert (Hp : exists p rest,
             profilesOf u w' = p :: rest
             /\ setup_status p = ready
             /\ Js.truthy (eleven_agent_id p) = true).
  { revert H. unfold Bootstrap.GET.
    destruct (negb (Js.nonempty u)); [discriminate|].
    destruct (negb (Bootstrap.configured env)); [discriminate|].
    destruct (negb (Bootstrap.serves env (Bootstrap.ReadProfile u)));
      [discriminate|].
    assert (Hready : forall q, Bootstrap.redirectOf q = Bootstrap.ToDashboard ->
                               setup_status q = ready
                               /\ Js.truthy (eleven_agent_id q) = true).
    { intros q. unfold Bootstrap.redirectOf.
      destruct (setup_status q); cbn; try discriminate.
      destruct (Js.truthy (eleven_agent_id q)); [auto|discriminate]. }
    destruct (profilesOf u w) as [|p rest] eqn:Ep.
    - destruct (negb (Bootstrap.serves env (Bootstrap.CreateProfile u)));
        [discriminate|].
      intros H. injection H as <- <- Hr.
      apply Hready in Hr. cbn in Hr.
      unfold profilesOf in *. cbn [profiles with_profiles].
      rewrite filter_app, Ep. cbn. rewrite String.eqb_refl.
      eexists. eexists. split; [reflexivity|exact Hr].
    - intros H. injection H as <- <- Hr. apply Hready in Hr.
      destruct (negb (Bootstrap.sameString (phone_e164 p)
                        (Bootstrap.phoneE164 env)));
        [|exists p, rest; auto].
      destruct (Bootstrap.serves env (Bootstrap.SyncPhone u));
        [|exists p, rest; auto].
      rewrite profilesOf_syncPhone, Ep. cbn [map].
      eexists. eexists. split; [reflexivity|exact Hr]. }
  destruct Hp as (p & rest & Hp & Hs & Ha).
  unfold Calls.POST.
  destruct (negb (Js.nonempty u)); [split; discriminate|].
  destruct (reconcile_keeps cenv u w') as (_ & Hpr & _).
  assert (Hp1 : profilesOf u (fst (Calls.reconcileStuckCalls cenv u w'))
                = p :: rest).
  { unfold profilesOf in *. now rewrite Hpr. }
  destruct (Calls.reconcileStuckCalls cenv u w') as [w1 threw].
  cbn [fst] in Hp1. clear Hpr.
  destruct threw; [split; discriminate|].
  destruct (negb (Calls.serves cenv (GetProfile u))); [split; discriminate|].
  rewrite Hp1, Hs, Ha. cbn [SetupStatus_eqb negb orb].
  destruct (negb (Js.truthy (phone_e164 p))); [split; discriminate|].
  destruct (negb (Calls.serves cenv (GetLatestTimestamp u)));
    [split; discriminate|].
  destruct (latestTimestampsOf u _); [split; discriminate|].
  destruct (negb (Calls.serves cenv (GetActiveCall u))); [split; discriminate|].
  destruct (firstn 1 _); [|split; discriminate].
  destruct (negb (Calls.serves cenv (InsertCall u))); [split; discriminate|].
  destruct (insertCall _ _ _ _ _ _ _) as [w2 callId].
  destruct (Nat.eqb callId 0); [split; discriminate|].
  unfold Calls.dialAndRecord. destruct (Calls.dial cenv); split; discriminate.
Qed.

Lemma dashboard_redirect_means_the_profile_is_ready_for_calls_witness :
  snd (Calls.POST (Sample.callsEnv Sample.t0) (Some Sample.alice)
         (fst (Bootstrap.GET Cases.bootstrapEnv (Some Sample.alice) Cases.idle)))
  <> Calls.NotReady.
Proof.
  exact (proj2 (dashboard_redirect_means_the_profile_is_ready_for_calls
                  Cases.bootstrapEnv Sample.alice Cases.idle
                  (fst (Bootstrap.GET Cases.bootstrapEnv (Some Sample.alice)
                          Cases.idle))
                  Sample.aliceReady (Sample.callsEnv Sample.t0) eq_refl)).
Defined.

End BootstrapProofs.
